(** * CTF Sentinel: notification scheduling and persistence core

    A shallow embedding of [src/CTF.py] (the Discord bot "CTF Sentinel")
    and the properties of its notification tracker, trigger pass, cache
    refresh and JSON persistence.

    Conventions of the embedding.
    - A Python [dict] whose iteration order is observable (the stores of
      [CTFDataManager], the per-guild channel map) is an insertion-ordered
      association list ([pydict]); a Python [set] of strings is a
      [gset string].
    - Python strings are [string]; every character stands for one code
      point below 256, so [\d] of the [re] module is exactly [0-9].
    - Instants are integers: [now] is a number of microseconds since the
      Unix epoch, timestamps are whole seconds, and the quotient
      [total_seconds() / 3600] is kept as an exact rational.  The
      comparisons of the source against 0, 1.5, 23 and 25 agree with the
      exact ones on all microsecond inputs.
    - Functions of the source that touch the stores, the Discord client or
      can raise run in the monad [M]: state passing over [CTFDataManager],
      a log of the observable actions, and an exception outcome.  A pass
      runs from start to end on the stores; the other periodic tasks, which
      could run at its [await]s, are not interleaved with it. *)

From Stdlib Require Import ZArith QArith List String Ascii Bool Lia.
From Stdlib Require Import DecimalString DecimalZ.
From stdpp Require Import gmap strings.

Open Scope string_scope.
Open Scope Z_scope.

(** ** Python primitives *)

Module Py.

(** Keys of the guild-indexed stores: the bot uses [int] guild ids, and
    [slash_reset_notifications] a [str] one.  In Python [5 != "5"]. *)
Inductive key :=
| KInt (z : Z)
| KStr (s : string).

Definition key_eqb (a b : key) : bool :=
  match a, b with
  | KInt x, KInt y => x =? y
  | KStr x, KStr y => String.eqb x y
  | _, _ => false
  end.

(** [str(z)] for an [int]. *)
Definition str_of_int (z : Z) : string := NilZero.string_of_int (Z.to_int z).

(** [int(s)] for a [str]: decimal digits with an optional minus sign;
    [None] is [ValueError].  (Python also accepts a plus sign, surrounding
    blanks and underscores; no string written by [str_of_int] has them.) *)
Definition int_of_str (s : string) : option Z :=
  match NilZero.int_of_string s with
  | Some d => Some (Z.of_int d)
  | None => None
  end.

(** [str(k)] of a key. *)
Definition str (k : key) : string :=
  match k with
  | KInt z => str_of_int z
  | KStr s => s
  end.

Section Dict.
Context {K V : Type} (eqb : K -> K -> bool).

(** [d.get(k)] *)
Fixpoint get (k : K) (d : list (K * V)) : option V :=
  match d with
  | [] => None
  | (k', v) :: r => if eqb k k' then Some v else get k r
  end.

(** [d[k] = v]: an existing key keeps its position, a new one goes last. *)
Fixpoint set (k : K) (v : V) (d : list (K * V)) : list (K * V) :=
  match d with
  | [] => [(k, v)]
  | (k', v') :: r => if eqb k k' then (k', v) :: r else (k', v') :: set k v r
  end.

(** [{k: v for k, v in items}]: later items overwrite earlier ones. *)
Definition of_items (items : list (K * V)) : list (K * V) :=
  fold_left (fun acc kv => set (fst kv) (snd kv) acc) items [].
End Dict.

End Py.

(** Insertion-ordered Python dictionaries. *)
Definition pydict (K V : Type) : Type := list (K * V).

Abbreviation sget := (Py.get String.eqb).
Abbreviation sset := (Py.set String.eqb).
Abbreviation zget := (Py.get Z.eqb).
Abbreviation zset := (Py.set Z.eqb).
Abbreviation kget := (Py.get Py.key_eqb).
Abbreviation kset := (Py.set Py.key_eqb).

(** ** [datetime.strptime] on the formats of [parse_ctf_time_to_timestamp]

    The directives follow the regular expressions of CPython's
    [_strptime] (3.11/3.12), matched case-insensitively from the start of
    the string; unconverted trailing data is an error.  Every numeric
    directive is followed in these formats by a literal, by [%z] or by the
    end of the format, so the first alternative that matches is the only
    one that can lead to a match. *)

Module Strptime.

Inductive item :=
| Lit (c : ascii)
| DY | Dm | Dd | DH | DM | DS | Df | Dz.

Record fields := {
  fY : Z; fm : Z; fd : Z; fH : Z; fM : Z; fS : Z;
  ff : Z;               (* microseconds *)
  fz : option Z         (* utc offset in microseconds *)
}.

Definition no_fields : fields :=
  {| fY := 1900; fm := 1; fd := 1; fH := 0; fM := 0; fS := 0; ff := 0; fz := None |}.

Definition digit (c : ascii) : option Z :=
  let n := Z.of_N (N_of_ascii c) in
  if (48 <=? n) && (n <=? 57) then Some (n - 48) else None.

Definition lower (c : ascii) : ascii :=
  let n := N_of_ascii c in
  if ((65 <=? n) && (n <=? 90))%N then ascii_of_N (n + 32) else c.

(** Two-character alternatives first, then the one-character one. *)
Definition two_or_one (p2 : Z -> Z -> bool) (p1 : Z -> bool) (s : list ascii)
  : option (Z * list ascii) :=
  match s with
  | c1 :: r1 =>
      match digit c1 with
      | Some d1 =>
          let one := if p1 d1 then Some (d1, r1) else None in
          match r1 with
          | c2 :: r2 =>
              match digit c2 with
              | Some d2 => if p2 d1 d2 then Some (10 * d1 + d2, r2) else one
              | None => one
              end
          | [] => one
          end
      | None => None
      end
  | [] => None
  end.

(** [\d\d\d\d] *)
Definition year4 (s : list ascii) : option (Z * list ascii) :=
  match s with
  | a :: b :: c :: d :: r =>
      match digit a, digit b, digit c, digit d with
      | Some x, Some y, Some z, Some w => Some (1000 * x + 100 * y + 10 * z + w, r)
      | _, _, _, _ => None
      end
  | _ => None
  end.

(** [1[0-2]|0[1-9]|[1-9]] *)
Definition month := two_or_one
  (fun a b => ((a =? 1) && (b <=? 2)) || ((a =? 0) && (1 <=? b))) (fun a => 1 <=? a).

(** [3[0-1]|[1-2]\d|0[1-9]|[1-9]| [1-9]] *)
Definition day (s : list ascii) : option (Z * list ascii) :=
  match two_or_one
          (fun a b => ((a =? 3) && (b <=? 1)) || ((1 <=? a) && (a <=? 2))
                      || ((a =? 0) && (1 <=? b)))
          (fun a => 1 <=? a) s with
  | Some r => Some r
  | None =>
      match s with
      | c1 :: c2 :: r =>
          if Ascii.eqb c1 " "
          then match digit c2 with
               | Some d => if 1 <=? d then Some (d, r) else None
               | None => None
               end
          else None
      | _ => None
      end
  end.

(** [2[0-3]|[0-1]\d|\d] *)
Definition hour := two_or_one
  (fun a b => ((a =? 2) && (b <=? 3)) || (a <=? 1)) (fun _ => true).

(** [[0-5]\d|\d] *)
Definition minute := two_or_one (fun a _ => a <=? 5) (fun _ => true).

(** [6[0-1]|[0-5]\d|\d] *)
Definition second := two_or_one
  (fun a b => ((a =? 6) && (b <=? 1)) || (a <=? 5)) (fun _ => true).

(** Up to [n] leading digits, most significant first. *)
Fixpoint digits_upto (n : nat) (s : list ascii) : list Z * list ascii :=
  match n, s with
  | S n', c :: r =>
      match digit c with
      | Some d => let (ds, r') := digits_upto n' r in (d :: ds, r')
      | None => ([], s)
      end
  | _, _ => ([], s)
  end.

(** The digits [ds] read as a fraction of a second padded to six places. *)
Fixpoint micro_of (w : Z) (ds : list Z) : Z :=
  match ds with
  | [] => 0
  | d :: r => d * w + micro_of (w / 10) r
  end.

(** [[0-9]{1,6}] *)
Definition fraction (s : list ascii) : option (Z * list ascii) :=
  match digits_upto 6 s with
  | ([], _) => None
  | (ds, r) => Some (micro_of 100000 ds, r)
  end.

(** [[0-5]\d] *)
Definition sixty (s : list ascii) : option (Z * list ascii) :=
  match s with
  | c1 :: c2 :: r =>
      match digit c1, digit c2 with
      | Some a, Some b => if a <=? 5 then Some (10 * a + b, r) else None
      | _, _ => None
      end
  | _ => None
  end.

(** An optional [:] followed by [[0-5]\d]; the flag tells whether the
    colon was there. *)
Definition colon_sixty (s : list ascii) : option (bool * Z * list ascii) :=
  match s with
  | c :: r =>
      if Ascii.eqb c ":"
      then match sixty r with Some (v, r') => Some (true, v, r') | None => None end
      else match sixty s with Some (v, r') => Some (false, v, r') | None => None end
  | [] => None
  end.

(** [(\.\d{1,6})?] *)
Definition opt_dot_fraction (s : list ascii) : Z * list ascii :=
  match s with
  | c :: r =>
      if Ascii.eqb c "."
      then match fraction r with Some (v, r') => (v, r') | None => (0, s) end
      else (0, s)
  | [] => (0, s)
  end.

(** [[+-]\d\d:?[0-5]\d(:?[0-5]\d(\.\d{1,6})?)?|(?-i:Z)], then the
    conversion of [_strptime]: a colon before the minutes and none before
    the seconds (or the reverse) is a [ValueError]. *)
Definition zone (s : list ascii) : option (Z * list ascii) :=
  match s with
  | c :: r =>
      if Ascii.eqb c "Z" then Some (0, r)
      else
        let sign := if Ascii.eqb c "+" then Some 1
                    else if Ascii.eqb c "-" then Some (-1) else None in
        match sign, r with
        | Some sg, h1 :: h2 :: r1 =>
            match digit h1, digit h2, colon_sixty r1 with
            | Some a, Some b, Some (col1, mm, r2) =>
                let hh := 10 * a + b in
                match colon_sixty r2 with
                | Some (col2, ss, r3) =>
                    if Bool.eqb col1 col2
                    then let (us, r4) := opt_dot_fraction r3 in
                         Some (sg * ((hh * 3600 + mm * 60 + ss) * 1000000 + us), r4)
                    else None
                | None => Some (sg * ((hh * 3600 + mm * 60) * 1000000), r2)
                end
            | _, _, _ => None
            end
        | _, _ => None
        end
  | [] => None
  end.

Definition step (it : item) (st : fields * list ascii) : option (fields * list ascii) :=
  let (f, s) := st in
  match it with
  | Lit c =>
      match s with
      | x :: r => if Ascii.eqb (lower x) (lower c) then Some (f, r) else None
      | [] => None
      end
  | DY => match year4 s with
          | Some (v, r) => Some ({| fY := v; fm := fm f; fd := fd f; fH := fH f;
                                    fM := fM f; fS := fS f; ff := ff f; fz := fz f |}, r)
          | None => None end
  | Dm => match month s with
          | Some (v, r) => Some ({| fY := fY f; fm := v; fd := fd f; fH := fH f;
                                    fM := fM f; fS := fS f; ff := ff f; fz := fz f |}, r)
          | None => None end
  | Dd => match day s with
          | Some (v, r) => Some ({| fY := fY f; fm := fm f; fd := v; fH := fH f;
                                    fM := fM f; fS := fS f; ff := ff f; fz := fz f |}, r)
          | None => None end
  | DH => match hour s with
          | Some (v, r) => Some ({| fY := fY f; fm := fm f; fd := fd f; fH := v;
                                    fM := fM f; fS := fS f; ff := ff f; fz := fz f |}, r)
          | None => None end
  | DM => match minute s with
          | Some (v, r) => Some ({| fY := fY f; fm := fm f; fd := fd f; fH := fH f;
                                    fM := v; fS := fS f; ff := ff f; fz := fz f |}, r)
          | None => None end
  | DS => match second s with
          | Some (v, r) => Some ({| fY := fY f; fm := fm f; fd := fd f; fH := fH f;
                                    fM := fM f; fS := v; ff := ff f; fz := fz f |}, r)
          | None => None end
  | Df => match fraction s with
          | Some (v, r) => Some ({| fY := fY f; fm := fm f; fd := fd f; fH := fH f;
                                    fM := fM f; fS := fS f; ff := v; fz := fz f |}, r)
          | None => None end
  | Dz => match zone s with
          | Some (v, r) => Some ({| fY := fY f; fm := fm f; fd := fd f; fH := fH f;
                                    fM := fM f; fS := fS f; ff := ff f; fz := Some v |}, r)
          | None => None end
  end.

Fixpoint run (fmt : list item) (st : fields * list ascii) : option (fields * list ascii) :=
  match fmt with
  | [] => Some st
  | it :: rest => match step it st with Some st' => run rest st' | None => None end
  end.

(** ** The [datetime] built from the fields *)

Record datetime := {
  year : Z; mon : Z; mday : Z; hh : Z; mi : Z; ss : Z; microsecond : Z;
  tzinfo : option Z     (* utc offset in microseconds; [None] is naive *)
}.

Definition is_leap (y : Z) : bool :=
  (y mod 4 =? 0) && (negb (y mod 100 =? 0) || (y mod 400 =? 0)).

Definition days_in_month (y m : Z) : Z :=
  if m =? 2 then (if is_leap y then 29 else 28)
  else if (m =? 4) || (m =? 6) || (m =? 9) || (m =? 11) then 30 else 31.

Definition days_before_year (y : Z) : Z :=
  let p := y - 1 in p * 365 + p / 4 - p / 100 + p / 400.

Fixpoint days_before_month_aux (y : Z) (n : nat) : Z :=
  match n with
  | O => 0
  | S k => days_before_month_aux y k + days_in_month y (Z.of_nat (S k))
  end.

Definition days_before_month (y m : Z) : Z :=
  days_before_month_aux y (Z.to_nat (m - 1)).

Definition ymd2ord (y m d : Z) : Z :=
  days_before_year y + days_before_month y m + d.

Definition day_us : Z := 86400 * 1000000.

(** The constructor checks of [datetime] and [timezone]. *)
Definition build (f : fields) : option datetime :=
  if (1 <=? fY f) && (fd f <=? days_in_month (fY f) (fm f)) && (fS f <=? 59)
     && match fz f with Some o => (- day_us <? o) && (o <? day_us) | None => true end
  then Some {| year := fY f; mon := fm f; mday := fd f; hh := fH f; mi := fM f;
               ss := fS f; microsecond := ff f; tzinfo := fz f |}
  else None.

(** [datetime.strptime(s, fmt)]; [None] is [ValueError]. *)
Definition strptime (s : string) (fmt : list item) : option datetime :=
  match run fmt (no_fields, list_ascii_of_string s) with
  | Some (f, []) => build f
  | _ => None
  end.

(** Microseconds between the epoch and the wall-clock fields read as UTC. *)
Definition wall_us (dt : datetime) : Z :=
  (((ymd2ord (year dt) (mon dt) (mday dt) - 719163) * 86400
    + hh dt * 3600 + mi dt * 60 + ss dt) * 1000000) + microsecond dt.

(** [dt.replace(tzinfo=timezone.utc)] *)
Definition replace_utc (dt : datetime) : datetime :=
  {| year := year dt; mon := mon dt; mday := mday dt; hh := hh dt; mi := mi dt;
     ss := ss dt; microsecond := microsecond dt; tzinfo := Some 0 |}.

(** [int(dt.timestamp())] of an aware [dt] ([int] truncates towards 0).
    The quotient is exact; the float that Python truncates can differ from
    it only for instants some five centuries away from the epoch that carry
    microseconds. *)
Definition int_timestamp (dt : datetime) : Z :=
  let off := match tzinfo dt with Some o => o | None => 0 end in
  Z.quot (wall_us dt - off) 1000000.

(** The wall-clock fields of [dt] read as UTC, in whole seconds. *)
Definition utc_seconds (dt : datetime) : Z := Z.quot (wall_us dt) 1000000.

(** "%Y-%m-%dT%H:%M:%S" *)
Definition fmt_plain : list item :=
  [DY; Lit "-"; Dm; Lit "-"; Dd; Lit "T"; DH; Lit ":"; DM; Lit ":"; DS]%char.

End Strptime.

Import Strptime.

(** [time_formats] of the source, in its order. *)
Definition time_formats : list (list item) :=
  [ (fmt_plain ++ [Dz])%list;
    (fmt_plain ++ [Lit "."%char; Df; Dz])%list;
    fmt_plain;
    (fmt_plain ++ [Lit "."%char; Df])%list ].

(** The [for fmt in time_formats] loop: the first format that parses
    decides; a naive result is taken as UTC. *)
Fixpoint try_formats (time_str : string) (fmts : list (list item)) : option Z :=
  match fmts with
  | [] => None
  | fmt :: rest =>
      match strptime time_str fmt with
      | Some dt =>
          let dt := match tzinfo dt with None => replace_utc dt | Some _ => dt end in
          Some (int_timestamp dt)
      | None => try_formats time_str rest
      end
  end.

Definition parse_ctf_time_to_timestamp (time_str : string) : option Z :=
  if String.eqb time_str EmptyString then None
  else
    match try_formats time_str time_formats with
    | Some t => Some t
    | None =>
        match strptime (substring 0 19 time_str) fmt_plain with
        | Some dt => Some (int_timestamp (replace_utc dt))
        | None => None
        end
    end.

(** ** Data model *)

(** An event of the CTFtime feed: the keys the bot reads, with the types
    the feed gives them.  [None] is an absent key. *)
Record event := {
  ev_title : option string;
  ev_id : option Z;
  ev_start : option string;
  ev_finish : option string;
  ev_description : option string;
  ev_url : option string
}.

(** Values of the settings map. *)
Inductive setting_value :=
| SBool (b : bool)
| SInt (n : Z)
| SRoles (roles : list Z).

(** Python truthiness of the result of a [.get]. *)
Definition truthy (v : option setting_value) : bool :=
  match v with
  | Some (SBool b) => b
  | Some (SInt n) => negb (n =? 0)
  | Some (SRoles l) => match l with [] => false | _ => true end
  | None => false
  end.

Definition DEFAULT_CONFIG : pydict string setting_value :=
  [ ("api_check_interval", SInt 15);
    ("notification_check_interval", SInt 15);
    ("notification_24h", SBool true);
    ("notification_1h", SBool true);
    ("auto_archive", SBool true);
    ("archive_delay", SInt 60);
    ("admin_roles", SRoles []) ].

Record credentials := { cred_user : string; cred_pass : string; cred_email : string }.

Definition DEFAULT_CTF_CREDENTIALS : credentials :=
  {| cred_user := "Not-Set"; cred_pass := "random"; cred_email := "Not-Set@gmail.com" |}.

Record guild_config := {
  setup_complete : bool;
  channel_id : option Z;
  settings : pydict string setting_value;
  ctf_channels : pydict string Z;
  ctf_credentials : credentials
}.

(** What a notification kind maps to: the [set] that
    [get_guild_notifications] creates, or the [list] that
    [slash_reset_notifications] stores. *)
Inductive container :=
| PySet (s : gset string)
| PyList (l : list string).

(** [ctf_id in c] *)
Definition contains (ctf_id : string) (c : container) : bool :=
  match c with
  | PySet s => bool_decide (ctf_id ∈ s)
  | PyList l => existsb (String.eqb ctf_id) l
  end.

(** Modelled from the spec: the values of [guild_ctf_status], whose
    accessors ([mark_ctf_joined], [mark_ctf_skipped], [is_ctf_joined],
    [should_send_notification]) are called but not defined in the source.
    The spec (3, ParticipationRecord) gives "per tenant per EventKey, one of
    untouched, joined, skipped"; a pair without a record is untouched. *)
Inductive participation := Untouched | Joined | Skipped.

Record CTFDataManager := {
  ctf_cache : pydict string event;
  guild_configs : pydict Z guild_config;
  sent_notifications : pydict Py.key (pydict string container);
  guild_ctf_status : pydict Z (pydict string participation)
}.

(** [CTFDataManager.__init__] *)
Definition init : CTFDataManager :=
  {| ctf_cache := []; guild_configs := []; sent_notifications := [];
     guild_ctf_status := [] |}.

(** ** The Discord client, as far as the trigger pass uses it *)

Record Bot := {
  get_guild : Z -> bool;       (* [bot.get_guild(gid)] is not [None] *)
  get_channel : Z -> bool;     (* [bot.get_channel(id)] is not [None] *)
  (* [await channel.send(...)] on channel [id] for an event and a kind
     returns ([true]) or raises ([false]) *)
  delivers : Z -> string -> string -> bool
}.

(** What a pass does that can be observed from outside the stores, and
    the marking of a notification, in the order in which they happen. *)
Inductive action :=
| Send (channel : Z) (guild_id : Z) (ctf_id : string) (kind : string)
| Mark (guild_id : Z) (ctf_id : string) (kind : string).

Inductive exn := KeyError | AttributeError | ValueError | DeliveryError.

Inductive outcome (A : Type) :=
| Ret (a : A)
| Raise (e : exn).
Arguments Ret {A} a.
Arguments Raise {A} e.

(** ** The monad of the stateful functions *)

Definition M (A : Type) : Type :=
  CTFDataManager -> CTFDataManager * list action * outcome A.

Definition ret {A} (a : A) : M A := fun s => (s, [], Ret a).

Definition bind {A B} (m : M A) (f : A -> M B) : M B :=
  fun s =>
    match m s with
    | (s1, t1, Ret a) =>
        match f a s1 with
        | (s2, t2, r) => (s2, (t1 ++ t2)%list, r)
        end
    | (s1, t1, Raise e) => (s1, t1, Raise e)
    end.

Definition raise {A} (e : exn) : M A := fun s => (s, [], Raise e).
Definition gets {A} (f : CTFDataManager -> A) : M A := fun s => (s, [], Ret (f s)).
Definition modify (f : CTFDataManager -> CTFDataManager) : M unit :=
  fun s => (f s, [], Ret tt).
Definition log (a : action) : M unit := fun s => (s, [a], Ret tt).

Notation "x <- m ;; k" := (bind m (fun x => k))
  (at level 100, m at next level, right associativity).
Notation "m ;;; k" := (bind m (fun _ => k))
  (at level 100, right associativity).

(** [for x in l: body(x)] *)
Fixpoint for_each {A} (l : list A) (body : A -> M unit) : M unit :=
  match l with
  | [] => ret tt
  | x :: r => body x ;;; for_each r body
  end.

Definition state_of {A} (r : CTFDataManager * list action * outcome A) := fst (fst r).
Definition trace_of {A} (r : CTFDataManager * list action * outcome A) := snd (fst r).
Definition outcome_of {A} (r : CTFDataManager * list action * outcome A) := snd r.

(** Field updates of the data manager. *)
Definition with_sent (f : pydict Py.key (pydict string container)) (s : CTFDataManager) :=
  {| ctf_cache := ctf_cache s; guild_configs := guild_configs s;
     sent_notifications := f; guild_ctf_status := guild_ctf_status s |}.

Definition with_configs (f : pydict Z guild_config) (s : CTFDataManager) :=
  {| ctf_cache := ctf_cache s; guild_configs := f;
     sent_notifications := sent_notifications s;
     guild_ctf_status := guild_ctf_status s |}.

Definition with_cache (f : pydict string event) (s : CTFDataManager) :=
  {| ctf_cache := f; guild_configs := guild_configs s;
     sent_notifications := sent_notifications s;
     guild_ctf_status := guild_ctf_status s |}.

(** ** Helper functions of the source *)

(** [get_setup_guilds]; the keys of [guild_configs] are [int]s, on which
    [int(gid)] is the identity. *)
Definition get_setup_guilds : M (list Z) :=
  gets (fun s =>
          map fst (List.filter (fun p => setup_complete (snd p)) (guild_configs s))).

Definition get_ctf_id (e : event) : string :=
  let title := match ev_title e with Some t => t | None => "ctf" end in
  let eid := match ev_id e with Some i => Py.str_of_int i | None => "unk" end in
  title ++ "_" ++ eid.

Definition fresh_notifications : pydict string container :=
  [ ("24h", PySet ∅); ("1h", PySet ∅); ("channel_1h", PySet ∅); ("archived", PySet ∅) ].

Definition get_guild_notifications (guild_id : Z) : M (pydict string container) :=
  fun s =>
    match kget (Py.KInt guild_id) (sent_notifications s) with
    | Some e => (s, [], Ret e)
    | None =>
        (with_sent (kset (Py.KInt guild_id) fresh_notifications (sent_notifications s)) s,
         [], Ret fresh_notifications)
    end.

Definition has_notification_been_sent (guild_id : Z) (ctf_id notification_type : string)
  : M bool :=
  guild_notifications <- get_guild_notifications guild_id ;;
  match sget notification_type guild_notifications with
  | Some c => ret (contains ctf_id c)
  | None => raise KeyError
  end.

(** [guild_notifications[notification_type].add(ctf_id)]: the set lives in
    the store, so the store is what changes. *)
Definition mark_notification_sent (guild_id : Z) (ctf_id notification_type : string)
  : M unit :=
  guild_notifications <- get_guild_notifications guild_id ;;
  match sget notification_type guild_notifications with
  | Some (PySet X) =>
      modify (fun s =>
        with_sent (kset (Py.KInt guild_id)
                     (sset notification_type (PySet ({[ctf_id]} ∪ X)) guild_notifications)
                     (sent_notifications s)) s) ;;;
      log (Mark guild_id ctf_id notification_type)
  | Some (PyList _) => raise AttributeError
  | None => raise KeyError
  end.

Definition default_guild_config : guild_config :=
  {| setup_complete := false; channel_id := None; settings := DEFAULT_CONFIG;
     ctf_channels := []; ctf_credentials := DEFAULT_CTF_CREDENTIALS |}.

Definition get_guild_config (guild_id : Z) : M guild_config :=
  fun s =>
    match zget guild_id (guild_configs s) with
    | Some c => (s, [], Ret c)
    | None =>
        (with_configs (zset guild_id default_guild_config (guild_configs s)) s,
         [], Ret default_guild_config)
    end.

Definition is_guild_setup_complete (guild_id : Z) : M bool :=
  c <- get_guild_config guild_id ;; ret (setup_complete c).

Definition get_guild_channel_id (guild_id : Z) : M (option Z) :=
  done <- is_guild_setup_complete guild_id ;;
  if negb done then ret None
  else c <- get_guild_config guild_id ;; ret (channel_id c).

Definition get_guild_setting (guild_id : Z) (setting : string)
  : M (option setting_value) :=
  config <- get_guild_config guild_id ;;
  ret (match sget setting (settings config) with
       | Some v => Some v
       | None => sget setting DEFAULT_CONFIG
       end).

(** Modelled from the spec: the participation status of a pair, read from
    [guild_ctf_status] (the reader is not in the source). *)
Definition ctf_status (s : CTFDataManager) (guild_id : Z) (ctf_id : string)
  : participation :=
  match zget guild_id (guild_ctf_status s) with
  | Some d => match sget ctf_id d with Some p => p | None => Untouched end
  | None => Untouched
  end.

(** Modelled from the spec: [is_ctf_joined], called by
    [check_notification_triggers] and not defined in the source; spec 4.1
    step 3, "participation status is joined". *)
Definition is_ctf_joined (guild_id : Z) (ctf_id : string) : M bool :=
  gets (fun s =>
          match ctf_status s guild_id ctf_id with Joined => true | _ => false end).

(** Modelled from the spec: [should_send_notification], called by
    [check_notification_triggers] and not defined in the source; spec 4.1
    step 2 applies the window rules to a pair that is neither joined nor
    skipped. *)
Definition should_send_notification (guild_id : Z) (ctf_id : string) : M bool :=
  gets (fun s =>
          match ctf_status s guild_id ctf_id with Untouched => true | _ => false end).

(** ** Notification utilities *)

(** [await channel.send(...)]: the call is logged, then it returns or
    raises. *)
Definition channel_send (bot : Bot) (channel guild_id : Z) (ctf_id kind : string) : M unit :=
  log (Send channel guild_id ctf_id kind) ;;;
  if delivers bot channel ctf_id kind then ret tt else raise DeliveryError.

Definition send_ctf_channel_reminder (bot : Bot) (guild_id : Z) (ctf_id : string)
    (event : event) : M bool :=
  config <- get_guild_config guild_id ;;
  match sget ctf_id (ctf_channels config) with
  | None => ret false
  | Some channel_id =>
      if channel_id =? 0 then ret false
      else if negb (get_channel bot channel_id) then ret false
      else
        match ev_title event with          (* [event['title']] *)
        | None => raise KeyError
        | Some _ =>
            channel_send bot channel_id guild_id ctf_id "channel_1h" ;;;
            ret true
        end
  end.

Definition send_guild_notification (bot : Bot) (guild_id : Z) (ctf_id : string)
    (event : event) (type : string) : M unit :=
  channel_id <- get_guild_channel_id guild_id ;;
  match channel_id with
  | None => ret tt
  | Some channel_id =>
      if channel_id =? 0 then ret tt
      else if negb (get_channel bot channel_id) then ret tt
      else
        match ev_title event with          (* [event['title']] *)
        | None => raise KeyError
        | Some _ =>
            channel_send bot channel_id guild_id ctf_id type ;;;
            mark_notification_sent guild_id ctf_id type
        end
  end.

(** ** The trigger pass *)

(** [(start_dt - now).total_seconds() / 3600], [now] in microseconds. *)
Definition hours_until (start_ts now : Z) : Q :=
  Qmake (start_ts * 1000000 - now) 3600000000.

(** [23 <= hours_until <= 25] *)
Definition in_24h_window (h : Q) : bool := Qle_bool (23 # 1) h && Qle_bool h (25 # 1).

(** [0 < hours_until <= 1.5] *)
Definition in_1h_window (h : Q) : bool := negb (Qle_bool h (0 # 1)) && Qle_bool h (3 # 2).

(** [datetime.fromtimestamp(start_ts, timezone.utc)] raises [ValueError]
    outside the years 1 to 9999. *)
Definition fromtimestamp_ok (start_ts : Z) : bool :=
  (-62135596800 <=? start_ts) && (start_ts <=? 253402300799).

(** The body of [for cid, event in data_manager.ctf_cache.items()]. *)
Definition check_event (bot : Bot) (now gid : Z) (item : string * event) : M unit :=
  let (cid, event) := item in
  let start_ts :=
    match ev_start event with
    | Some time_str => parse_ctf_time_to_timestamp time_str
    | None => None
    end in
  match start_ts with
  | None => ret tt
  | Some start_ts =>
      if start_ts =? 0 then ret tt
      else if negb (fromtimestamp_ok start_ts) then raise ValueError
      else
        let hours_until := hours_until start_ts now in
        should <- should_send_notification gid cid ;;
        if negb should then
          joined <- is_ctf_joined gid cid ;;
          if joined && in_1h_window hours_until then
            sent <- has_notification_been_sent gid cid "channel_1h" ;;
            if negb sent then
              ok <- send_ctf_channel_reminder bot gid cid event ;;
              if ok then mark_notification_sent gid cid "channel_1h" else ret tt
            else ret tt
          else ret tt
        else
          want_24h <- (if in_24h_window hours_until
                       then v <- get_guild_setting gid "notification_24h" ;; ret (truthy v)
                       else ret false) ;;
          if want_24h then
            sent <- has_notification_been_sent gid cid "24h" ;;
            if negb sent then send_guild_notification bot gid cid event "24h" else ret tt
          else
            want_1h <- (if in_1h_window hours_until
                        then v <- get_guild_setting gid "notification_1h" ;; ret (truthy v)
                        else ret false) ;;
            if want_1h then
              sent <- has_notification_been_sent gid cid "1h" ;;
              if negb sent then send_guild_notification bot gid cid event "1h" else ret tt
            else ret tt
  end.

(** The body of [for gid in get_setup_guilds()]. *)
Definition check_guild (bot : Bot) (now gid : Z) : M unit :=
  if negb (get_guild bot gid) then ret tt
  else
    items <- gets ctf_cache ;;
    for_each items (check_event bot now gid).

Definition check_notification_triggers (bot : Bot) (now : Z) : M unit :=
  gids <- get_setup_guilds ;;
  for_each gids (check_guild bot now).

(** ** Slash commands *)

Definition reset_notifications : pydict string container :=
  [ ("24h", PyList []); ("1h", PyList []); ("channel_1h", PyList []);
    ("archived", PyList []) ].

(** [data_manager.sent_notifications[str(gid)] = {...}] *)
Definition slash_reset_notifications (gid : Z) : M unit :=
  modify (fun s =>
    with_sent (kset (Py.KStr (Py.str_of_int gid)) reset_notifications
                 (sent_notifications s)) s).

(** ** Persistence *)

(** A backing file: absent, unreadable as JSON, or holding a document. *)
Inductive file (A : Type) :=
| Missing
| Corrupt
| Doc (a : A).
Arguments Missing {A}.
Arguments Corrupt {A}.
Arguments Doc {A} a.

Record Disk := {
  guild_configs_json : file (pydict string guild_config);
  sent_notifications_json : file (pydict string (pydict string (list string)));
  guild_ctf_status_json : file (pydict string (pydict string participation));
  ctf_cache_json : file (pydict string event)
}.

Definition with_status (f : pydict Z (pydict string participation)) (s : CTFDataManager) :=
  {| ctf_cache := ctf_cache s; guild_configs := guild_configs s;
     sent_notifications := sent_notifications s; guild_ctf_status := f |}.

(** [{int(gid): v for gid, v in loaded.items()}] up to the final dict:
    the items with converted keys, or [None] when an [int(gid)] raises. *)
Fixpoint int_keys {V} (items : list (string * V)) : option (list (Z * V)) :=
  match items with
  | [] => Some []
  | (k, v) :: r =>
      match Py.int_of_str k with
      | Some z => match int_keys r with Some r' => Some ((z, v) :: r') | None => None end
      | None => None
      end
  end.

(** [list(v)] *)
Definition to_list (c : container) : list string :=
  match c with
  | PySet s => elements s
  | PyList l => l
  end.

Definition save_guild_configs (dm : CTFDataManager) (d : Disk) : Disk :=
  {| guild_configs_json :=
       Doc (Py.of_items String.eqb
              (map (fun p => (Py.str_of_int (fst p), snd p)) (guild_configs dm)));
     sent_notifications_json := sent_notifications_json d;
     guild_ctf_status_json := guild_ctf_status_json d;
     ctf_cache_json := ctf_cache_json d |}.

Definition load_guild_configs (d : Disk) (dm : CTFDataManager) : outcome CTFDataManager :=
  match guild_configs_json d with
  | Missing => Ret dm
  | Corrupt => Raise ValueError
  | Doc loaded =>
      match int_keys loaded with
      | Some items => Ret (with_configs (Py.of_items Z.eqb items) dm)
      | None => Raise ValueError
      end
  end.

Definition save_sent_notifications (dm : CTFDataManager) (d : Disk) : Disk :=
  {| guild_configs_json := guild_configs_json d;
     sent_notifications_json :=
       Doc (Py.of_items String.eqb
              (map (fun p =>
                      (Py.str (fst p),
                       Py.of_items String.eqb
                         (map (fun q => (fst q, to_list (snd q))) (snd p))))
                 (sent_notifications dm)));
     guild_ctf_status_json := guild_ctf_status_json d;
     ctf_cache_json := ctf_cache_json d |}.

Definition load_sent_notifications (d : Disk) (dm : CTFDataManager) : outcome CTFDataManager :=
  match sent_notifications_json d with
  | Missing => Ret dm
  | Corrupt => Raise ValueError
  | Doc loaded =>
      match int_keys loaded with
      | Some items =>
          Ret (with_sent
                 (Py.of_items Py.key_eqb
                    (map (fun p =>
                            (Py.KInt (fst p),
                             Py.of_items String.eqb
                               (map (fun q => (fst q, PySet (list_to_set (snd q))))
                                  (snd p))))
                       items))
                 dm)
      | None => Raise ValueError
      end
  end.

Definition save_guild_ctf_status (dm : CTFDataManager) (d : Disk) : Disk :=
  {| guild_configs_json := guild_configs_json d;
     sent_notifications_json := sent_notifications_json d;
     guild_ctf_status_json :=
       Doc (Py.of_items String.eqb
              (map (fun p => (Py.str_of_int (fst p), snd p)) (guild_ctf_status dm)));
     ctf_cache_json := ctf_cache_json d |}.

Definition load_guild_ctf_status (d : Disk) (dm : CTFDataManager) : outcome CTFDataManager :=
  match guild_ctf_status_json d with
  | Missing => Ret dm
  | Corrupt => Raise ValueError
  | Doc loaded =>
      match int_keys loaded with
      | Some items => Ret (with_status (Py.of_items Z.eqb items) dm)
      | None => Raise ValueError
      end
  end.

Definition save_ctf_cache (dm : CTFDataManager) (d : Disk) : Disk :=
  {| guild_configs_json := guild_configs_json d;
     sent_notifications_json := sent_notifications_json d;
     guild_ctf_status_json := guild_ctf_status_json d;
     ctf_cache_json := Doc (ctf_cache dm) |}.

(** The [try]/[except Exception] of [load_ctf_cache] keeps the cache when
    the file cannot be read. *)
Definition load_ctf_cache (d : Disk) (dm : CTFDataManager) : outcome CTFDataManager :=
  match ctf_cache_json d with
  | Missing => Ret dm
  | Corrupt => Ret dm
  | Doc loaded => Ret (with_cache loaded dm)
  end.

Definition save_all (dm : CTFDataManager) (d : Disk) : Disk :=
  save_ctf_cache dm (save_guild_ctf_status dm (save_sent_notifications dm
    (save_guild_configs dm d))).

Definition and_then {A B} (r : outcome A) (f : A -> outcome B) : outcome B :=
  match r with
  | Ret a => f a
  | Raise e => Raise e
  end.

Definition load_all (d : Disk) (dm : CTFDataManager) : outcome CTFDataManager :=
  and_then (load_guild_configs d dm) (fun dm1 =>
  and_then (load_sent_notifications d dm1) (fun dm2 =>
  and_then (load_guild_ctf_status d dm2) (fun dm3 =>
  load_ctf_cache d dm3))).

(** ** Cache refresh *)

(** What [requests.get] and [response.json()] can give: the request
    raises, or a reply with a status code and a body.  A body is [None]
    when [response.json()] raises or gives a value that cannot be iterated,
    and an element is [None] when it is not an object (so that [e.get]
    raises). *)
Inductive response :=
| RequestFailed
| Reply (status_code : Z) (json : option (list (option event))).

(** [{get_ctf_id(e): e for e in events}] up to the final dict; [None]
    when the comprehension raises. *)
Fixpoint keyed_events (events : list (option event)) : option (list (string * event)) :=
  match events with
  | [] => Some []
  | Some e :: r =>
      match keyed_events r with
      | Some r' => Some ((get_ctf_id e, e) :: r')
      | None => None
      end
  | None :: _ => None
  end.

Definition fetch_and_cache_ctfs (r : response) (dm : CTFDataManager) (d : Disk)
  : CTFDataManager * Disk * bool :=
  match r with
  | RequestFailed => (dm, d, false)
  | Reply status_code body =>
      if status_code =? 200 then
        match body with
        | Some events =>
            match keyed_events events with
            | Some items =>
                let new_cache := Py.of_items String.eqb items in
                let dm' := with_cache new_cache dm in
                (dm', save_ctf_cache dm' d, true)
            | None => (dm, d, false)
            end
        | None => (dm, d, false)
        end
      else (dm, d, false)
  end.

(** ** A small scenario for the evaluations

    One guild (id 5) that completed setup with channel 100, one cached
    event starting on 2024-01-02 at 00:00 UTC, and a client that resolves
    every guild and channel and delivers every message. *)

Definition hack_event : event :=
  {| ev_title := Some "HackCTF"; ev_id := Some 1;
     ev_start := Some "2024-01-02T00:00:00+00:00";
     ev_finish := Some "2024-01-03T00:00:00+00:00";
     ev_description := Some "Jeopardy, online.";
     ev_url := Some "https://ctftime.org/event/1" |}.

Definition guild5 : guild_config :=
  {| setup_complete := true; channel_id := Some 100; settings := DEFAULT_CONFIG;
     ctf_channels := []; ctf_credentials := DEFAULT_CTF_CREDENTIALS |}.

Definition scenario : CTFDataManager :=
  {| ctf_cache := [("HackCTF_1", hack_event)]; guild_configs := [(5, guild5)];
     sent_notifications := []; guild_ctf_status := [] |}.

Definition online : Bot :=
  {| get_guild := fun _ => true; get_channel := fun _ => true;
     delivers := fun _ _ _ => true |}.

Definition other_event : event :=
  {| ev_title := Some "Other"; ev_id := Some 2;
     ev_start := Some "2024-01-05T00:00:00+00:00"; ev_finish := None;
     ev_description := None; ev_url := None |}.

(** 2024-01-01 00:00:00 UTC, in microseconds. *)
Definition new_year : Z := 1704067200 * 1000000.

Definition hour_us : Z := 3600 * 1000000.

Definition no_files : Disk :=
  {| guild_configs_json := Missing; sent_notifications_json := Missing;
     guild_ctf_status_json := Missing; ctf_cache_json := Missing |}.

(** ** Reading the stores, and the decision of the pass for one pair

    Pure readings of what the stateful functions compute; the lemmas of
    the second half relate them to the code above. *)

(** The state after [get_guild_notifications guild_id]. *)
Definition touch (guild_id : Z) (s : CTFDataManager) : CTFDataManager :=
  state_of (get_guild_notifications guild_id s).

(** The state after [mark_notification_sent guild_id ctf_id kind]. *)
Definition marked (guild_id : Z) (ctf_id kind : string) (s : CTFDataManager)
  : CTFDataManager :=
  state_of (mark_notification_sent guild_id ctf_id kind s).

(** What [get_guild_notifications(guild_id)[kind]] evaluates to; [None] is
    [KeyError]. *)
Definition lookup_kind (s : CTFDataManager) (guild_id : Z) (kind : string)
  : option container :=
  match kget (Py.KInt guild_id) (sent_notifications s) with
  | Some e => sget kind e
  | None => sget kind fresh_notifications
  end.

(** The tuple is recorded as sent. *)
Definition recorded (s : CTFDataManager) (guild_id : Z) (ctf_id kind : string) : bool :=
  match lookup_kind s guild_id kind with
  | Some c => contains ctf_id c
  | None => false
  end.

(** [get_guild_setting] on a configuration. *)
Definition setting_of (cfg : guild_config) (name : string) : option setting_value :=
  match sget name (settings cfg) with
  | Some v => Some v
  | None => sget name DEFAULT_CONFIG
  end.

(** The start of an event as the pass uses it: parsed and not falsy. *)
Definition start_of (event : event) : option Z :=
  match ev_start event with
  | Some time_str =>
      match parse_ctf_time_to_timestamp time_str with
      | Some ts => if ts =? 0 then None else Some ts
      | None => None
      end
  | None => None
  end.

(** The kind that [check_event] considers for a pair, if any. *)
Definition due (now : Z) (status : participation) (cfg : guild_config) (event : event)
  : option string :=
  match start_of event with
  | None => None
  | Some ts =>
      let h := hours_until ts now in
      match status with
      | Untouched =>
          if in_24h_window h && truthy (setting_of cfg "notification_24h") then Some "24h"
          else if in_1h_window h && truthy (setting_of cfg "notification_1h") then Some "1h"
          else None
      | Joined => if in_1h_window h then Some "channel_1h" else None
      | Skipped => None
      end
  end.

(** A channel id that is truthy and that the client resolves. *)
Definition usable (bot : Bot) (channel : option Z) : option Z :=
  match channel with
  | Some c => if (c =? 0) || negb (get_channel bot c) then None else Some c
  | None => None
  end.

(** The channel a notification of a kind goes to: the channel bound to the
    event for the reminder, the primary channel of the guild otherwise. *)
Definition target (bot : Bot) (cfg : guild_config) (ctf_id kind : string) : option Z :=
  if String.eqb kind "channel_1h" then usable bot (sget ctf_id (ctf_channels cfg))
  else usable bot (if setup_complete cfg then channel_id cfg else None).

(** What [check_event] does for a guild with configuration [cfg], as one
    case distinction. *)
Definition check_event_cases (bot : Bot) (now gid : Z) (cid : string) (event : event)
    (cfg : guild_config) (s : CTFDataManager)
  : CTFDataManager * list action * outcome unit :=
  match start_of event with
  | None => (s, [], Ret tt)
  | Some ts =>
      if negb (fromtimestamp_ok ts) then (s, [], Raise ValueError)
      else
        match due now (ctf_status s gid cid) cfg event with
        | None => (s, [], Ret tt)
        | Some kind =>
            match lookup_kind s gid kind with
            | None => (touch gid s, [], Raise KeyError)
            | Some c =>
                if contains cid c then (touch gid s, [], Ret tt)
                else
                  match target bot cfg cid kind with
                  | None => (touch gid s, [], Ret tt)
                  | Some ch =>
                      match ev_title event with
                      | None => (touch gid s, [], Raise KeyError)
                      | Some _ =>
                          if delivers bot ch cid kind then
                            match c with
                            | PySet _ =>
                                (marked gid cid kind s,
                                 [Send ch gid cid kind; Mark gid cid kind], Ret tt)
                            | PyList _ =>
                                (touch gid s, [Send ch gid cid kind],
                                 Raise AttributeError)
                            end
                          else
                            (touch gid s, [Send ch gid cid kind], Raise DeliveryError)
                      end
                  end
            end
        end
  end.

(** The stores that a pass only reads. *)
Definition stable (s0 s : CTFDataManager) : Prop :=
  ctf_cache s = ctf_cache s0 /\ guild_configs s = guild_configs s0 /\
  guild_ctf_status s = guild_ctf_status s0.

(** A log in which every [Mark] comes directly after the [Send] of the same
    tuple. *)
Inductive send_then_mark : list action -> Prop :=
| stm_nil : send_then_mark []
| stm_send ch g c k t :
    send_then_mark t -> send_then_mark (Send ch g c k :: t)
| stm_pair ch g c k t :
    send_then_mark t -> send_then_mark (Send ch g c k :: Mark g c k :: t).

(** The possible results of [check_event] on a pair, with what each one
    tells about the state it started from. *)
Inductive body_shape (bot : Bot) (now gid : Z) (cid : string) (event : event)
    (cfg : guild_config) (s : CTFDataManager)
  : CTFDataManager * list action * outcome unit -> Prop :=
| shape_out_of_range :
    body_shape bot now gid cid event cfg s (s, [], Raise ValueError)
| shape_idle :
    due now (ctf_status s gid cid) cfg event = None ->
    body_shape bot now gid cid event cfg s (s, [], Ret tt)
| shape_recorded k c :
    due now (ctf_status s gid cid) cfg event = Some k ->
    lookup_kind s gid k = Some c -> contains cid c = true ->
    body_shape bot now gid cid event cfg s (touch gid s, [], Ret tt)
| shape_no_target k c :
    due now (ctf_status s gid cid) cfg event = Some k ->
    lookup_kind s gid k = Some c -> contains cid c = false ->
    target bot cfg cid k = None ->
    body_shape bot now gid cid event cfg s (touch gid s, [], Ret tt)
| shape_crashed k :
    due now (ctf_status s gid cid) cfg event = Some k ->
    recorded s gid cid k = false ->
    body_shape bot now gid cid event cfg s (touch gid s, [], Raise KeyError)
| shape_failed k ch e :
    due now (ctf_status s gid cid) cfg event = Some k ->
    recorded s gid cid k = false ->
    target bot cfg cid k = Some ch ->
    e = DeliveryError \/ e = AttributeError ->
    body_shape bot now gid cid event cfg s
      (touch gid s, [Send ch gid cid k], Raise e)
| shape_fired k ch X :
    due now (ctf_status s gid cid) cfg event = Some k ->
    lookup_kind s gid k = Some (PySet X) -> contains cid (PySet X) = false ->
    target bot cfg cid k = Some ch ->
    body_shape bot now gid cid event cfg s
      (marked gid cid k s, [Send ch gid cid k; Mark gid cid k], Ret tt).

(** A [Send] of the log is justified in the state [s0] a pass started
    from: the tuple was not recorded, and the kind is the one due for a
    cached event of that id, sent to the channel meant for it. *)
Definition justified (bot : Bot) (now : Z) (s0 : CTFDataManager)
    (ch g : Z) (c k : string) : Prop :=
  recorded s0 g c k = false /\
  get_guild bot g = true /\
  exists cfg event,
    zget g (guild_configs s0) = Some cfg /\
    In (c, event) (ctf_cache s0) /\
    due now (ctf_status s0 g c) cfg event = Some k /\
    target bot cfg c k = Some ch.

(** No [Send] of a tuple comes after a [Mark] of that tuple. *)
Definition no_send_after_mark (t : list action) : Prop :=
  forall pre ch g c k post,
    t = (pre ++ Send ch g c k :: post)%list -> ~ In (Mark g c k) pre.

(** What holds of the state and the log at every point of a pass that
    started in [s0]. *)
Definition pass_inv (bot : Bot) (now : Z) (s0 s : CTFDataManager) (t : list action)
  : Prop :=
  stable s0 s /\
  (forall g c k, recorded s0 g c k = true -> recorded s g c k = true) /\
  (forall g c k, recorded s g c k = true ->
                 recorded s0 g c k = true \/ exists ch, In (Send ch g c k) t) /\
  (forall ch g c k, In (Send ch g c k) t -> justified bot now s0 ch g c k) /\
  send_then_mark t /\
  (forall g c k, In (Mark g c k) t -> recorded s g c k = true) /\
  no_send_after_mark t.




(** From [s] to [s'] the read-only stores are the same, no entry of the
    sent-notification store is lost and no container loses an element. *)
Definition grows (s s' : CTFDataManager) : Prop :=
  stable s s' /\
  (forall g, kget (Py.KInt g) (sent_notifications s) <> None ->
             kget (Py.KInt g) (sent_notifications s') <> None) /\
  (forall g k c, lookup_kind s g k = Some c ->
                 exists c', lookup_kind s' g k = Some c' /\
                            forall x, contains x c = true -> contains x c' = true).

(** A client that does not know any guild. *)
Definition no_guild : Bot :=
  {| get_guild := fun _ => false; get_channel := fun _ => true;
     delivers := fun _ _ _ => true |}.

(** A client that resolves the primary channel 100 only. *)
Definition lost_channel : Bot :=
  {| get_guild := fun _ => true; get_channel := fun c => c =? 100;
     delivers := fun _ _ _ => true |}.

(** The scenario after guild 5 has joined the event and channel 200 has
    been registered for it. *)
Definition guild5_bound : guild_config :=
  {| setup_complete := true; channel_id := Some 100; settings := DEFAULT_CONFIG;
     ctf_channels := [("HackCTF_1", 200)];
     ctf_credentials := DEFAULT_CTF_CREDENTIALS |}.

Definition scenario_joined : CTFDataManager :=
  {| ctf_cache := [("HackCTF_1", hack_event)]; guild_configs := [(5, guild5_bound)];
     sent_notifications := [];
     guild_ctf_status := [(5, [("HackCTF_1", Joined)])] |}.

(** A sent-notification store as [get_guild_notifications] and
    [mark_notification_sent] build it: [int] keys without repetition, and
    for each of them kinds without repetition that map to sets. *)
Definition int_keyed_sets (d : pydict Py.key (pydict string container)) : Prop :=
  exists l : list (Z * pydict string container),
    d = map (fun p => (Py.KInt (fst p), snd p)) l /\
    List.NoDup (map fst l) /\
    Forall (fun p => List.NoDup (map fst (snd p)) /\
                     Forall (fun q => exists X, snd q = PySet X) (snd p)) l.

(** ** Setters of the guild configuration *)

(** [config = get_guild_config(guild_id); config[...] = ...]: the
    dictionary lives in the store, so the store is what changes. *)
Definition update_guild_config (guild_id : Z) (f : guild_config -> guild_config)
  : M unit :=
  config <- get_guild_config guild_id ;;
  modify (fun s => with_configs (zset guild_id (f config) (guild_configs s)) s).

Definition set_guild_channel_id (guild_id channel : Z) : M unit :=
  update_guild_config guild_id (fun c =>
    {| setup_complete := true; channel_id := Some channel; settings := settings c;
       ctf_channels := ctf_channels c; ctf_credentials := ctf_credentials c |}).

Definition set_guild_setting (guild_id : Z) (setting : string) (value : setting_value)
  : M unit :=
  update_guild_config guild_id (fun c =>
    {| setup_complete := setup_complete c; channel_id := channel_id c;
       settings := sset setting value (settings c);
       ctf_channels := ctf_channels c; ctf_credentials := ctf_credentials c |}).

Definition get_guild_credentials (guild_id : Z) : M credentials :=
  config <- get_guild_config guild_id ;; ret (ctf_credentials config).

Definition set_guild_credentials (guild_id : Z) (creds : credentials) : M unit :=
  update_guild_config guild_id (fun c =>
    {| setup_complete := setup_complete c; channel_id := channel_id c;
       settings := settings c; ctf_channels := ctf_channels c;
       ctf_credentials := creds |}).

Definition register_ctf_channel (guild_id : Z) (ctf_id : string) (channel : Z) : M unit :=
  update_guild_config guild_id (fun c =>
    {| setup_complete := setup_complete c; channel_id := channel_id c;
       settings := settings c; ctf_channels := sset ctf_id channel (ctf_channels c);
       ctf_credentials := ctf_credentials c |}).

Definition get_ctf_channel (guild_id : Z) (ctf_id : string) : M (option Z) :=
  config <- get_guild_config guild_id ;; ret (sget ctf_id (ctf_channels config)).

(** [slash_bot_settings]: each switch is set when it is given. *)
Definition slash_bot_settings (gid : Z) (n24h n1h : option bool) : M unit :=
  (match n24h with
   | Some b => set_guild_setting gid "notification_24h" (SBool b)
   | None => ret tt
   end) ;;;
  match n1h with
  | Some b => set_guild_setting gid "notification_1h" (SBool b)
  | None => ret tt
  end.

(** [slash_team_details] *)
Definition slash_team_details (gid : Z) (user email : string) : M unit :=
  set_guild_credentials gid
    {| cred_user := user; cred_pass := "random"; cred_email := email |}.

(** What [get_guild_config guild_id] returns in [s]. *)
Definition config_of (s : CTFDataManager) (guild_id : Z) : guild_config :=
  match zget guild_id (guild_configs s) with
  | Some c => c
  | None => default_guild_config
  end.

(** The value of [get_setup_guilds] in [s]. *)
Definition setup_guilds (s : CTFDataManager) : list Z :=
  map fst (List.filter (fun p => setup_complete (snd p)) (guild_configs s)).

(** ** Views for the properties of a pass *)

(** The tuples (guild, event, kind) of the [Send]s of a log, in order. *)
Fixpoint sends (t : list action) : list (Z * string * string) :=
  match t with
  | [] => []
  | Send _ g c k :: r => (g, c, k) :: sends r
  | Mark _ _ _ :: r => sends r
  end.

(** The log of a pass that started in [s0] sends no tuple twice, and only
    to guilds that [get_setup_guilds] lists in [s0]. *)
Definition tracked_log (s0 : CTFDataManager) (t : list action) : Prop :=
  List.NoDup (sends t) /\
  forall g c k, In (g, c, k) (sends t) -> In g (setup_guilds s0).

(** What holds at every point that a pass started in [s0] reaches without
    an exception: moreover every tuple sent so far is recorded. *)
Definition tracked (s0 s : CTFDataManager) (t : list action) : Prop :=
  guild_configs s = guild_configs s0 /\ ctf_cache s = ctf_cache s0 /\
  tracked_log s0 t /\
  forall g c k, In (g, c, k) (sends t) -> recorded s g c k = true.

(** An event of the feed that lacks its title. *)
Definition untitled_event : event :=
  {| ev_title := None; ev_id := Some 1; ev_start := Some "2024-01-02T00:00:00";
     ev_finish := None; ev_description := None; ev_url := None |}.

(** ** Views for the properties of the persistence *)


(** An entry of the sent-notification store whose kinds are not repeated
    and map to sets. *)
Definition set_entry (e : pydict string container) : Prop :=
  List.NoDup (map fst e) /\ Forall (fun q => exists X, snd q = PySet X) e.

(** [int_keyed_sets], read entry by entry. *)
Definition keyed (d : pydict Py.key (pydict string container)) : Prop :=
  List.NoDup (map fst d) /\
  Forall (fun p => (exists z, fst p = Py.KInt z) /\ set_entry (snd p)) d.

(** The stores that [load_all] restores from what [save_all] wrote: guild
    keys without repetition, and a sent-notification store as the bot
    builds it. *)
Definition loadable (s : CTFDataManager) : Prop :=
  List.NoDup (map fst (guild_configs s)) /\
  int_keyed_sets (sent_notifications s) /\
  List.NoDup (map fst (guild_ctf_status s)).

(** ** Views for the properties of the cache refresh *)

(** The last event of a response that has the key [k]. *)
Definition last_with_key (k : string) (events : list event) : option event :=
  List.find (fun e => String.eqb (get_ctf_id e) k) (rev events).

(** A response with status 200 whose body is a list of objects. *)
Definition ok_response (events : list event) : response :=
  Reply 200 (Some (map Some events)).

(** The character [c] occurs in [s]. *)
Fixpoint occurs (c : ascii) (s : string) : bool :=
  match s with
  | EmptyString => false
  | String x r => Ascii.eqb x c || occurs c r
  end.

(** [event.get('title', 'ctf')] *)
Definition title_or_default (e : event) : string :=
  match ev_title e with Some t => t | None => "ctf" end.

(** ** Channel names

    [sanitize_channel_name] on strings of code points below 256.  The
    classes are those of CPython on these code points: [\s] of [re] and
    [str.strip] use the same white space (9 to 13, 28 to 32, 133 and 160). *)

Definition isspace (c : ascii) : bool :=
  let n := N_of_ascii c in
  (((9 <=? n) && (n <=? 13)) || ((28 <=? n) && (n <=? 32)) || (n =? 133) || (n =? 160))%N.

(** [[a-zA-Z]] *)
Definition ascii_letter (c : ascii) : bool :=
  let n := N_of_ascii c in
  (((65 <=? n) && (n <=? 90)) || ((97 <=? n) && (n <=? 122)))%N.

(** [[0-9]] *)
Definition ascii_digit (c : ascii) : bool :=
  let n := N_of_ascii c in ((48 <=? n) && (n <=? 57))%N.

(** The characters that [[^a-zA-Z0-9\s\-_]] does not match. *)
Definition kept (c : ascii) : bool :=
  ascii_letter c || ascii_digit c || isspace c || Ascii.eqb c "-" || Ascii.eqb c "_".

(** [str.lower] on one code point below 256. *)
Definition py_lower (c : ascii) : ascii :=
  let n := N_of_ascii c in
  if (((65 <=? n) && (n <=? 90)) || ((192 <=? n) && (n <=? 214))
      || ((216 <=? n) && (n <=? 222)))%N
  then ascii_of_N (n + 32) else c.

(** [str.isalnum] on one code point below 256. *)
Definition isalnum (c : ascii) : bool :=
  let n := N_of_ascii c in
  ascii_letter c || ascii_digit c ||
  ((n =? 170) || (n =? 178) || (n =? 179) || (n =? 181) || (n =? 185) || (n =? 186)
   || ((188 <=? n) && (n <=? 190)) || ((192 <=? n) && (n <=? 214))
   || ((216 <=? n) && (n <=? 246)) || (248 <=? n))%N.

(** [s.lstrip()] *)
Fixpoint lstrip (s : list ascii) : list ascii :=
  match s with
  | c :: r => if isspace c then lstrip r else s
  | [] => []
  end.

(** [s.strip()] *)
Definition strip (s : list ascii) : list ascii := rev (lstrip (rev (lstrip s))).

(** [re.sub(r'\s+', '-', s)]: every maximal run of white space becomes one
    hyphen; [in_run] tells that the previous character was white space. *)
Fixpoint sub_spaces (in_run : bool) (s : list ascii) : list ascii :=
  match s with
  | [] => []
  | c :: r =>
      if isspace c then (if in_run then sub_spaces true r else "-"%char :: sub_spaces true r)
      else c :: sub_spaces false r
  end.

Definition sanitize_chars (name : list ascii) : list ascii :=
  let name := List.filter kept name in
  let name := map py_lower (sub_spaces false (strip name)) in
  let name :=
    match name with
    | c :: _ => if negb (isalnum c) then (list_ascii_of_string "ctf-" ++ name)%list else name
    | [] => name
    end in
  match name with
  | [] => list_ascii_of_string "ctf-channel"
  | _ => firstn 100 name
  end.

Definition sanitize_channel_name (name : string) : string :=
  string_of_list_ascii (sanitize_chars (list_ascii_of_string name)).

(** The characters of a sanitized name: [[a-z0-9_-]]. *)
Definition name_char (c : ascii) : bool :=
  let n := N_of_ascii c in
  ((97 <=? n) && (n <=? 122))%N || ascii_digit c || Ascii.eqb c "-" || Ascii.eqb c "_".

(** ** Passwords

    The random numbers come from a tape: each call of [_randbelow] takes
    the next number of the tape and reduces it below its bound (a tape that
    has run out gives 0).  Every sequence of results of the source's calls
    is the one of some tape, and conversely. *)

Definition randbelow (n : nat) (tape : list nat) : nat * list nat :=
  match tape with
  | [] => (0%nat, [])
  | x :: r => (Nat.modulo x n, r)
  end.

(** [secrets.choice(seq)] is [seq[_randbelow(len(seq))]]; the sequences of
    the source are not empty. *)
Definition choice (seq : list ascii) (tape : list nat) : ascii * list nat :=
  let (i, tape) := randbelow (length seq) tape in (nth i seq "000"%char, tape).

(** [for _ in range(n): password.append(secrets.choice(seq))], giving the
    characters appended. *)
Fixpoint choices (n : nat) (seq : list ascii) (tape : list nat)
  : list ascii * list nat :=
  match n with
  | O => ([], tape)
  | S k =>
      let (c, tape) := choice seq tape in
      let (r, tape) := choices k seq tape in
      (c :: r, tape)
  end.

(** [x[i], x[j] = x[j], x[i]] *)
Definition swap (i j : nat) (x : list ascii) : list ascii :=
  match x !! i, x !! j with
  | Some a, Some b => <[j := a]> (<[i := b]> x)
  | _, _ => x
  end.

(** [for i in reversed(range(1, i + 1)): j = randbelow(i + 1); swap] *)
Fixpoint shuffle_from (i : nat) (x : list ascii) (tape : list nat)
  : list ascii * list nat :=
  match i with
  | O => (x, tape)
  | S k =>
      let (j, tape) := randbelow (i + 1) tape in
      shuffle_from k (swap i j x) tape
  end.

(** [random.Random.shuffle] of CPython 3.11. *)
Definition shuffle (x : list ascii) (tape : list nat) : list ascii * list nat :=
  shuffle_from (length x - 1) x tape.

Definition lowercase : list ascii := list_ascii_of_string "abcdefghijklmnopqrstuvwxyz".
Definition uppercase : list ascii := list_ascii_of_string "ABCDEFGHIJKLMNOPQRSTUVWXYZ".
Definition digits : list ascii := list_ascii_of_string "0123456789".
Definition all_symbols : list ascii :=
  list_ascii_of_string "!@#$%^&*()-_=+[]{}|;:,.<>?".

Definition generate_random_password (length : Z) (include_symbols : bool)
    (tape : list nat) : string * list nat :=
  let symbols := if include_symbols then all_symbols else [] in
  let (c1, tape) := choice lowercase tape in
  let (c2, tape) := choice uppercase tape in
  let (c3, tape) := choice digits tape in
  let password := [c1; c2; c3] in
  let (password, tape) :=
    if include_symbols
    then let (c4, tape) := choice symbols tape in ((password ++ [c4])%list, tape)
    else (password, tape) in
  let all_chars := (lowercase ++ uppercase ++ digits ++ symbols)%list in
  let (rest, tape) :=
    choices (Z.to_nat (length - Z.of_nat (List.length password))) all_chars tape in
  let (password, tape) := shuffle (password ++ rest)%list tape in
  (string_of_list_ascii password, tape).

(** The password that [/generate_password] shows. *)
Definition slash_generate_password (length : Z) (tape : list nat) : string * list nat :=
  generate_random_password (Z.max 8 (Z.min length 50)) true tape.

(** ** Permissions *)

(** What [user_has_ctf_permissions] reads of a [discord.Member]:
    [user.guild_permissions.administrator] and the ids of [user.roles]. *)
Record Member := {
  administrator : bool;
  roles : list Z
}.

(** [user_has_ctf_permissions]; [None] is the [TypeError] of
    [role.id in admin_roles] when the setting holds a truthy value that is
    not a list ([any] of no role at all does not evaluate it). *)
Definition user_has_ctf_permissions (user : Member) (guild_id : Z) : M (option bool) :=
  if administrator user then ret (Some true)
  else
    admin_roles <- get_guild_setting guild_id "admin_roles" ;;
    if negb (truthy admin_roles) then ret (Some false)
    else
      match admin_roles with
      | Some (SRoles l) =>
          ret (Some (existsb (fun role => existsb (Z.eqb role) l) (roles user)))
      | _ => ret (match roles user with [] => Some false | _ :: _ => None end)
      end.

(** ** [/bot_setup] *)


(** ** Invite links

    [re.search(pattern, description, re.IGNORECASE)] for the four patterns
    of [extract_discord_link_from_description]: a literal text, matched
    without regard to the case of ASCII letters, followed by [[A-Za-z0-9]+].
    On code points below 256 no other character matches these letters. *)

(** The literal [prefix] at the start of [s]: the text matched and the
    rest. *)
Fixpoint starts_with_ci (prefix s : list ascii) : option (list ascii * list ascii) :=
  match prefix, s with
  | [], _ => Some ([], s)
  | p :: ps, c :: r =>
      if Ascii.eqb (lower c) (lower p)
      then match starts_with_ci ps r with
           | Some (m, rest) => Some (c :: m, rest)
           | None => None
           end
      else None
  | _ :: _, [] => None
  end.

(** The longest run of [[A-Za-z0-9]] at the start of [s]. *)
Fixpoint take_alnum (s : list ascii) : list ascii :=
  match s with
  | c :: r => if ascii_letter c || ascii_digit c then c :: take_alnum r else []
  | [] => []
  end.

(** A match of the pattern at the start of [s]. *)
Definition match_here (prefix s : list ascii) : option (list ascii) :=
  match starts_with_ci prefix s with
  | Some (m, rest) =>
      match take_alnum rest with
      | [] => None
      | run => Some (m ++ run)%list
      end
  | None => None
  end.

(** [re.search]: the leftmost match. *)
Fixpoint search (prefix s : list ascii) : option (list ascii) :=
  match s with
  | [] => match_here prefix []
  | _ :: r =>
      match match_here prefix s with
      | Some m => Some m
      | None => search prefix r
      end
  end.

Definition discord_patterns : list string :=
  [ "https://discord.gg/"; "https://discord.com/invite/";
    "discord.gg/"; "discord.com/invite/" ].

(** The [for pattern in discord_patterns] loop. *)
Fixpoint first_link (patterns : list string) (description : string) : option string :=
  match patterns with
  | [] => None
  | pattern :: rest =>
      match search (list_ascii_of_string pattern) (list_ascii_of_string description) with
      | Some m =>
          let url := string_of_list_ascii m in
          Some (if String.prefix "https://" url then url else "https://" ++ url)
      | None => first_link rest description
      end
  end.

Definition extract_discord_link_from_description (event : event) : option string :=
  match ev_description event with
  | None => None
  | Some description =>
      if String.eqb description EmptyString then None
      else first_link discord_patterns description
  end.

(** * Properties *)

Open Scope list_scope.

(** ** The start-time parser *)

Lemma run_app (a b : list item) (st : fields * list ascii) :
  run (a ++ b)%list st =
  match run a st with Some st' => run b st' | None => None end.
Proof.
  revert st. induction a as [|it a IH]; intros st; simpl; [reflexivity|].
  destruct (step it st); auto.
Qed.

(** Only [%z] sets the offset. *)
Lemma step_keeps_fz (it : item) (f f' : fields) (s s' : list ascii) :
  it <> Dz -> step it (f, s) = Some (f', s') -> fz f' = fz f.
Proof.
  intros Hz H. destruct it; simpl in H; try congruence;
    repeat match type of H with
    | match ?x with _ => _ end = _ => destruct x eqn:?; try discriminate
    end; inversion H; subst; reflexivity.
Qed.

Lemma run_keeps_fz (fmt : list item) :
  Forall (fun it => it <> Dz) fmt ->
  forall f s f' s', run fmt (f, s) = Some (f', s') -> fz f' = fz f.
Proof.
  induction 1 as [|it fmt Hit _ IH]; intros f s f' s' H; cbn [run] in H.
  - inversion H; reflexivity.
  - destruct (step it (f, s)) as [[f1 s1]|] eqn:E; [|discriminate].
    rewrite (IH _ _ _ _ H). eapply step_keeps_fz; eauto.
Qed.

Lemma build_tzinfo (f : fields) (dt : datetime) :
  build f = Some dt -> tzinfo dt = fz f.
Proof.
  unfold build. destruct (_ && _); [|discriminate].
  intros H; inversion H; reflexivity.
Qed.

Lemma fmt_plain_no_zone : Forall (fun it => it <> Dz) fmt_plain.
Proof. unfold fmt_plain. repeat constructor; discriminate. Qed.


Lemma strptime_naive (fmt : list item) (s : string) (dt : datetime) :
  Forall (fun it => it <> Dz) fmt ->
  strptime s fmt = Some dt -> tzinfo dt = None.
Proof.
  intros Hf. unfold strptime.
  destruct (run fmt _) as [[f [|c r]]|] eqn:E; try discriminate.
  intros Hb. rewrite (build_tzinfo _ _ Hb).
  apply (run_keeps_fz _ Hf _ _ _ _ E).
Qed.

(** What a successful parse with the plain format tells about the other
    three formats. *)
Lemma strptime_plain_others (s : string) (dt : datetime) :
  strptime s fmt_plain = Some dt ->
  strptime s (fmt_plain ++ [Dz])%list = None /\
  strptime s (fmt_plain ++ [Lit "."%char; Df; Dz])%list = None.
Proof.
  unfold strptime. intros H.
  destruct (run fmt_plain _) as [[f [|c r]]|] eqn:E; try discriminate.
  rewrite !run_app, E. split; reflexivity.
Qed.




Lemma strptime_empty (fmt : list item) :
  fmt = fmt_plain \/ fmt = (fmt_plain ++ [Lit "."%char; Df])%list ->
  strptime EmptyString fmt = None.
Proof. intros [-> | ->]; reflexivity. Qed.


Lemma int_timestamp_replace_utc (dt : datetime) :
  int_timestamp (replace_utc dt) = utc_seconds dt.
Proof.
  unfold int_timestamp, utc_seconds, replace_utc, wall_us; simpl.
  rewrite Z.sub_0_r. reflexivity.
Qed.



(** ** Dictionaries *)

Section DictFacts.
Context {K V : Type} (eqb : K -> K -> bool).
Hypothesis eqb_eq : forall a b, eqb a b = true <-> a = b.

Lemma eqb_refl' (a : K) : eqb a a = true.
Proof. apply eqb_eq. reflexivity. Qed.

Lemma eqb_neq (a b : K) : a <> b -> eqb a b = false.
Proof.
  intros H. destruct (eqb a b) eqn:E; [|reflexivity].
  apply eqb_eq in E. contradiction.
Qed.

Lemma get_set_same (k : K) (v : V) (d : list (K * V)) :
  Py.get eqb k (Py.set eqb k v d) = Some v.
Proof.
  induction d as [|[k' v'] d IH]; simpl.
  - rewrite eqb_refl'. reflexivity.
  - destruct (eqb k k') eqn:E; simpl; rewrite E; auto.
Qed.

Lemma get_set_other (k k' : K) (v : V) (d : list (K * V)) :
  k' <> k -> Py.get eqb k' (Py.set eqb k v d) = Py.get eqb k' d.
Proof.
  intros Hne. induction d as [|[k0 v0] d IH]; simpl.
  - rewrite (eqb_neq _ _ Hne). reflexivity.
  - destruct (eqb k k0) eqn:E; simpl.
    + apply eqb_eq in E. subst k0. rewrite (eqb_neq _ _ Hne). reflexivity.
    + destruct (eqb k' k0); auto.
Qed.

Lemma get_In_key (k : K) (d : list (K * V)) :
  In k (map fst d) <-> Py.get eqb k d <> None.
Proof.
  induction d as [|[k' v'] d IH]; simpl.
  - split; [tauto|congruence].
  - destruct (eqb k k') eqn:E.
    + apply eqb_eq in E. subst. split; [discriminate|auto].
    + rewrite <- IH. split; [intros [->|]; auto|auto].
      rewrite eqb_refl' in E. discriminate.
Qed.

Lemma get_Some_In (k : K) (v : V) (d : list (K * V)) :
  Py.get eqb k d = Some v -> In (k, v) d.
Proof.
  induction d as [|[k' v'] d IH]; simpl; [discriminate|].
  destruct (eqb k k') eqn:E; auto.
  apply eqb_eq in E. subst. intros H; inversion H; auto.
Qed.

Lemma In_get_nodup (k : K) (v : V) (d : list (K * V)) :
  List.NoDup (map fst d) -> In (k, v) d -> Py.get eqb k d = Some v.
Proof.
  induction d as [|[k' v'] d IH]; simpl; [tauto|].
  intros Hnd [H|H]; inversion Hnd as [|? ? Hnot Hnd']; subst.
  - inversion H; subst. rewrite eqb_refl'. reflexivity.
  - rewrite eqb_neq; auto.
    intros ->. apply Hnot. apply (in_map fst) in H. exact H.
Qed.

Lemma set_fresh (k : K) (v : V) (d : list (K * V)) :
  ~ In k (map fst d) -> Py.set eqb k v d = (d ++ [(k, v)])%list.
Proof.
  induction d as [|[k' v'] d IH]; simpl; intros H; [reflexivity|].
  rewrite eqb_neq by (intros ->; auto). rewrite IH by auto. reflexivity.
Qed.

Lemma set_keys (k : K) (v : V) (d : list (K * V)) (k' : K) :
  In k' (map fst (Py.set eqb k v d)) <-> k' = k \/ In k' (map fst d).
Proof.
  induction d as [|[k0 v0] d IH]; simpl.
  - intuition.
  - destruct (eqb k k0) eqn:E; simpl.
    + apply eqb_eq in E. subst. intuition.
    + rewrite IH. intuition.
Qed.

Lemma set_In (k : K) (v : V) (d : list (K * V)) (k' : K) (v' : V) :
  In (k', v') (Py.set eqb k v d) -> (k' = k /\ v' = v) \/ In (k', v') d.
Proof.
  induction d as [|[k0 v0] d IH]; simpl.
  - intros [H|[]]. inversion H; auto.
  - destruct (eqb k k0) eqn:E; simpl.
    + apply eqb_eq in E. subst. intros [H|H]; [inversion H|]; auto.
    + intros [H|H]; auto. destruct (IH H); auto.
Qed.

Lemma set_nodup (k : K) (v : V) (d : list (K * V)) :
  List.NoDup (map fst d) -> List.NoDup (map fst (Py.set eqb k v d)).
Proof.
  induction d as [|[k0 v0] d IH]; simpl; intros H.
  - constructor; [simpl; tauto|constructor].
  - inversion H as [|? ? Hnot Hnd]; subst.
    destruct (eqb k k0) eqn:E; simpl.
    + constructor; auto.
    + constructor; auto. rewrite set_keys. intros [->|?]; auto.
      rewrite eqb_refl' in E. discriminate.
Qed.

Lemma fold_set_fresh (l acc : list (K * V)) :
  List.NoDup (map fst (acc ++ l)) ->
  fold_left (fun a kv => Py.set eqb (fst kv) (snd kv) a) l acc = (acc ++ l)%list.
Proof.
  revert acc. induction l as [|[k v] l IH]; intros acc H; simpl.
  - rewrite app_nil_r. reflexivity.
  - assert (Hk : ~ In k (map fst acc)).
    { rewrite map_app in H. simpl in H. apply List.NoDup_remove_2 in H.
      intros Hin. apply H. apply in_or_app. auto. }
    rewrite set_fresh by exact Hk.
    rewrite IH; rewrite <- app_assoc; simpl; auto.
Qed.

(** A comprehension over items with distinct keys keeps them as they
    are. *)
Lemma of_items_nodup (l : list (K * V)) :
  List.NoDup (map fst l) -> Py.of_items eqb l = l.
Proof. intros H. unfold Py.of_items. rewrite fold_set_fresh; auto. Qed.

Lemma fold_set_keys (l acc : list (K * V)) (k : K) :
  In k (map fst (fold_left (fun a kv => Py.set eqb (fst kv) (snd kv) a) l acc))
  <-> In k (map fst acc) \/ In k (map fst l).
Proof.
  revert acc. induction l as [|[k0 v0] l IH]; intros acc; simpl.
  - tauto.
  - rewrite IH, set_keys. intuition.
Qed.

Lemma fold_set_In (l acc : list (K * V)) (k : K) (v : V) :
  In (k, v) (fold_left (fun a kv => Py.set eqb (fst kv) (snd kv) a) l acc) ->
  In (k, v) acc \/ In (k, v) l.
Proof.
  revert acc. induction l as [|[k0 v0] l IH]; intros acc; simpl.
  - tauto.
  - intros H. destruct (IH _ H) as [H1|H1]; auto.
    apply set_In in H1. destruct H1 as [[-> ->]|H1]; auto.
Qed.

Lemma fold_set_nodup (l acc : list (K * V)) :
  List.NoDup (map fst acc) ->
  List.NoDup (map fst (fold_left (fun a kv => Py.set eqb (fst kv) (snd kv) a) l acc)).
Proof.
  revert acc. induction l as [|[k0 v0] l IH]; intros acc H; simpl; auto.
  apply IH. apply set_nodup. exact H.
Qed.

Lemma of_items_keys (l : list (K * V)) (k : K) :
  In k (map fst (Py.of_items eqb l)) <-> In k (map fst l).
Proof. unfold Py.of_items. rewrite fold_set_keys. simpl. tauto. Qed.

Lemma of_items_In (l : list (K * V)) (k : K) (v : V) :
  In (k, v) (Py.of_items eqb l) -> In (k, v) l.
Proof. intros H. apply fold_set_In in H. destruct H as [[]|H]; exact H. Qed.

Lemma of_items_wf (l : list (K * V)) : List.NoDup (map fst (Py.of_items eqb l)).
Proof. apply fold_set_nodup. constructor. Qed.
End DictFacts.

Lemma key_eqb_eq (a b : Py.key) : Py.key_eqb a b = true <-> a = b.
Proof.
  destruct a, b; simpl; try (split; congruence).
  - rewrite Z.eqb_eq. split; congruence.
  - rewrite String.eqb_eq. split; congruence.
Qed.

Lemma int_of_str_of_int (z : Z) : Py.int_of_str (Py.str_of_int z) = Some z.
Proof.
  unfold Py.int_of_str, Py.str_of_int.
  destruct (Z.to_int z) eqn:E.
  - destruct (Decimal.uint_eq_dec d Decimal.Nil) as [->|Hd].
    + destruct z; discriminate || (simpl in E; inversion E as [E'];
        destruct (Pos.to_uint p) eqn:Ep; try discriminate;
        pose proof (DecimalPos.Unsigned.to_uint_nonnil p); congruence).
    + rewrite NilZero.isi; try congruence.
      rewrite <- E. rewrite DecimalZ.of_to. reflexivity.
  - destruct (Decimal.uint_eq_dec d Decimal.Nil) as [->|Hd].
    + destruct z; try discriminate. simpl in E. inversion E as [E'].
      pose proof (DecimalPos.Unsigned.to_uint_nonnil p). congruence.
    + rewrite NilZero.isi; try congruence.
      rewrite <- E. rewrite DecimalZ.of_to. reflexivity.
Qed.

Lemma str_of_int_inj (a b : Z) : Py.str_of_int a = Py.str_of_int b -> a = b.
Proof.
  intros H. apply (f_equal Py.int_of_str) in H.
  rewrite !int_of_str_of_int in H. congruence.
Qed.

(** ** Persistence: the round trips on well-formed stores *)

Lemma int_keys_str (V : Type) (l : list (Z * V)) :
  int_keys (map (fun p => (Py.str_of_int (fst p), snd p)) l) = Some l.
Proof.
  induction l as [|[z v] l IH]; simpl; [reflexivity|].
  rewrite int_of_str_of_int, IH. reflexivity.
Qed.

Lemma nodup_str_keys (V : Type) (l : list (Z * V)) :
  List.NoDup (map fst l) ->
  List.NoDup (map fst (map (fun p => (Py.str_of_int (fst p), snd p)) l)).
Proof.
  intros H. rewrite map_map. simpl.
  rewrite <- (map_map fst Py.str_of_int).
  apply Stdlib.Lists.Finite.Injective_map_NoDup; [|exact H].
  intros a b. apply str_of_int_inj.
Qed.

Lemma save_load_guild_configs (dm dm' : CTFDataManager) (d : Disk) :
  List.NoDup (map fst (guild_configs dm)) ->
  load_guild_configs (save_guild_configs dm d) dm'
  = Ret (with_configs (guild_configs dm) dm').
Proof.
  intros H. unfold load_guild_configs, save_guild_configs; simpl.
  rewrite (of_items_nodup String.eqb String.eqb_eq) by (apply nodup_str_keys; exact H).
  rewrite int_keys_str.
  rewrite (of_items_nodup Z.eqb Z.eqb_eq) by exact H. reflexivity.
Qed.

Lemma save_load_guild_ctf_status (dm dm' : CTFDataManager) (d : Disk) :
  List.NoDup (map fst (guild_ctf_status dm)) ->
  load_guild_ctf_status (save_guild_ctf_status dm d) dm'
  = Ret (with_status (guild_ctf_status dm) dm').
Proof.
  intros H. unfold load_guild_ctf_status, save_guild_ctf_status; simpl.
  rewrite (of_items_nodup String.eqb String.eqb_eq) by (apply nodup_str_keys; exact H).
  rewrite int_keys_str.
  rewrite (of_items_nodup Z.eqb Z.eqb_eq) by exact H. reflexivity.
Qed.

Lemma save_load_ctf_cache (dm dm' : CTFDataManager) (d : Disk) :
  load_ctf_cache (save_ctf_cache dm d) dm' = Ret (with_cache (ctf_cache dm) dm').
Proof. reflexivity. Qed.

Lemma sets_round_trip (e : pydict string container) :
  List.NoDup (map fst e) ->
  Forall (fun q => exists X, snd q = PySet X) e ->
  Py.of_items String.eqb
    (map (fun q => (fst q, PySet (list_to_set (snd q))))
       (Py.of_items String.eqb (map (fun q => (fst q, to_list (snd q))) e)))
  = e.
Proof.
  intros Hnd Hsets.
  rewrite (of_items_nodup String.eqb String.eqb_eq (map _ e))
    by (rewrite map_map; simpl; exact Hnd).
  rewrite map_map; simpl.
  rewrite (of_items_nodup String.eqb String.eqb_eq)
    by (rewrite map_map; simpl; exact Hnd).
  induction Hsets as [|[k c] e [X HX] _ IH]; simpl; [reflexivity|].
  simpl in HX. subst c. simpl. rewrite list_to_set_elements_L.
  rewrite IH; [reflexivity|]. inversion Hnd; assumption.
Qed.

Lemma save_load_sent_notifications (dm dm' : CTFDataManager) (d : Disk) :
  int_keyed_sets (sent_notifications dm) ->
  load_sent_notifications (save_sent_notifications dm d) dm'
  = Ret (with_sent (sent_notifications dm) dm').
Proof.
  intros (l & Hd & Hnd & Hall).
  unfold load_sent_notifications, save_sent_notifications; simpl.
  rewrite Hd, map_map; simpl.
  set (enc := fun p : Z * pydict string container =>
                (Py.str_of_int (fst p),
                 Py.of_items String.eqb (map (fun q => (fst q, to_list (snd q))) (snd p)))).
  assert (Henc : map enc l
                 = map (fun p => (Py.str_of_int (fst p), snd p))
                     (map (fun p => (fst p, snd (enc p))) l))
    by (rewrite map_map; reflexivity).
  rewrite (of_items_nodup String.eqb String.eqb_eq (map enc l)).
  2:{ rewrite Henc. apply nodup_str_keys. rewrite map_map; simpl. exact Hnd. }
  rewrite Henc, int_keys_str, map_map; simpl.
  rewrite (of_items_nodup Py.key_eqb key_eqb_eq).
  2:{ rewrite map_map; simpl. rewrite <- (map_map fst Py.KInt).
      apply Stdlib.Lists.Finite.Injective_map_NoDup; [congruence|exact Hnd]. }
  do 2 f_equal.
  clear Hd Hnd Henc. induction Hall as [|[z e] l [H1 H2] _ IH]; simpl; [reflexivity|].
  simpl in H1, H2. rewrite sets_round_trip by assumption. rewrite IH. reflexivity.
Qed.

(** ** The reset command *)

(** The reset writes under the [str] key and never touches what
    [has_notification_been_sent] reads. *)
Lemma slash_reset_notifications_int_entries (s : CTFDataManager) (gid g : Z) :
  kget (Py.KInt g) (sent_notifications (state_of (slash_reset_notifications gid s)))
  = kget (Py.KInt g) (sent_notifications s).
Proof.
  unfold slash_reset_notifications, modify, state_of; simpl.
  apply (get_set_other Py.key_eqb key_eqb_eq). discriminate.
Qed.

Lemma slash_reset_notifications_no_effect
    (s : CTFDataManager) (gid g : Z) (ctf_id kind : string) :
  outcome_of (has_notification_been_sent g ctf_id kind
                (state_of (slash_reset_notifications gid s)))
  = outcome_of (has_notification_been_sent g ctf_id kind s).
Proof.
  unfold has_notification_been_sent, bind, get_guild_notifications.
  rewrite slash_reset_notifications_int_entries.
  destruct (kget (Py.KInt g) (sent_notifications s)) as [e|].
  - destruct (sget kind e); reflexivity.
  - destruct (sget kind fresh_notifications); reflexivity.
Qed.

(** C1.  The reset command leaves the record of a sent notification in
    place.  After the 24h alert of guild 5 has been marked as sent,
    [slash_reset_notifications 5] stores its empty record under the [str]
    key: [has_notification_been_sent] still answers [True] and the next
    pass, 24 hours before the start, stays silent.  The participation store
    is untouched. *)
Theorem slash_reset_notifications_does_not_clear :
  let s1 := state_of (mark_notification_sent 5 "HackCTF_1" "24h" scenario) in
  let s2 := state_of (slash_reset_notifications 5 s1) in
  outcome_of (has_notification_been_sent 5 "HackCTF_1" "24h" s1) = Ret true /\
  kget (Py.KStr "5") (sent_notifications s2) = Some reset_notifications /\
  kget (Py.KInt 5) (sent_notifications s2) = kget (Py.KInt 5) (sent_notifications s1) /\
  outcome_of (has_notification_been_sent 5 "HackCTF_1" "24h" s2) = Ret true /\
  trace_of (check_notification_triggers online new_year s2) = [] /\
  trace_of (check_notification_triggers online new_year scenario)
  = [Send 100 5 "HackCTF_1" "24h"; Mark 5 "HackCTF_1" "24h"] /\
  guild_ctf_status s2 = guild_ctf_status s1.
Proof. vm_compute. repeat split. Qed.

(** ** Cache refresh *)

Lemma keyed_events_In (events : list (option event)) (items : list (string * event)) :
  keyed_events events = Some items ->
  forall k e, In (k, e) items <-> In (Some e) events /\ k = get_ctf_id e.
Proof.
  revert items. induction events as [|[e0|] events IH]; intros items H k e; simpl in H.
  - inversion H; subst. simpl. tauto.
  - destruct (keyed_events events) as [r'|]; [|discriminate].
    inversion H; subst. simpl. rewrite (IH _ eq_refl). split.
    + intros [E|[? ?]]; [inversion E; subst|]; auto.
    + intros [[E|?] ->]; [inversion E; subst|]; auto.
  - discriminate.
Qed.

(** C7.  A refresh that reports success has replaced the cache by the
    dictionary built from the fetched events alone, keyed by
    [get_ctf_id]: its keys are exactly the ids of the fetched events, a key
    of the old cache that no fetched event has is gone, and the three other
    stores are as before.  A refresh that reports failure, also one that
    fails while the new dictionary is being built, leaves the data manager
    as it was: no partly built cache is ever installed. *)
Theorem fetch_and_cache_ctfs_replaces_cache
    (r : response) (dm dm' : CTFDataManager) (d d' : Disk) (ok : bool) :
  fetch_and_cache_ctfs r dm d = (dm', d', ok) ->
  (ok = true /\
   exists events items,
     r = Reply 200 (Some events) /\
     keyed_events events = Some items /\
     ctf_cache dm' = Py.of_items String.eqb items /\
     (forall k, In k (map fst (ctf_cache dm')) <->
                exists e, In (Some e) events /\ get_ctf_id e = k) /\
     (forall k e, In (k, e) (ctf_cache dm') -> In (Some e) events /\ k = get_ctf_id e) /\
     (forall k, In k (map fst (ctf_cache dm)) ->
                (forall e, In (Some e) events -> get_ctf_id e <> k) ->
                sget k (ctf_cache dm') = None /\ ~ In k (map fst (ctf_cache dm'))) /\
     guild_configs dm' = guild_configs dm /\
     sent_notifications dm' = sent_notifications dm /\
     guild_ctf_status dm' = guild_ctf_status dm)
  \/ (ok = false /\ dm' = dm /\ d' = d).
Proof.
  unfold fetch_and_cache_ctfs. intros H.
  destruct r as [|code body]; [inversion H; subst; right; auto|].
  destruct (code =? 200) eqn:Ec; [|inversion H; subst; right; auto].
  destruct body as [events|]; [|inversion H; subst; right; auto].
  destruct (keyed_events events) as [items|] eqn:Ek;
    [|inversion H; subst; right; auto].
  apply Z.eqb_eq in Ec. subst code.
  inversion H; subst; clear H. left. split; [reflexivity|].
  exists events, items. simpl.
  assert (Hkeys : forall k, In k (map fst (Py.of_items String.eqb items)) <->
                            exists e, In (Some e) events /\ get_ctf_id e = k).
  { intros k. rewrite (of_items_keys String.eqb String.eqb_eq). split.
    - intros Hin. apply in_map_iff in Hin. destruct Hin as ([k' e] & <- & Hin).
      apply (keyed_events_In _ _ Ek) in Hin. destruct Hin as [Hin ->]. eauto.
    - intros (e & Hin & <-). apply in_map_iff. exists (get_ctf_id e, e).
      split; [reflexivity|]. apply (keyed_events_In _ _ Ek). auto. }
  assert (Hgone : forall k, (forall e, In (Some e) events -> get_ctf_id e <> k) ->
                            ~ In k (map fst (Py.of_items String.eqb items))).
  { intros k Hk Hin. apply Hkeys in Hin. destruct Hin as (e' & Hin & Heq).
    eapply Hk; eauto. }
  split; [reflexivity|]. split; [exact Ek|]. split; [reflexivity|].
  split; [exact Hkeys|]. split; [|split; [|auto]].
  - intros k e H. apply (of_items_In String.eqb String.eqb_eq) in H.
    apply (keyed_events_In _ _ Ek) in H. exact H.
  - intros k _ Hk. split; [|apply Hgone; exact Hk].
    destruct (sget k (Py.of_items String.eqb items)) eqn:Eg; [|reflexivity].
    exfalso. apply (Hgone k Hk).
    apply (get_In_key String.eqb String.eqb_eq). congruence.
Qed.

Lemma fetch_and_cache_ctfs_replaces_cache_witness :
  ctf_cache
    (fst (fst (fetch_and_cache_ctfs (Reply 200 (Some [Some other_event]))
                 scenario no_files)))
  = [("Other_2", other_event)].
Proof.
  destruct (fetch_and_cache_ctfs (Reply 200 (Some [Some other_event])) scenario no_files)
    as [[dm' d'] ok] eqn:E.
  destruct (fetch_and_cache_ctfs_replaces_cache _ _ _ _ _ _ E)
    as [(_ & events & items & Hr & Hk & Hc & _)|(Hok & _)].
  - inversion Hr; subst events. vm_compute in Hk. inversion Hk; subst items.
    simpl. rewrite Hc. reflexivity.
  - vm_compute in E. inversion E; subst. discriminate.
Defined.

(** C8.  When the request raises, the status code is not a 2xx one, or the
    body cannot be read as JSON, the refresh returns [False] and leaves the
    data manager, its cache included, and the files as they were. *)
Theorem fetch_and_cache_ctfs_failure_keeps_cache
    (r : response) (dm : CTFDataManager) (d : Disk) :
  r = RequestFailed \/
  (exists code body, r = Reply code body /\ (code < 200 \/ 299 < code)) \/
  (exists code, r = Reply code None) ->
  fetch_and_cache_ctfs r dm d = (dm, d, false).
Proof.
  intros [->|[(code & body & -> & Hc)|(code & ->)]]; simpl.
  - reflexivity.
  - destruct (code =? 200) eqn:E; [apply Z.eqb_eq in E; lia|reflexivity].
  - destruct (code =? 200); reflexivity.
Qed.

Lemma fetch_and_cache_ctfs_failure_keeps_cache_witness :
  fetch_and_cache_ctfs (Reply 503 (Some [Some other_event])) scenario no_files
  = (scenario, no_files, false).
Proof.
  apply fetch_and_cache_ctfs_failure_keeps_cache.
  right; left. exists 503, (Some [Some other_event]). split; [reflexivity|lia].
Defined.

(** C9.  Saving and loading the sent-notification store after a reset
    does not give the store back: the [str] key written by
    [slash_reset_notifications] is saved under the same name as the [int]
    key of the guild, the later entry wins, and the loaded store has
    forgotten a notification that the saved one had recorded. *)
Theorem save_load_sent_notifications_after_reset :
  let s1 := state_of (mark_notification_sent 5 "HackCTF_1" "24h" init) in
  let s2 := state_of (slash_reset_notifications 5 s1) in
  exists s3,
    load_sent_notifications (save_sent_notifications s2 no_files) s2 = Ret s3 /\
    sent_notifications s3 <> sent_notifications s2 /\
    outcome_of (has_notification_been_sent 5 "HackCTF_1" "24h" s2) = Ret true /\
    outcome_of (has_notification_been_sent 5 "HackCTF_1" "24h" s3) = Ret false.
Proof.
  eexists. split; [vm_compute; reflexivity|].
  split; [vm_compute; discriminate|].
  split; vm_compute; reflexivity.
Qed.

(** ** The stateful helpers in closed form *)

Lemma get_guild_config_has (gid : Z) (cfg : guild_config) (s : CTFDataManager) :
  zget gid (guild_configs s) = Some cfg ->
  get_guild_config gid s = (s, [], Ret cfg).
Proof. intros H. unfold get_guild_config. rewrite H. reflexivity. Qed.

Lemma get_guild_setting_has (gid : Z) (name : string) (cfg : guild_config)
    (s : CTFDataManager) :
  zget gid (guild_configs s) = Some cfg ->
  get_guild_setting gid name s = (s, [], Ret (setting_of cfg name)).
Proof.
  intros H. unfold get_guild_setting, bind.
  rewrite (get_guild_config_has _ _ _ H). reflexivity.
Qed.

Lemma get_guild_channel_id_has (gid : Z) (cfg : guild_config) (s : CTFDataManager) :
  zget gid (guild_configs s) = Some cfg ->
  get_guild_channel_id gid s
  = (s, [], Ret (if setup_complete cfg then channel_id cfg else None)).
Proof.
  intros H. unfold get_guild_channel_id, is_guild_setup_complete, bind.
  rewrite (get_guild_config_has _ _ _ H). simpl.
  destruct (setup_complete cfg); simpl; [|reflexivity].
  rewrite (get_guild_config_has _ _ _ H). reflexivity.
Qed.

Lemma get_guild_notifications_eq (gid : Z) (s : CTFDataManager) :
  exists e, get_guild_notifications gid s = (touch gid s, [], Ret e) /\
            kget (Py.KInt gid) (sent_notifications (touch gid s)) = Some e /\
            forall k, sget k e = lookup_kind s gid k.
Proof.
  unfold touch, lookup_kind, get_guild_notifications, state_of.
  destruct (kget (Py.KInt gid) (sent_notifications s)) as [e|] eqn:E.
  - exists e. simpl. auto.
  - exists fresh_notifications. cbn [fst snd with_sent sent_notifications].
    rewrite (get_set_same Py.key_eqb key_eqb_eq). auto.
Qed.

Lemma touch_fields (gid : Z) (s : CTFDataManager) :
  ctf_cache (touch gid s) = ctf_cache s /\
  guild_configs (touch gid s) = guild_configs s /\
  guild_ctf_status (touch gid s) = guild_ctf_status s.
Proof.
  unfold touch, get_guild_notifications, state_of.
  destruct (kget _ _); simpl; auto.
Qed.

Lemma touch_lookup (gid g : Z) (k : string) (s : CTFDataManager) :
  lookup_kind (touch gid s) g k = lookup_kind s g k.
Proof.
  unfold touch, lookup_kind, get_guild_notifications, state_of.
  destruct (kget (Py.KInt gid) (sent_notifications s)) as [e|] eqn:E; [reflexivity|].
  cbn [fst snd with_sent sent_notifications].
  destruct (Z.eq_dec g gid) as [->|Hne].
  - rewrite (get_set_same Py.key_eqb key_eqb_eq), E. reflexivity.
  - rewrite (get_set_other Py.key_eqb key_eqb_eq) by congruence. reflexivity.
Qed.

Lemma touch_present (gid : Z) (s : CTFDataManager) :
  kget (Py.KInt gid) (sent_notifications s) <> None -> touch gid s = s.
Proof.
  unfold touch, get_guild_notifications, state_of.
  destruct (kget _ _); [reflexivity|congruence].
Qed.

Lemma has_notification_been_sent_eq (gid : Z) (cid kind : string) (s : CTFDataManager) :
  has_notification_been_sent gid cid kind s
  = (touch gid s, [],
     match lookup_kind s gid kind with
     | Some c => Ret (contains cid c)
     | None => Raise KeyError
     end).
Proof.
  unfold has_notification_been_sent, bind.
  destruct (get_guild_notifications_eq gid s) as (e & -> & _ & He).
  rewrite He. destruct (lookup_kind s gid kind); reflexivity.
Qed.

Lemma mark_notification_sent_eq (gid : Z) (cid kind : string) (s : CTFDataManager) :
  mark_notification_sent gid cid kind s
  = match lookup_kind s gid kind with
    | Some (PySet _) => (marked gid cid kind s, [Mark gid cid kind], Ret tt)
    | Some (PyList _) => (touch gid s, [], Raise AttributeError)
    | None => (touch gid s, [], Raise KeyError)
    end.
Proof.
  unfold marked, state_of. unfold mark_notification_sent, bind.
  destruct (get_guild_notifications_eq gid s) as (e & -> & _ & He).
  rewrite He. destruct (lookup_kind s gid kind) as [[X|l]|]; reflexivity.
Qed.

Lemma marked_fields (gid : Z) (cid kind : string) (s : CTFDataManager) :
  ctf_cache (marked gid cid kind s) = ctf_cache s /\
  guild_configs (marked gid cid kind s) = guild_configs s /\
  guild_ctf_status (marked gid cid kind s) = guild_ctf_status s.
Proof.
  unfold marked, state_of, mark_notification_sent, bind.
  destruct (get_guild_notifications_eq gid s) as (e & -> & _ & He).
  destruct (touch_fields gid s) as (H1 & H2 & H3).
  destruct (sget kind e) as [[X|l]|]; simpl; auto.
Qed.

(** The store after a mark: the set of the marked kind has one more
    element, every other reading is as before. *)
Lemma marked_lookup (gid : Z) (cid kind : string) (X : gset string) (s : CTFDataManager)
    (g : Z) (k : string) :
  lookup_kind s gid kind = Some (PySet X) ->
  lookup_kind (marked gid cid kind s) g k
  = if Z.eqb g gid && String.eqb k kind then Some (PySet ({[cid]} ∪ X))
    else lookup_kind s g k.
Proof.
  intros HX. unfold marked, state_of, mark_notification_sent, bind.
  destruct (get_guild_notifications_eq gid s) as (e & -> & Hget & He).
  rewrite He, HX. cbn [fst snd modify log]. unfold lookup_kind at 1.
  cbn [with_sent sent_notifications].
  destruct (Z.eqb_spec g gid) as [->|Hne]; cbn [andb].
  - rewrite (get_set_same Py.key_eqb key_eqb_eq).
    destruct (String.eqb_spec k kind) as [->|Hk].
    + apply (get_set_same String.eqb String.eqb_eq).
    + rewrite (get_set_other String.eqb String.eqb_eq) by exact Hk. apply He.
  - rewrite (get_set_other Py.key_eqb key_eqb_eq) by congruence.
    apply (touch_lookup gid g k s).
Qed.


Lemma touch_entry (gid : Z) (s : CTFDataManager) :
  kget (Py.KInt gid) (sent_notifications (touch gid s)) <> None.
Proof.
  destruct (get_guild_notifications_eq gid s) as (e & _ & -> & _). discriminate.
Qed.

Lemma send_guild_notification_eq (bot : Bot) (gid : Z) (cid : string) (event : event)
    (kind : string) (cfg : guild_config) (s : CTFDataManager) :
  zget gid (guild_configs s) = Some cfg ->
  send_guild_notification bot gid cid event kind s
  = match usable bot (if setup_complete cfg then channel_id cfg else None) with
    | None => (s, [], Ret tt)
    | Some ch =>
        match ev_title event with
        | None => (s, [], Raise KeyError)
        | Some _ =>
            if delivers bot ch cid kind then
              match lookup_kind s gid kind with
              | Some (PySet _) =>
                  (marked gid cid kind s, [Send ch gid cid kind; Mark gid cid kind],
                   Ret tt)
              | Some (PyList _) => (touch gid s, [Send ch gid cid kind], Raise AttributeError)
              | None => (touch gid s, [Send ch gid cid kind], Raise KeyError)
              end
            else (s, [Send ch gid cid kind], Raise DeliveryError)
        end
    end.
Proof.
  intros H. unfold send_guild_notification, bind.
  rewrite (get_guild_channel_id_has _ _ _ H). unfold usable.
  destruct (if setup_complete cfg then channel_id cfg else None) as [ch|];
    [|reflexivity].
  destruct (ch =? 0); [reflexivity|].
  destruct (get_channel bot ch); [|reflexivity]. cbn [negb orb].
  destruct (ev_title event); [|reflexivity].
  unfold channel_send, bind, log.
  destruct (delivers bot ch cid kind); cbn [ret raise]; [|reflexivity].
  rewrite mark_notification_sent_eq.
  destruct (lookup_kind s gid kind) as [[X|l]|]; reflexivity.
Qed.

Lemma send_ctf_channel_reminder_eq (bot : Bot) (gid : Z) (cid : string) (event : event)
    (cfg : guild_config) (s : CTFDataManager) :
  zget gid (guild_configs s) = Some cfg ->
  send_ctf_channel_reminder bot gid cid event s
  = match usable bot (sget cid (ctf_channels cfg)) with
    | None => (s, [], Ret false)
    | Some ch =>
        match ev_title event with
        | None => (s, [], Raise KeyError)
        | Some _ =>
            if delivers bot ch cid "channel_1h"
            then (s, [Send ch gid cid "channel_1h"], Ret true)
            else (s, [Send ch gid cid "channel_1h"], Raise DeliveryError)
        end
    end.
Proof.
  intros H. unfold send_ctf_channel_reminder, bind.
  rewrite (get_guild_config_has _ _ _ H). unfold usable.
  destruct (sget cid (ctf_channels cfg)) as [ch|]; [|reflexivity].
  destruct (ch =? 0); [reflexivity|].
  destruct (get_channel bot ch); [|reflexivity]. cbn [negb orb].
  destruct (ev_title event); [|reflexivity].
  unfold channel_send, bind, log.
  destruct (delivers bot ch cid "channel_1h"); reflexivity.
Qed.

Lemma touch_touch (gid : Z) (s : CTFDataManager) : touch gid (touch gid s) = touch gid s.
Proof. apply touch_present. apply touch_entry. Qed.

Lemma marked_touch (gid : Z) (cid kind : string) (s : CTFDataManager) :
  marked gid cid kind (touch gid s) = marked gid cid kind s.
Proof.
  unfold marked, state_of, mark_notification_sent, bind.
  destruct (get_guild_notifications_eq gid (touch gid s)) as (e' & -> & Hget' & He').
  destruct (get_guild_notifications_eq gid s) as (e & -> & Hget & He).
  rewrite touch_touch in *. rewrite Hget in Hget'. inversion Hget'; subst e'.
  destruct (sget kind e) as [[X|l]|]; reflexivity.
Qed.


Lemma touch_config (gid g : Z) (s : CTFDataManager) :
  zget g (guild_configs (touch gid s)) = zget g (guild_configs s).
Proof. destruct (touch_fields gid s) as (_ & -> & _). reflexivity. Qed.

(** ** The body of the pass in closed form *)

(** Symbolic evaluation of the check-and-send tail of [check_event] for
    one of the primary kinds. *)
Ltac primary_tail H' kind :=
  rewrite has_notification_been_sent_eq;
  let c := fresh "c" in
  let El := fresh "El" in
  destruct (lookup_kind _ _ kind) as [c|] eqn:El; [|reflexivity];
  destruct (contains _ c); cbn [negb app]; [reflexivity|];
  rewrite (send_guild_notification_eq _ _ _ _ _ _ _ H');
  unfold target; cbn [String.eqb Ascii.eqb Bool.eqb];
  destruct (usable _ _) as [?ch|]; [|reflexivity];
  destruct (ev_title _); [|reflexivity];
  destruct (delivers _ _ _ kind); [|reflexivity];
  rewrite touch_lookup, El, marked_touch, ?touch_touch;
  destruct c; reflexivity.

Ltac one_hour_branch H H' :=
  destruct (in_1h_window _); cbn [andb]; [|reflexivity];
  rewrite (get_guild_setting_has _ _ _ _ H); cbv beta iota;
  destruct (truthy (setting_of _ "notification_1h")); [|reflexivity];
  cbv beta iota; cbn [app]; primary_tail H' "1h".

Lemma check_event_eq (bot : Bot) (now gid : Z) (cid : string) (event : event)
    (cfg : guild_config) (s : CTFDataManager) :
  zget gid (guild_configs s) = Some cfg ->
  check_event bot now gid (cid, event) s
  = check_event_cases bot now gid cid event cfg s.
Proof.
  intros H.
  assert (H' : zget gid (guild_configs (touch gid s)) = Some cfg)
    by (rewrite touch_config; exact H).
  unfold check_event, check_event_cases, due, start_of.
  destruct (ev_start event) as [time_str|]; [|reflexivity].
  destruct (parse_ctf_time_to_timestamp time_str) as [ts|]; [|reflexivity].
  destruct (ts =? 0); [reflexivity|].
  destruct (fromtimestamp_ok ts); cbn [negb]; [|reflexivity].
  unfold should_send_notification, is_ctf_joined.
  unfold bind, gets, ret. cbv beta iota.
  destruct (ctf_status s gid cid) eqn:Est; cbn [negb]; cbv beta iota;
    rewrite ?Est; cbn [andb app].
  - (* untouched: the two windows *)
    destruct (in_24h_window (hours_until ts now)); cbn [andb].
    + rewrite (get_guild_setting_has _ _ _ _ H). cbv beta iota.
      destruct (truthy (setting_of cfg "notification_24h")).
      * cbv beta iota. cbn [app]. primary_tail H' "24h".
      * cbv beta iota. cbn [app]. one_hour_branch H H'.
    + cbv beta iota. cbn [app]. one_hour_branch H H'.
  - (* joined: the channel reminder *)
    destruct (in_1h_window (hours_until ts now)); cbn [andb]; [|reflexivity].
    cbv beta iota. cbn [app].
    rewrite has_notification_been_sent_eq.
    destruct (lookup_kind s gid "channel_1h") as [c|] eqn:El; [|reflexivity].
    destruct (contains cid c); cbn [negb app]; [reflexivity|].
    rewrite (send_ctf_channel_reminder_eq _ _ _ _ _ _ H').
    unfold target. cbn [String.eqb Ascii.eqb Bool.eqb].
    destruct (usable bot _) as [ch|]; [|reflexivity].
    destruct (ev_title event); [|reflexivity].
    destruct (delivers bot ch cid "channel_1h"); [|reflexivity].
    rewrite mark_notification_sent_eq.
    rewrite touch_lookup, El, marked_touch, ?touch_touch.
    destruct c; reflexivity.
  - (* skipped *)
    reflexivity.
Qed.

Lemma check_event_shape (bot : Bot) (now gid : Z) (cid : string) (event : event)
    (cfg : guild_config) (s : CTFDataManager) :
  zget gid (guild_configs s) = Some cfg ->
  body_shape bot now gid cid event cfg s (check_event bot now gid (cid, event) s).
Proof.
  intros H. rewrite (check_event_eq _ _ _ _ _ _ _ H). unfold check_event_cases.
  destruct (start_of event) as [ts|] eqn:Es.
  2:{ apply shape_idle. unfold due. rewrite Es. reflexivity. }
  destruct (fromtimestamp_ok ts); cbn [negb]; [|apply shape_out_of_range].
  destruct (due now (ctf_status s gid cid) cfg event) as [k|] eqn:Ed;
    [|apply shape_idle; exact Ed].
  destruct (lookup_kind s gid k) as [c|] eqn:El.
  2:{ eapply shape_crashed; eauto. unfold recorded. rewrite El. reflexivity. }
  destruct (contains cid c) eqn:Ec; [eapply shape_recorded; eauto|].
  assert (Hr : recorded s gid cid k = false) by (unfold recorded; rewrite El; exact Ec).
  destruct (target bot cfg cid k) as [ch|] eqn:Et; [|eapply shape_no_target; eauto].
  destruct (ev_title event); [|eapply shape_crashed; eauto].
  destruct (delivers bot ch cid k); [|eapply shape_failed; eauto].
  destruct c as [X|l]; [eapply shape_fired; eauto|eapply shape_failed; eauto].
Qed.

(** ** What marking and touching do to the readings *)

Lemma touch_recorded (gid g : Z) (c k : string) (s : CTFDataManager) :
  recorded (touch gid s) g c k = recorded s g c k.
Proof. unfold recorded. rewrite touch_lookup. reflexivity. Qed.

Lemma marked_recorded (gid : Z) (cid kind : string) (X : gset string)
    (s : CTFDataManager) (g : Z) (c k : string) :
  lookup_kind s gid kind = Some (PySet X) ->
  recorded (marked gid cid kind s) g c k
  = (Z.eqb g gid && String.eqb k kind && String.eqb c cid) || recorded s g c k.
Proof.
  intros HX. unfold recorded. rewrite (marked_lookup _ _ _ _ _ _ _ HX).
  destruct (Z.eqb_spec g gid) as [->|]; cbn [andb orb]; [|reflexivity].
  destruct (String.eqb_spec k kind) as [->|]; cbn [andb orb]; [|reflexivity].
  rewrite HX. cbn [contains].
  destruct (String.eqb_spec c cid) as [->|Hne]; cbn [orb].
  - apply bool_decide_eq_true. apply elem_of_union_l, elem_of_singleton. reflexivity.
  - apply bool_decide_ext. rewrite elem_of_union, elem_of_singleton. tauto.
Qed.

Lemma stable_refl (s : CTFDataManager) : stable s s.
Proof. unfold stable. auto. Qed.

Lemma stable_touch (s0 s : CTFDataManager) (gid : Z) :
  stable s0 s -> stable s0 (touch gid s).
Proof.
  unfold stable. destruct (touch_fields gid s) as (-> & -> & ->). auto.
Qed.

Lemma stable_marked (s0 s : CTFDataManager) (gid : Z) (cid k : string) :
  stable s0 s -> stable s0 (marked gid cid k s).
Proof.
  unfold stable. destruct (marked_fields gid cid k s) as (-> & -> & ->). auto.
Qed.

Lemma stable_status (s0 s : CTFDataManager) (g : Z) (c : string) :
  stable s0 s -> ctf_status s g c = ctf_status s0 g c.
Proof. intros (_ & _ & H). unfold ctf_status. rewrite H. reflexivity. Qed.

(** ** Logs *)

Lemma send_then_mark_app (t1 t2 : list action) :
  send_then_mark t1 -> send_then_mark t2 -> send_then_mark (t1 ++ t2).
Proof.
  induction 1 as [|ch g c k t Ht IH|ch g c k t Ht IH]; intros H2; simpl.
  - exact H2.
  - apply stm_send. apply IH. exact H2.
  - apply stm_pair. apply IH. exact H2.
Qed.


Lemma no_send_after_mark_nil : no_send_after_mark [].
Proof. intros [|a pre] ch g c k post E; discriminate. Qed.

Lemma no_send_after_mark_snoc (t : list action) (ch g : Z) (c k : string)
    (tail : list action) :
  no_send_after_mark t -> ~ In (Mark g c k) t ->
  tail = [] \/ tail = [Mark g c k] ->
  no_send_after_mark (t ++ Send ch g c k :: tail).
Proof.
  intros Ht Hfresh Htail pre ch' g' c' k' post E.
  apply app_eq_app in E. destruct E as (l & [[-> E]|[-> E]]).
  - destruct l as [|a l].
    + simpl in E. inversion E; subst. rewrite app_nil_r in Hfresh. exact Hfresh.
    + simpl in E. inversion E; subst. eapply Ht. reflexivity.
  - destruct l as [|a l].
    + simpl in E. inversion E; subst. rewrite app_nil_r. exact Hfresh.
    + simpl in E. inversion E as [[Ea El]]. subst a.
      destruct Htail as [->| ->].
      * destruct l; discriminate.
      * destruct l as [|b l]; [discriminate|].
        simpl in El. inversion El. destruct l; discriminate.
Qed.

(** ** Loops *)

Lemma for_each_inv {A : Type} (J : CTFDataManager -> list action -> Prop)
    (body : A -> M unit) (l : list A) :
  (forall x s t, In x l -> J s t ->
                 J (state_of (body x s)) (t ++ trace_of (body x s))) ->
  forall s t, J s t ->
              J (state_of (for_each l body s)) (t ++ trace_of (for_each l body s)).
Proof.
  induction l as [|x l IH]; intros Hbody s t HJ.
  - simpl. unfold trace_of, state_of; simpl. rewrite app_nil_r. exact HJ.
  - cbn [for_each]. unfold bind.
    pose proof (Hbody x s t (or_introl eq_refl) HJ) as Hx.
    destruct (body x s) as [[s1 t1] [a|e]]; unfold state_of, trace_of in *;
      simpl in Hx; [|exact Hx].
    assert (Hrest : forall y s t, In y l -> J s t ->
              J (state_of (body y s)) (t ++ trace_of (body y s)))
      by (intros y s' t' Hy; apply Hbody; right; exact Hy).
    pose proof (IH Hrest s1 (t ++ t1)%list Hx) as Hl.
    destruct (for_each l body s1) as [[s2 t2] r2]; unfold state_of, trace_of in *;
      simpl in *. rewrite app_assoc. exact Hl.
Qed.

(** In a loop that returns, every element has its turn: in a state and
    after a log that satisfy the invariant, and its own log is part of the
    log of the loop. *)
Lemma for_each_visit {A : Type} (J : CTFDataManager -> list action -> Prop)
    (body : A -> M unit) (l : list A) :
  (forall x s t, In x l -> J s t ->
                 J (state_of (body x s)) (t ++ trace_of (body x s))) ->
  forall s t x, J s t -> In x l ->
    outcome_of (for_each l body s) = Ret tt ->
    exists s1 t1 t2,
      J s1 (t ++ t1) /\ outcome_of (body x s1) = Ret tt /\
      trace_of (for_each l body s) = (t1 ++ trace_of (body x s1) ++ t2)%list.
Proof.
  induction l as [|y l IH]; intros Hbody s t x HJ Hin Hret; [destruct Hin|].
  cbn [for_each] in *. unfold bind in *.
  pose proof (Hbody y s t (or_introl eq_refl) HJ) as Hy.
  destruct (body y s) as [[sy ty] [[]|e]] eqn:Ey; unfold state_of, trace_of in Hy;
    simpl in Hy.
  2:{ unfold outcome_of in Hret. simpl in Hret. discriminate. }
  assert (Hrest : forall z s t, In z l -> J s t ->
            J (state_of (body z s)) (t ++ trace_of (body z s)))
    by (intros z s' t' Hz; apply Hbody; right; exact Hz).
  destruct (for_each l body sy) as [[s2 t2] r2] eqn:El.
  unfold outcome_of in Hret. simpl in Hret. subst r2.
  destruct Hin as [->|Hin].
  - exists s, [], t2. rewrite app_nil_r, Ey.
    unfold outcome_of, trace_of. simpl. auto.
  - destruct (IH Hrest sy (t ++ ty)%list x Hy Hin) as (s1 & t1 & t3 & H1 & H2 & H3).
    { rewrite El. reflexivity. }
    exists s1, (ty ++ t1)%list, t3. rewrite app_assoc. split; [exact H1|].
    split; [exact H2|]. rewrite El in H3. unfold trace_of in *. simpl in *.
    rewrite H3, <- app_assoc. reflexivity.
Qed.

(** A loop whose every body leaves the state alone and logs nothing does
    the same. *)
Lemma for_each_idle {A : Type} (body : A -> M unit) (l : list A) (s : CTFDataManager) :
  (forall x, In x l -> body x s = (s, [], Ret tt)) ->
  for_each l body s = (s, [], Ret tt).
Proof.
  induction l as [|x l IH]; intros H; [reflexivity|].
  cbn [for_each]. unfold bind. rewrite (H x (or_introl eq_refl)).
  rewrite IH by (intros y Hy; apply H; right; exact Hy). reflexivity.
Qed.

(** ** The invariant of a pass *)

Section PassInvariant.
Variables (bot : Bot) (now : Z) (s0 : CTFDataManager).

Lemma pass_inv_start : pass_inv bot now s0 s0 [].
Proof.
  unfold pass_inv. split; [apply stable_refl|].
  repeat split; auto; try (intros; contradiction).
  - constructor.
  - apply no_send_after_mark_nil.
Qed.

Lemma pass_inv_touch (s : CTFDataManager) (t : list action) (gid : Z) :
  pass_inv bot now s0 s t -> pass_inv bot now s0 (touch gid s) t.
Proof.
  intros (H1 & H2 & H3 & H4 & H5 & H6 & H7). unfold pass_inv.
  split; [apply stable_touch; exact H1|].
  split; [intros g c k Hr; rewrite touch_recorded; auto|].
  split; [intros g c k Hr; rewrite touch_recorded in Hr; auto|].
  split; [exact H4|]. split; [exact H5|].
  split; [intros g c k Hm; rewrite touch_recorded; auto|exact H7].
Qed.

Lemma pass_inv_not_recorded (s : CTFDataManager) (t : list action)
    (g : Z) (c k : string) :
  pass_inv bot now s0 s t -> recorded s g c k = false ->
  recorded s0 g c k = false /\ ~ In (Mark g c k) t.
Proof.
  intros (H1 & H2 & H3 & H4 & H5 & H6 & H7) Hr. split.
  - destruct (recorded s0 g c k) eqn:E; [|reflexivity].
    rewrite (H2 _ _ _ E) in Hr. discriminate.
  - intros Hm. rewrite (H6 _ _ _ Hm) in Hr. discriminate.
Qed.

Lemma pass_inv_send (s : CTFDataManager) (t : list action) (gid ch : Z)
    (cid k : string) (cfg : guild_config) (event : event) :
  pass_inv bot now s0 s t ->
  zget gid (guild_configs s0) = Some cfg ->
  get_guild bot gid = true ->
  In (cid, event) (ctf_cache s0) ->
  due now (ctf_status s gid cid) cfg event = Some k ->
  target bot cfg cid k = Some ch ->
  recorded s gid cid k = false ->
  pass_inv bot now s0 (touch gid s) (t ++ [Send ch gid cid k]).
Proof.
  intros HJ Hcfg Hg Hin Hdue Htarget Hr.
  destruct (pass_inv_not_recorded _ _ _ _ _ HJ Hr) as [Hr0 Hfresh].
  destruct HJ as (H1 & H2 & H3 & H4 & H5 & H6 & H7). unfold pass_inv.
  split; [apply stable_touch; exact H1|].
  split; [intros g c k' Hr'; rewrite touch_recorded; auto|].
  split.
  { intros g c k' Hr'. rewrite touch_recorded in Hr'.
    destruct (H3 _ _ _ Hr') as [?|[ch' Hs]]; [left; assumption|].
    right. exists ch'. apply in_or_app. left. exact Hs. }
  split.
  { intros ch' g c k' Hs. apply in_app_or in Hs. destruct Hs as [Hs|[Hs|[]]]; [auto|].
    inversion Hs; subst. split; [exact Hr0|]. split; [exact Hg|].
    exists cfg, event. rewrite <- (stable_status _ _ _ _ H1). auto. }
  split; [apply send_then_mark_app; [exact H5|apply stm_send, stm_nil]|].
  split.
  { intros g c k' Hm. apply in_app_or in Hm. destruct Hm as [Hm|[Hm|[]]];
      [|discriminate]. rewrite touch_recorded. auto. }
  apply no_send_after_mark_snoc; auto.
Qed.

Lemma pass_inv_fired (s : CTFDataManager) (t : list action) (gid ch : Z)
    (cid k : string) (cfg : guild_config) (event : event) (X : gset string) :
  pass_inv bot now s0 s t ->
  zget gid (guild_configs s0) = Some cfg ->
  get_guild bot gid = true ->
  In (cid, event) (ctf_cache s0) ->
  due now (ctf_status s gid cid) cfg event = Some k ->
  target bot cfg cid k = Some ch ->
  lookup_kind s gid k = Some (PySet X) ->
  contains cid (PySet X) = false ->
  pass_inv bot now s0 (marked gid cid k s)
    (t ++ [Send ch gid cid k; Mark gid cid k]).
Proof.
  intros HJ Hcfg Hg Hin Hdue Htarget HX Hc.
  assert (Hr : recorded s gid cid k = false)
    by (unfold recorded; rewrite HX; exact Hc).
  destruct (pass_inv_not_recorded _ _ _ _ _ HJ Hr) as [Hr0 Hfresh].
  destruct HJ as (H1 & H2 & H3 & H4 & H5 & H6 & H7). unfold pass_inv.
  split; [apply stable_marked; exact H1|].
  split.
  { intros g c k' Hr'. rewrite (marked_recorded _ _ _ _ _ _ _ _ HX).
    rewrite (H2 _ _ _ Hr'). apply orb_true_r. }
  split.
  { intros g c k' Hr'. rewrite (marked_recorded _ _ _ _ _ _ _ _ HX) in Hr'.
    apply orb_true_iff in Hr'. destruct Hr' as [He|Hr'].
    - apply andb_true_iff in He. destruct He as [He Hc'].
      apply andb_true_iff in He. destruct He as [Hg' Hk'].
      apply Z.eqb_eq in Hg'. apply String.eqb_eq in Hk', Hc'. subst.
      right. exists ch. apply in_or_app. right. left. reflexivity.
    - destruct (H3 _ _ _ Hr') as [?|[ch' Hs]]; [left; assumption|].
      right. exists ch'. apply in_or_app. left. exact Hs. }
  split.
  { intros ch' g c k' Hs. apply in_app_or in Hs.
    destruct Hs as [Hs|[Hs|[Hs|[]]]]; [auto| |discriminate].
    inversion Hs; subst. split; [exact Hr0|]. split; [exact Hg|].
    exists cfg, event. rewrite <- (stable_status _ _ _ _ H1). auto. }
  split; [apply send_then_mark_app; [exact H5|apply stm_pair, stm_nil]|].
  split.
  { intros g c k' Hm. rewrite (marked_recorded _ _ _ _ _ _ _ _ HX).
    apply in_app_or in Hm. destruct Hm as [Hm|[Hm|[Hm|[]]]]; [|discriminate|].
    - rewrite (H6 _ _ _ Hm). apply orb_true_r.
    - inversion Hm; subst. rewrite Z.eqb_refl, !String.eqb_refl. reflexivity. }
  apply no_send_after_mark_snoc; auto.
Qed.

Lemma check_event_inv (gid : Z) (cfg : guild_config) (cid : string) (event : event)
    (s : CTFDataManager) (t : list action) :
  zget gid (guild_configs s0) = Some cfg ->
  get_guild bot gid = true ->
  In (cid, event) (ctf_cache s0) ->
  pass_inv bot now s0 s t ->
  pass_inv bot now s0 (state_of (check_event bot now gid (cid, event) s))
    (t ++ trace_of (check_event bot now gid (cid, event) s)).
Proof.
  intros Hcfg Hg Hin HJ.
  assert (Hcfg' : zget gid (guild_configs s) = Some cfg).
  { destruct HJ as ((_ & -> & _) & _). exact Hcfg. }
  pose proof (check_event_shape bot now gid cid event cfg s Hcfg') as Hs.
  destruct Hs; unfold state_of, trace_of; cbn [fst snd]; rewrite ?app_nil_r.
  - exact HJ.
  - exact HJ.
  - apply pass_inv_touch; exact HJ.
  - apply pass_inv_touch; exact HJ.
  - apply pass_inv_touch; exact HJ.
  - eapply pass_inv_send; eauto.
  - eapply pass_inv_fired; eauto.
Qed.

Lemma setup_guild_has_config (gid : Z) (s : CTFDataManager) :
  In gid (map fst (List.filter (fun p => setup_complete (snd p)) (guild_configs s))) ->
  exists cfg, zget gid (guild_configs s) = Some cfg.
Proof.
  intros H. apply in_map_iff in H. destruct H as ([g c] & <- & H).
  apply filter_In in H. destruct H as [H _].
  destruct (zget g (guild_configs s)) as [cfg|] eqn:E; [eauto|].
  exfalso. apply (in_map fst) in H.
  apply (get_In_key Z.eqb Z.eqb_eq) in H. contradiction.
Qed.

Lemma check_guild_inv (gid : Z) (s : CTFDataManager) (t : list action) :
  In gid (map fst (List.filter (fun p => setup_complete (snd p)) (guild_configs s0))) ->
  pass_inv bot now s0 s t ->
  pass_inv bot now s0 (state_of (check_guild bot now gid s))
    (t ++ trace_of (check_guild bot now gid s)).
Proof.
  intros Hgid HJ. unfold check_guild.
  destruct (get_guild bot gid) eqn:Hg; cbn [negb].
  2:{ unfold state_of, trace_of, ret; simpl. rewrite app_nil_r. exact HJ. }
  destruct (setup_guild_has_config _ _ Hgid) as [cfg Hcfg].
  unfold bind, gets.
  pose proof (for_each_inv (pass_inv bot now s0) (check_event bot now gid)
                (ctf_cache s)) as Hloop.
  assert (Hcache : ctf_cache s = ctf_cache s0) by (destruct HJ as ((-> & _) & _); auto).
  specialize (Hloop
    ltac:(intros [c e] s' t' Hin HJ'; apply (check_event_inv gid cfg); auto;
          rewrite <- Hcache; exact Hin) s t HJ).
  destruct (for_each (ctf_cache s) (check_event bot now gid) s) as [[s2 t2] r2].
  exact Hloop.
Qed.

(** The invariant holds of the final state and the whole log. *)
Lemma check_notification_triggers_inv :
  pass_inv bot now s0 (state_of (check_notification_triggers bot now s0))
    (trace_of (check_notification_triggers bot now s0)).
Proof.
  unfold check_notification_triggers, get_setup_guilds, bind, gets.
  pose proof (for_each_inv (pass_inv bot now s0) (check_guild bot now)
                (map fst (List.filter (fun p => setup_complete (snd p)) (guild_configs s0)))
                ltac:(intros g s t Hg HJ; apply check_guild_inv; assumption)
                s0 [] pass_inv_start) as Hloop.
  destruct (for_each _ (check_guild bot now) s0) as [[s2 t2] r2]. exact Hloop.
Qed.
End PassInvariant.

Lemma check_notification_triggers_unfold (bot : Bot) (now : Z) (s : CTFDataManager) :
  check_notification_triggers bot now s
  = for_each (map fst (List.filter (fun p => setup_complete (snd p)) (guild_configs s)))
      (check_guild bot now) s.
Proof.
  unfold check_notification_triggers, get_setup_guilds, bind, gets.
  destruct (for_each _ _ s) as [[s2 t2] r2]. reflexivity.
Qed.

Lemma check_guild_unfold (bot : Bot) (now gid : Z) (s : CTFDataManager) :
  get_guild bot gid = true ->
  check_guild bot now gid s = for_each (ctf_cache s) (check_event bot now gid) s.
Proof.
  intros H. unfold check_guild, bind, gets. rewrite H. cbn [negb].
  destruct (for_each _ _ s) as [[s2 t2] r2]. reflexivity.
Qed.

Lemma setup_guild_listed (gid : Z) (cfg : guild_config) (s : CTFDataManager) :
  zget gid (guild_configs s) = Some cfg -> setup_complete cfg = true ->
  In gid (map fst (List.filter (fun p => setup_complete (snd p)) (guild_configs s))).
Proof.
  intros H Hs. apply (get_Some_In Z.eqb Z.eqb_eq) in H.
  apply in_map_iff. exists (gid, cfg). split; [reflexivity|].
  apply filter_In. auto.
Qed.

(** In a pass that returns, every due notification of a set-up guild that
    the client resolves is sent, unless it was recorded before the pass. *)
Lemma check_notification_triggers_fires (bot : Bot) (now : Z) (s0 : CTFDataManager)
    (gid : Z) (cfg : guild_config) (cid : string) (event : event) (k : string) (ch : Z) :
  outcome_of (check_notification_triggers bot now s0) = Ret tt ->
  zget gid (guild_configs s0) = Some cfg ->
  setup_complete cfg = true ->
  get_guild bot gid = true ->
  In (cid, event) (ctf_cache s0) ->
  due now (ctf_status s0 gid cid) cfg event = Some k ->
  target bot cfg cid k = Some ch ->
  recorded s0 gid cid k = false ->
  In (Send ch gid cid k) (trace_of (check_notification_triggers bot now s0)).
Proof.
  intros Hret Hcfg Hsetup Hg Hin Hdue Htarget Hr0.
  rewrite check_notification_triggers_unfold in *.
  destruct (for_each_visit (pass_inv bot now s0) (check_guild bot now)
              (map fst (List.filter (fun p => setup_complete (snd p)) (guild_configs s0)))
              ltac:(intros g s t Hgl HJ; apply check_guild_inv; assumption)
              s0 [] gid (pass_inv_start bot now s0)
              (setup_guild_listed _ _ _ Hcfg Hsetup) Hret)
    as (s1 & t1 & t2 & HJ1 & Hret1 & ->).
  simpl in HJ1. rewrite (check_guild_unfold _ _ _ _ Hg) in *.
  assert (Hcache : ctf_cache s1 = ctf_cache s0) by (destruct HJ1 as ((-> & _) & _); auto).
  destruct (for_each_visit (pass_inv bot now s0) (check_event bot now gid) (ctf_cache s1)
              ltac:(intros [c e] s t Hc HJ; apply (check_event_inv bot now s0 gid cfg);
                    auto; rewrite <- Hcache; exact Hc)
              s1 t1 (cid, event) HJ1 ltac:(rewrite Hcache; exact Hin) Hret1)
    as (s2 & t3 & t4 & HJ2 & Hret2 & ->).
  assert (Hcfg2 : zget gid (guild_configs s2) = Some cfg).
  { destruct HJ2 as ((_ & -> & _) & _). exact Hcfg. }
  assert (Hst : ctf_status s2 gid cid = ctf_status s0 gid cid).
  { destruct HJ2 as (Hstable & _). apply (stable_status _ _ _ _ Hstable). }
  pose proof (check_event_shape bot now gid cid event cfg s2 Hcfg2) as Hs.
  assert (Hgoal : In (Send ch gid cid k) (t1 ++ t3) \/
                  In (Send ch gid cid k) (trace_of (check_event bot now gid (cid, event) s2))).
  { destruct Hs as [|Hd|k' c Hd Hl Hc|k' c Hd Hl Hc Ht|k' Hd Hrec|k' ch' e Hd Hrec Ht He
                   |k' ch' X Hd Hl Hc Ht];
      unfold outcome_of in Hret2; simpl in Hret2; try discriminate;
      rewrite Hst, Hdue in Hd; try discriminate; inversion Hd; subst k'.
    - left.
      assert (Hrec : recorded s2 gid cid k = true)
        by (unfold recorded; rewrite Hl; exact Hc).
      destruct HJ2 as (_ & _ & H3 & H4 & _).
      destruct (H3 _ _ _ Hrec) as [Hrec0|[ch' Hsend]]; [congruence|].
      destruct (H4 _ _ _ _ Hsend) as (_ & _ & cfg' & event' & Hcfg' & _ & _ & Ht').
      rewrite Hcfg in Hcfg'. inversion Hcfg'; subst cfg'.
      rewrite Htarget in Ht'. inversion Ht'; subst ch'. exact Hsend.
    - congruence.
    - right. rewrite Htarget in Ht. inversion Ht; subst ch'.
      unfold trace_of. simpl. auto. }
  unfold trace_of in *. simpl in *.
  destruct Hgoal as [H|H].
  - apply in_app_or in H. destruct H as [H|H].
    + apply in_or_app. left. exact H.
    + apply in_or_app. right. apply in_or_app. left. apply in_or_app. left. exact H.
  - apply in_or_app. right. apply in_or_app. left. apply in_or_app. right.
    apply in_or_app. left. exact H.
Qed.

(** ** Windows *)

Lemma in_24h_window_iff (h : Q) :
  in_24h_window h = true <-> (23 # 1 <= h)%Q /\ (h <= 25 # 1)%Q.
Proof.
  unfold in_24h_window. rewrite andb_true_iff, !Qle_bool_iff. tauto.
Qed.

Lemma in_1h_window_iff (h : Q) :
  in_1h_window h = true <-> (0 # 1 < h)%Q /\ (h <= 3 # 2)%Q.
Proof.
  unfold in_1h_window. rewrite andb_true_iff, negb_true_iff, Qle_bool_iff.
  split; intros [H1 H2]; split; auto.
  - apply Qnot_le_lt. intros Hle. apply Qle_bool_iff in Hle. congruence.
  - destruct (Qle_bool h (0 # 1)) eqn:E; [|reflexivity].
    apply Qle_bool_iff in E. exfalso. apply (Qlt_not_le _ _ H1 E).
Qed.

(** The two windows do not meet. *)
Lemma windows_disjoint (h : Q) : in_1h_window h = true -> in_24h_window h = false.
Proof.
  intros H1. destruct (in_24h_window h) eqn:H24; [|reflexivity].
  apply in_1h_window_iff in H1. apply in_24h_window_iff in H24.
  destruct H1 as [_ H1], H24 as [H24 _].
  pose proof (Qle_trans _ _ _ H24 H1) as H. vm_compute in H. exfalso. apply H. reflexivity.
Qed.

(** ** The kind that is due *)

Lemma due_24h (now : Z) (cfg : guild_config) (event : event) :
  due now Untouched cfg event = Some "24h" <->
  exists ts, start_of event = Some ts /\
             in_24h_window (hours_until ts now) = true /\
             truthy (setting_of cfg "notification_24h") = true.
Proof.
  unfold due. destruct (start_of event) as [ts|].
  2:{ split; [discriminate|intros (? & ? & _); discriminate]. }
  split.
  - intros H. exists ts. split; [reflexivity|].
    destruct (in_24h_window (hours_until ts now)); cbn [andb] in *.
    + destruct (truthy (setting_of cfg "notification_24h")); [auto|].
      destruct (_ && _); discriminate.
    + destruct (_ && _); discriminate.
  - intros (ts' & E & H1 & H2). inversion E; subst ts'. rewrite H1, H2. reflexivity.
Qed.

Lemma due_1h (now : Z) (cfg : guild_config) (event : event) :
  due now Untouched cfg event = Some "1h" <->
  exists ts, start_of event = Some ts /\
             in_1h_window (hours_until ts now) = true /\
             truthy (setting_of cfg "notification_1h") = true.
Proof.
  unfold due. destruct (start_of event) as [ts|].
  2:{ split; [discriminate|intros (? & ? & _); discriminate]. }
  split.
  - intros H. exists ts. split; [reflexivity|].
    destruct (in_24h_window (hours_until ts now) && _); [discriminate|].
    destruct (in_1h_window (hours_until ts now)); cbn [andb] in *; [|discriminate].
    destruct (truthy (setting_of cfg "notification_1h")); [auto|discriminate].
  - intros (ts' & E & H1 & H2). inversion E; subst ts'.
    rewrite (windows_disjoint _ H1), H1, H2. reflexivity.
Qed.

Lemma due_joined (now : Z) (cfg : guild_config) (event : event) (k : string) :
  due now Joined cfg event = Some k <->
  k = "channel_1h" /\
  exists ts, start_of event = Some ts /\ in_1h_window (hours_until ts now) = true.
Proof.
  unfold due. destruct (start_of event) as [ts|].
  2:{ split; [discriminate|intros (_ & ? & ? & _); discriminate]. }
  destruct (in_1h_window (hours_until ts now)) eqn:E.
  - split.
    + intros H. inversion H. eauto.
    + intros [-> _]. reflexivity.
  - split; [discriminate|].
    intros (_ & ts' & E' & H). inversion E'; subst. congruence.
Qed.

Lemma usable_Some (bot : Bot) (ch : Z) :
  ch <> 0 -> get_channel bot ch = true -> usable bot (Some ch) = Some ch.
Proof.
  intros H0 Hc. unfold usable. rewrite Hc.
  destruct (Z.eqb_spec ch 0); [contradiction|reflexivity].
Qed.

Lemma In_cache_unique (cache : pydict string event) (cid : string) (e e' : event) :
  List.NoDup (map fst cache) -> In (cid, e) cache -> In (cid, e') cache -> e = e'.
Proof.
  intros Hnd H H'.
  apply (In_get_nodup String.eqb String.eqb_eq _ _ _ Hnd) in H, H'. congruence.
Qed.

(** ** A second pass has nothing to do *)

Lemma touch_entry_kept (gid g : Z) (s : CTFDataManager) :
  kget (Py.KInt g) (sent_notifications s) <> None ->
  kget (Py.KInt g) (sent_notifications (touch gid s)) <> None.
Proof.
  unfold touch, get_guild_notifications, state_of.
  destruct (kget (Py.KInt gid) (sent_notifications s)) eqn:E; [auto|].
  cbn [fst with_sent sent_notifications]. intros H.
  rewrite (get_set_other Py.key_eqb key_eqb_eq); [exact H|].
  intros Heq. inversion Heq; subst. contradiction.
Qed.

Lemma marked_entry_kept (gid g : Z) (cid k : string) (s : CTFDataManager) :
  kget (Py.KInt g) (sent_notifications s) <> None ->
  kget (Py.KInt g) (sent_notifications (marked gid cid k s)) <> None.
Proof.
  intros H. apply (touch_entry_kept gid) in H.
  unfold marked, state_of, mark_notification_sent, bind.
  destruct (get_guild_notifications_eq gid s) as (e & -> & Hget & He).
  destruct (sget k e) as [[X|l]|]; cbn [fst snd modify log raise with_sent
    sent_notifications]; try exact H.
  destruct (Z.eq_dec g gid) as [->|Hne].
  - rewrite (get_set_same Py.key_eqb key_eqb_eq). discriminate.
  - rewrite (get_set_other Py.key_eqb key_eqb_eq) by congruence. exact H.
Qed.

Lemma grows_refl (s : CTFDataManager) : grows s s.
Proof.
  split; [apply stable_refl|]. split; [auto|].
  intros g k c H. exists c. auto.
Qed.


Lemma grows_touch (gid : Z) (s : CTFDataManager) : grows s (touch gid s).
Proof.
  split; [apply stable_touch, stable_refl|].
  split; [intros g; apply touch_entry_kept|].
  intros g k c H. exists c. rewrite touch_lookup. auto.
Qed.

Lemma grows_marked (gid : Z) (cid k : string) (X : gset string) (s : CTFDataManager) :
  lookup_kind s gid k = Some (PySet X) -> grows s (marked gid cid k s).
Proof.
  intros HX. split; [apply stable_marked, stable_refl|].
  split; [intros g; apply marked_entry_kept|].
  intros g k' c H. rewrite (marked_lookup _ _ _ _ _ _ _ HX).
  destruct (Z.eqb_spec g gid) as [->|]; cbn [andb]; [|eauto].
  destruct (String.eqb_spec k' k) as [->|]; [|eauto].
  rewrite HX in H. inversion H; subst c. eexists. split; [reflexivity|].
  intros x. cbn [contains]. rewrite !bool_decide_eq_true. apply elem_of_union_r.
Qed.

Lemma check_event_grows (bot : Bot) (now gid : Z) (cfg : guild_config) (cid : string)
    (event : event) (s : CTFDataManager) :
  zget gid (guild_configs s) = Some cfg ->
  grows s (state_of (check_event bot now gid (cid, event) s)).
Proof.
  intros H. destruct (check_event_shape bot now gid cid event cfg s H);
    unfold state_of; cbn [fst];
    (apply grows_refl || apply grows_touch || (eapply grows_marked; eassumption)).
Qed.















(** ** Order of sending and marking *)




Lemma primary_target (bot : Bot) (cfg : guild_config) (cid kind : string) (ch : Z) :
  String.eqb kind "channel_1h" = false ->
  setup_complete cfg = true -> channel_id cfg = Some ch ->
  ch <> 0 -> get_channel bot ch = true ->
  target bot cfg cid kind = Some ch.
Proof.
  intros Hk Hs Hc H0 Hr. unfold target. rewrite Hk, Hs, Hc.
  apply usable_Some; assumption.
Qed.

(** What the invariant tells about a [Send] of the log for a pair whose
    event is the only one of its id in the cache. *)
Lemma sent_was_due (bot : Bot) (now : Z) (s : CTFDataManager) (gid : Z)
    (cfg : guild_config) (cid : string) (event : event) (k : string) (ch : Z) :
  zget gid (guild_configs s) = Some cfg ->
  List.NoDup (map fst (ctf_cache s)) ->
  In (cid, event) (ctf_cache s) ->
  In (Send ch gid cid k) (trace_of (check_notification_triggers bot now s)) ->
  recorded s gid cid k = false /\
  due now (ctf_status s gid cid) cfg event = Some k /\
  target bot cfg cid k = Some ch.
Proof.
  intros Hcfg Hnd Hin Hsend.
  destruct (check_notification_triggers_inv bot now s) as (_ & _ & _ & H4 & _).
  destruct (H4 _ _ _ _ Hsend) as (Hrec & _ & cfg' & event' & Hcfg' & Hin' & Hdue & Ht).
  rewrite Hcfg in Hcfg'. inversion Hcfg'; subst cfg'.
  rewrite (In_cache_unique _ _ _ _ Hnd Hin Hin'). auto.
Qed.

(** C4.  For a guild that completed setup with the 24h alert enabled,
    which the client resolves together with its primary channel, and a
    cached event (the only one of its id, the cache being a dictionary)
    with a usable start that the guild has neither joined nor skipped: a
    pass that returns sends the 24h alert to the primary channel if and
    only if the start is at least 23 and at most 25 hours away and the
    alert is not yet recorded. *)
Theorem check_notification_triggers_24h
    (bot : Bot) (now : Z) (s : CTFDataManager) (gid : Z) (cfg : guild_config)
    (cid : string) (event : event) (ts ch : Z) :
  zget gid (guild_configs s) = Some cfg ->
  setup_complete cfg = true ->
  truthy (setting_of cfg "notification_24h") = true ->
  List.NoDup (map fst (ctf_cache s)) ->
  In (cid, event) (ctf_cache s) ->
  start_of event = Some ts ->
  ctf_status s gid cid = Untouched ->
  get_guild bot gid = true ->
  channel_id cfg = Some ch -> ch <> 0 -> get_channel bot ch = true ->
  outcome_of (check_notification_triggers bot now s) = Ret tt ->
  (In (Send ch gid cid "24h") (trace_of (check_notification_triggers bot now s))
   <-> ((23 # 1 <= hours_until ts now)%Q /\ (hours_until ts now <= 25 # 1)%Q) /\
       recorded s gid cid "24h" = false).
Proof.
  intros Hcfg Hsetup Hon Hnd Hin Hstart Hst Hg Hch H0 Hres Hret.
  assert (Ht : target bot cfg cid "24h" = Some ch)
    by (apply primary_target; auto).
  split.
  - intros Hsend.
    destruct (sent_was_due _ _ _ _ _ _ _ _ _ Hcfg Hnd Hin Hsend) as (Hrec & Hdue & _).
    rewrite Hst in Hdue. apply due_24h in Hdue.
    destruct Hdue as (ts' & Hs' & Hw & _). rewrite Hstart in Hs'. inversion Hs'; subst ts'.
    split; [apply in_24h_window_iff; exact Hw|exact Hrec].
  - intros [Hw Hrec]. apply (check_notification_triggers_fires _ _ _ _ cfg _ event); auto.
    rewrite Hst. apply due_24h. exists ts. rewrite in_24h_window_iff. auto.
Qed.

(** Exactly 23 hours before the start the alert goes out. *)
Lemma check_notification_triggers_24h_witness :
  In (Send 100 5 "HackCTF_1" "24h")
     (trace_of (check_notification_triggers online (new_year + hour_us) scenario)).
Proof.
  apply (check_notification_triggers_24h online (new_year + hour_us) scenario 5 guild5
           "HackCTF_1" hack_event 1704153600 100); try reflexivity.
  - repeat constructor. simpl. tauto.
  - left. reflexivity.
  - lia.
  - split; [|reflexivity]. split; vm_compute; discriminate.
Defined.

(** Against C4 as stated: a set-up guild with the alert enabled and an
    event 24 hours ahead with nothing recorded, and no alert, once because
    the client does not resolve the guild and once because the guild has
    joined the event. *)
Lemma check_notification_triggers_24h_silent :
  setup_complete guild5 = true /\
  truthy (setting_of guild5 "notification_24h") = true /\
  start_of hack_event = Some 1704153600 /\
  in_24h_window (hours_until 1704153600 new_year) = true /\
  recorded scenario 5 "HackCTF_1" "24h" = false /\
  recorded scenario_joined 5 "HackCTF_1" "24h" = false /\
  check_notification_triggers no_guild new_year scenario = (scenario, [], Ret tt) /\
  check_notification_triggers online new_year scenario_joined
  = (scenario_joined, [], Ret tt).
Proof. vm_compute. repeat split. Qed.

(** C5.  For a guild that completed setup with the 1h alert enabled, which
    the client resolves together with its primary channel, and a cached
    event (the only one of its id, the cache being a dictionary) with a
    usable start that the guild has neither joined nor skipped: a pass that
    returns sends the 1h alert to the primary channel if and only if the
    start is more than 0 and at most 1.5 hours away and the alert is not yet
    recorded. *)
Theorem check_notification_triggers_1h
    (bot : Bot) (now : Z) (s : CTFDataManager) (gid : Z) (cfg : guild_config)
    (cid : string) (event : event) (ts ch : Z) :
  zget gid (guild_configs s) = Some cfg ->
  setup_complete cfg = true ->
  truthy (setting_of cfg "notification_1h") = true ->
  List.NoDup (map fst (ctf_cache s)) ->
  In (cid, event) (ctf_cache s) ->
  start_of event = Some ts ->
  ctf_status s gid cid = Untouched ->
  get_guild bot gid = true ->
  channel_id cfg = Some ch -> ch <> 0 -> get_channel bot ch = true ->
  outcome_of (check_notification_triggers bot now s) = Ret tt ->
  (In (Send ch gid cid "1h") (trace_of (check_notification_triggers bot now s))
   <-> ((0 # 1 < hours_until ts now)%Q /\ (hours_until ts now <= 3 # 2)%Q) /\
       recorded s gid cid "1h" = false).
Proof.
  intros Hcfg Hsetup Hon Hnd Hin Hstart Hst Hg Hch H0 Hres Hret.
  assert (Ht : target bot cfg cid "1h" = Some ch)
    by (apply primary_target; auto).
  split.
  - intros Hsend.
    destruct (sent_was_due _ _ _ _ _ _ _ _ _ Hcfg Hnd Hin Hsend) as (Hrec & Hdue & _).
    rewrite Hst in Hdue. apply due_1h in Hdue.
    destruct Hdue as (ts' & Hs' & Hw & _). rewrite Hstart in Hs'. inversion Hs'; subst ts'.
    split; [apply in_1h_window_iff; exact Hw|exact Hrec].
  - intros [Hw Hrec]. apply (check_notification_triggers_fires _ _ _ _ cfg _ event); auto.
    rewrite Hst. apply due_1h. exists ts. rewrite in_1h_window_iff. auto.
Qed.

(** Exactly one hour and a half before the start the alert goes out. *)
Lemma check_notification_triggers_1h_witness :
  In (Send 100 5 "HackCTF_1" "1h")
     (trace_of (check_notification_triggers online
                  (new_year + 22 * hour_us + hour_us / 2) scenario)).
Proof.
  apply (check_notification_triggers_1h online (new_year + 22 * hour_us + hour_us / 2)
           scenario 5 guild5 "HackCTF_1" hack_event 1704153600 100); try reflexivity.
  - repeat constructor. simpl. tauto.
  - left. reflexivity.
  - lia.
  - split; [|reflexivity]. split; vm_compute; [reflexivity|discriminate].
Defined.

(** Against C5 as stated: a set-up guild with the alert enabled and an
    event one hour ahead with nothing recorded, and no 1h alert, once
    because the client does not resolve the guild and once because the
    guild has joined the event (it gets the channel reminder instead). *)
Lemma check_notification_triggers_1h_silent :
  setup_complete guild5_bound = true /\
  truthy (setting_of guild5_bound "notification_1h") = true /\
  start_of hack_event = Some 1704153600 /\
  in_1h_window (hours_until 1704153600 (new_year + 23 * hour_us)) = true /\
  recorded scenario 5 "HackCTF_1" "1h" = false /\
  recorded scenario_joined 5 "HackCTF_1" "1h" = false /\
  check_notification_triggers no_guild (new_year + 23 * hour_us) scenario
  = (scenario, [], Ret tt) /\
  trace_of (check_notification_triggers online (new_year + 23 * hour_us) scenario_joined)
  = [Send 200 5 "HackCTF_1" "channel_1h"; Mark 5 "HackCTF_1" "channel_1h"].
Proof. vm_compute. repeat split. Qed.

(** C6.  For a guild that completed setup and that the client resolves,
    and a cached event with a usable start that the guild has joined: when
    the start is more than 0 and at most 1.5 hours away, the reminder is not
    yet recorded, and the channel bound to the event has a non-zero id that
    the client resolves, a pass that returns sends the reminder to that
    channel, whatever has been recorded for the 24h and 1h alerts and
    whatever the alert settings are; and every message of the pass for this
    pair is that reminder. *)
Theorem check_notification_triggers_channel_reminder
    (bot : Bot) (now : Z) (s : CTFDataManager) (gid : Z) (cfg : guild_config)
    (cid : string) (event : event) (ts ch : Z) :
  zget gid (guild_configs s) = Some cfg ->
  setup_complete cfg = true ->
  In (cid, event) (ctf_cache s) ->
  start_of event = Some ts ->
  ctf_status s gid cid = Joined ->
  (0 # 1 < hours_until ts now)%Q /\ (hours_until ts now <= 3 # 2)%Q ->
  recorded s gid cid "channel_1h" = false ->
  sget cid (ctf_channels cfg) = Some ch -> ch <> 0 -> get_channel bot ch = true ->
  get_guild bot gid = true ->
  outcome_of (check_notification_triggers bot now s) = Ret tt ->
  In (Send ch gid cid "channel_1h")
     (trace_of (check_notification_triggers bot now s)) /\
  (forall ch' k,
      In (Send ch' gid cid k) (trace_of (check_notification_triggers bot now s)) ->
      k = "channel_1h" /\ ch' = ch).
Proof.
  intros Hcfg Hsetup Hin Hstart Hst Hw Hrec Hbound H0 Hres Hg Hret.
  assert (Ht : target bot cfg cid "channel_1h" = Some ch).
  { unfold target. cbn [String.eqb Ascii.eqb Bool.eqb]. rewrite Hbound.
    apply usable_Some; assumption. }
  split.
  - apply (check_notification_triggers_fires _ _ _ _ cfg _ event); auto.
    rewrite Hst. apply due_joined. split; [reflexivity|].
    exists ts. rewrite in_1h_window_iff. auto.
  - intros ch' k Hsend.
    destruct (check_notification_triggers_inv bot now s) as (_ & _ & _ & H4 & _).
    destruct (H4 _ _ _ _ Hsend) as (_ & _ & cfg' & event' & Hcfg' & _ & Hdue & Ht').
    rewrite Hcfg in Hcfg'. inversion Hcfg'; subst cfg'.
    rewrite Hst in Hdue. apply due_joined in Hdue. destruct Hdue as [-> _].
    split; [reflexivity|]. congruence.
Qed.

Lemma check_notification_triggers_channel_reminder_witness :
  In (Send 200 5 "HackCTF_1" "channel_1h")
     (trace_of (check_notification_triggers online (new_year + 23 * hour_us)
                  scenario_joined)).
Proof.
  apply (check_notification_triggers_channel_reminder online (new_year + 23 * hour_us)
           scenario_joined 5 guild5_bound "HackCTF_1" hack_event 1704153600 200);
    try reflexivity.
  - left. reflexivity.
  - split; vm_compute; [reflexivity|discriminate].
  - lia.
Defined.

(** Against C6 as stated: the guild has joined, the event starts in one
    hour, no reminder is recorded and channel 200 is bound to the event, but
    the client does not resolve that channel and nothing is sent; and when
    it does resolve it, the reminder is all that is sent for the pair,
    although the 1h alert is enabled and not recorded either. *)
Lemma check_notification_triggers_channel_reminder_silent :
  ctf_status scenario_joined 5 "HackCTF_1" = Joined /\
  in_1h_window (hours_until 1704153600 (new_year + 23 * hour_us)) = true /\
  recorded scenario_joined 5 "HackCTF_1" "channel_1h" = false /\
  sget "HackCTF_1" (ctf_channels guild5_bound) = Some 200 /\
  trace_of (check_notification_triggers lost_channel (new_year + 23 * hour_us)
              scenario_joined) = [] /\
  truthy (setting_of guild5_bound "notification_1h") = true /\
  recorded scenario_joined 5 "HackCTF_1" "1h" = false /\
  trace_of (check_notification_triggers online (new_year + 23 * hour_us) scenario_joined)
  = [Send 200 5 "HackCTF_1" "channel_1h"; Mark 5 "HackCTF_1" "channel_1h"].
Proof. vm_compute. repeat split. Qed.

(** ** The boundaries of the windows on the scenario *)

(** The 24h alert goes out 25.0 and 23.0 hours before the start, and not
    one microsecond earlier, nor 25.01 or 22.99 hours before it. *)
Lemma window_24h_boundaries :
  let fired := [Send 100 5 "HackCTF_1" "24h"; Mark 5 "HackCTF_1" "24h"] in
  let at_seconds_before n := (1704153600 - n) * 1000000 in
  trace_of (check_notification_triggers online (at_seconds_before 90000) scenario)
  = fired /\
  trace_of (check_notification_triggers online (at_seconds_before 82800) scenario)
  = fired /\
  trace_of (check_notification_triggers online (at_seconds_before 90000 - 1) scenario)
  = [] /\
  trace_of (check_notification_triggers online (at_seconds_before 90036) scenario)
  = [] /\
  trace_of (check_notification_triggers online (at_seconds_before 82764) scenario)
  = [].
Proof. vm_compute. repeat split. Qed.

(** The 1h alert goes out 1.5 hours and one microsecond before the start,
    and not at the start nor 1.5 hours and a microsecond before it. *)
Lemma window_1h_boundaries :
  let fired := [Send 100 5 "HackCTF_1" "1h"; Mark 5 "HackCTF_1" "1h"] in
  let at_seconds_before n := (1704153600 - n) * 1000000 in
  trace_of (check_notification_triggers online (at_seconds_before 5400) scenario)
  = fired /\
  trace_of (check_notification_triggers online (at_seconds_before 0 - 1) scenario)
  = fired /\
  trace_of (check_notification_triggers online (at_seconds_before 0) scenario)
  = [] /\
  trace_of (check_notification_triggers online (at_seconds_before 5400 - 1) scenario)
  = [].
Proof. vm_compute. repeat split. Qed.

(** ** Guild configuration *)

Lemma get_guild_config_closed (gid : Z) (s : CTFDataManager) :
  exists s', get_guild_config gid s = (s', [], Ret (config_of s gid)) /\
             zget gid (guild_configs s') = Some (config_of s gid) /\
             (forall g, config_of s' g = config_of s g) /\
             setup_guilds s' = setup_guilds s /\
             (forall g c, zget g (guild_configs s) = Some c ->
                          zget g (guild_configs s') = Some c) /\
             ctf_cache s' = ctf_cache s /\
             sent_notifications s' = sent_notifications s /\
             guild_ctf_status s' = guild_ctf_status s.
Proof.
  unfold get_guild_config, config_of, setup_guilds.
  destruct (zget gid (guild_configs s)) as [c|] eqn:E.
  - exists s. rewrite E. repeat split; auto.
  - eexists. split; [reflexivity|]. cbn [with_configs guild_configs ctf_cache
      sent_notifications guild_ctf_status].
    split; [apply (get_set_same Z.eqb Z.eqb_eq)|].
    split.
    { intros g. destruct (Z.eq_dec g gid) as [->|Hne].
      - rewrite (get_set_same Z.eqb Z.eqb_eq), E. reflexivity.
      - rewrite (get_set_other Z.eqb Z.eqb_eq) by exact Hne. reflexivity. }
    split.
    { rewrite (set_fresh Z.eqb Z.eqb_eq).
      - rewrite List.filter_app, map_app. simpl. rewrite app_nil_r. reflexivity.
      - intros Hin. apply (get_In_key Z.eqb Z.eqb_eq) in Hin. contradiction. }
    split; [|auto].
    intros g c Hg. rewrite (get_set_other Z.eqb Z.eqb_eq); [exact Hg|].
    intros ->. congruence.
Qed.

Lemma get_guild_setting_outcome (gid : Z) (name : string) (s : CTFDataManager) :
  outcome_of (get_guild_setting gid name s) = Ret (setting_of (config_of s gid) name).
Proof.
  unfold get_guild_setting, bind.
  destruct (get_guild_config_closed gid s) as (s' & -> & _). reflexivity.
Qed.

Lemma get_guild_channel_id_outcome (gid : Z) (s : CTFDataManager) :
  outcome_of (get_guild_channel_id gid s)
  = Ret (if setup_complete (config_of s gid) then channel_id (config_of s gid)
         else None).
Proof.
  unfold get_guild_channel_id, is_guild_setup_complete, bind.
  destruct (get_guild_config_closed gid s) as (s' & -> & Hget & Hcfg & _).
  cbn [ret]. destruct (setup_complete (config_of s gid)); cbn [negb]; [|reflexivity].
  destruct (get_guild_config_closed gid s') as (s'' & -> & _).
  rewrite Hcfg. reflexivity.
Qed.

Lemma update_guild_config_closed (gid : Z) (f : guild_config -> guild_config)
    (s : CTFDataManager) :
  update_guild_config gid f s
  = (with_configs (zset gid (f (config_of s gid)) (guild_configs s)) s, [], Ret tt).
Proof.
  unfold update_guild_config, bind, get_guild_config, modify, config_of.
  destruct (zget gid (guild_configs s)) as [c|] eqn:E; cbn [app].
  - reflexivity.
  - unfold with_configs; simpl. do 3 f_equal.
    induction (guild_configs s) as [|[k v] l IH]; simpl in *.
    + rewrite Z.eqb_refl. reflexivity.
    + destruct (gid =? k) eqn:Ek; [discriminate|]. simpl. rewrite Ek.
      rewrite IH by exact E. reflexivity.
Qed.

Lemma update_config_of (gid : Z) (f : guild_config -> guild_config)
    (s : CTFDataManager) (g : Z) :
  config_of (state_of (update_guild_config gid f s)) g
  = if g =? gid then f (config_of s gid) else config_of s g.
Proof.
  rewrite update_guild_config_closed. unfold state_of, config_of at 1.
  cbn [fst with_configs guild_configs].
  destruct (Z.eqb_spec g gid) as [->|Hne].
  - rewrite (get_set_same Z.eqb Z.eqb_eq). reflexivity.
  - rewrite (get_set_other Z.eqb Z.eqb_eq) by exact Hne. reflexivity.
Qed.

Lemma update_other_stores (gid : Z) (f : guild_config -> guild_config)
    (s : CTFDataManager) :
  ctf_cache (state_of (update_guild_config gid f s)) = ctf_cache s /\
  sent_notifications (state_of (update_guild_config gid f s)) = sent_notifications s /\
  guild_ctf_status (state_of (update_guild_config gid f s)) = guild_ctf_status s.
Proof. rewrite update_guild_config_closed. unfold state_of. simpl. auto. Qed.

(** X1.  After [set_guild_channel_id gid channel], whatever the state was,
    the setup of the guild is complete, [get_guild_channel_id] returns the
    channel, the guild is among [get_setup_guilds], its settings, channel
    bindings and credentials are as before, and the configuration of every
    other guild and the three other stores are untouched. *)
Theorem set_guild_channel_id_completes_setup (gid channel : Z) (s : CTFDataManager) :
  let s' := state_of (set_guild_channel_id gid channel s) in
  outcome_of (is_guild_setup_complete gid s') = Ret true /\
  outcome_of (get_guild_channel_id gid s') = Ret (Some channel) /\
  (forall l, outcome_of (get_setup_guilds s') = Ret l -> In gid l) /\
  settings (config_of s' gid) = settings (config_of s gid) /\
  ctf_channels (config_of s' gid) = ctf_channels (config_of s gid) /\
  ctf_credentials (config_of s' gid) = ctf_credentials (config_of s gid) /\
  (forall g, g <> gid -> zget g (guild_configs s') = zget g (guild_configs s)) /\
  ctf_cache s' = ctf_cache s /\ sent_notifications s' = sent_notifications s /\
  guild_ctf_status s' = guild_ctf_status s.
Proof.
  intros s'. subst s'. unfold set_guild_channel_id.
  set (f := fun c : guild_config => _).
  pose proof (update_config_of gid f s gid) as Hc. rewrite Z.eqb_refl in Hc.
  assert (Hz : zget gid (guild_configs (state_of (update_guild_config gid f s)))
               = Some (f (config_of s gid))).
  { rewrite update_guild_config_closed. unfold state_of. simpl.
    apply (get_set_same Z.eqb Z.eqb_eq). }
  split.
  { unfold is_guild_setup_complete, bind.
    rewrite (get_guild_config_has _ _ _ Hz). reflexivity. }
  split.
  { rewrite get_guild_channel_id_outcome, Hc. reflexivity. }
  split.
  { intros l Hl. unfold get_setup_guilds, gets, outcome_of in Hl. simpl in Hl.
    inversion Hl; subst l. eapply setup_guild_listed; [exact Hz|reflexivity]. }
  rewrite Hc. repeat split; try reflexivity.
  - intros g Hne. rewrite update_guild_config_closed. unfold state_of. simpl.
    apply (get_set_other Z.eqb Z.eqb_eq). exact Hne.
  - apply update_other_stores.
  - apply update_other_stores.
  - apply update_other_stores.
Qed.

(** X2.  Reading the configuration of a guild never changes
    [get_setup_guilds] nor an existing configuration; for a guild not seen
    before it registers and returns the default configuration: setup not
    complete, no channel, and the settings of [DEFAULT_CONFIG]. *)
Theorem get_guild_config_lazy_default (gid : Z) (s : CTFDataManager) :
  let r := get_guild_config gid s in
  outcome_of (get_setup_guilds (state_of r)) = outcome_of (get_setup_guilds s) /\
  (forall g c, zget g (guild_configs s) = Some c ->
               zget g (guild_configs (state_of r)) = Some c) /\
  (zget gid (guild_configs s) = None ->
   outcome_of r = Ret default_guild_config /\
   zget gid (guild_configs (state_of r)) = Some default_guild_config /\
   outcome_of (is_guild_setup_complete gid s) = Ret false /\
   outcome_of (get_guild_channel_id gid s) = Ret None /\
   forall name, outcome_of (get_guild_setting gid name s)
                = Ret (sget name DEFAULT_CONFIG)).
Proof.
  intros r. subst r.
  destruct (get_guild_config_closed gid s)
    as (s' & E & Hget & _ & Hsetup & Hkeep & _).
  rewrite E. unfold state_of, outcome_of at 1 2. cbn [fst snd].
  split.
  { unfold get_setup_guilds, gets. simpl. fold (setup_guilds s') (setup_guilds s).
    rewrite Hsetup. reflexivity. }
  split; [exact Hkeep|].
  intros Hnone.
  assert (Hc : config_of s gid = default_guild_config)
    by (unfold config_of; rewrite Hnone; reflexivity).
  rewrite Hc in *. split; [reflexivity|]. split; [exact Hget|].
  split.
  { unfold is_guild_setup_complete, bind. rewrite E. reflexivity. }
  split.
  { rewrite get_guild_channel_id_outcome, Hc. reflexivity. }
  intros name. rewrite get_guild_setting_outcome, Hc. unfold setting_of.
  cbn [settings default_guild_config].
  destruct (sget name DEFAULT_CONFIG); reflexivity.
Qed.

Lemma get_guild_config_lazy_default_witness :
  outcome_of (get_guild_config 7 scenario) = Ret default_guild_config /\
  outcome_of (get_guild_setting 7 "notification_24h" scenario) = Ret (Some (SBool true)).
Proof.
  destruct (get_guild_config_lazy_default 7 scenario) as (_ & _ & H).
  destruct (H eq_refl) as (H1 & _ & _ & _ & H5).
  split; [exact H1|]. rewrite H5. reflexivity.
Defined.

(** X3.  After [set_guild_setting gid name value], [get_guild_setting]
    returns the value for that guild and name, and what it returned before
    for every other guild or name; the setup flag and the channel of every
    guild are as before. *)
Theorem set_guild_setting_get (gid : Z) (name : string) (value : setting_value)
    (s : CTFDataManager) (g : Z) (name' : string) :
  let s' := state_of (set_guild_setting gid name value s) in
  outcome_of (get_guild_setting g name' s')
  = (if (g =? gid) && String.eqb name' name then Ret (Some value)
     else outcome_of (get_guild_setting g name' s)) /\
  outcome_of (get_guild_channel_id g s') = outcome_of (get_guild_channel_id g s) /\
  outcome_of (is_guild_setup_complete g s') = outcome_of (is_guild_setup_complete g s).
Proof.
  intros s'. subst s'. unfold set_guild_setting.
  set (f := fun c : guild_config => _).
  pose proof (update_config_of gid f s g) as Hc.
  split; [|split].
  - rewrite !get_guild_setting_outcome, Hc.
    destruct (Z.eqb_spec g gid) as [->|Hne]; cbn [andb]; [|reflexivity].
    unfold setting_of, f; cbn [settings].
    destruct (String.eqb_spec name' name) as [->|Hn].
    + rewrite (get_set_same String.eqb String.eqb_eq). reflexivity.
    + rewrite (get_set_other String.eqb String.eqb_eq) by exact Hn. reflexivity.
  - rewrite !get_guild_channel_id_outcome, Hc.
    destruct (Z.eqb_spec g gid) as [->|Hne]; reflexivity.
  - unfold is_guild_setup_complete, bind.
    destruct (get_guild_config_closed g (state_of (update_guild_config gid f s)))
      as (s1 & -> & _).
    destruct (get_guild_config_closed g s) as (s2 & -> & _).
    rewrite Hc. destruct (Z.eqb_spec g gid) as [->|Hne]; reflexivity.
Qed.

(** X4.  After [register_ctf_channel gid ctf_id channel], [get_ctf_channel]
    returns the channel for that guild and event, and what it returned
    before for every other guild or event. *)
Theorem register_ctf_channel_get (gid : Z) (ctf_id : string) (channel : Z)
    (s : CTFDataManager) (g : Z) (ctf_id' : string) :
  outcome_of (get_ctf_channel g ctf_id'
                (state_of (register_ctf_channel gid ctf_id channel s)))
  = if (g =? gid) && String.eqb ctf_id' ctf_id then Ret (Some channel)
    else outcome_of (get_ctf_channel g ctf_id' s).
Proof.
  unfold register_ctf_channel. set (f := fun c : guild_config => _).
  pose proof (update_config_of gid f s g) as Hc.
  unfold get_ctf_channel, bind.
  destruct (get_guild_config_closed g (state_of (update_guild_config gid f s)))
    as (s1 & -> & _).
  destruct (get_guild_config_closed g s) as (s2 & -> & _).
  rewrite Hc. unfold outcome_of; cbn [snd ret app].
  destruct (Z.eqb_spec g gid) as [->|Hne]; cbn [andb]; [|reflexivity].
  unfold f; cbn [ctf_channels].
  destruct (String.eqb_spec ctf_id' ctf_id) as [->|Hn].
  - rewrite (get_set_same String.eqb String.eqb_eq). reflexivity.
  - rewrite (get_set_other String.eqb String.eqb_eq) by exact Hn. reflexivity.
Qed.

(** X5.  After [/team_details] with a user and an e-mail,
    [get_guild_credentials] returns them for that guild with the password
    ["random"], and what it returned before for every other guild. *)
Theorem slash_team_details_get (gid : Z) (user email : string) (s : CTFDataManager)
    (g : Z) :
  outcome_of (get_guild_credentials g (state_of (slash_team_details gid user email s)))
  = if g =? gid
    then Ret {| cred_user := user; cred_pass := "random"; cred_email := email |}
    else outcome_of (get_guild_credentials g s).
Proof.
  unfold slash_team_details, set_guild_credentials.
  set (f := fun c : guild_config => _).
  pose proof (update_config_of gid f s g) as Hc.
  unfold get_guild_credentials, bind.
  destruct (get_guild_config_closed g (state_of (update_guild_config gid f s)))
    as (s1 & -> & _).
  destruct (get_guild_config_closed g s) as (s2 & -> & _).
  rewrite Hc. unfold outcome_of; cbn [snd ret app].
  destruct (Z.eqb_spec g gid) as [->|Hne]; reflexivity.
Qed.

(** ** The notification store *)

(** X6.  When [mark_notification_sent gid cid kind] returns,
    [has_notification_been_sent] is [True] for that tuple and is what it
    was before for every other tuple. *)
Theorem mark_notification_sent_then_has (gid : Z) (cid kind : string)
    (s : CTFDataManager) (g : Z) (c k : string) :
  outcome_of (mark_notification_sent gid cid kind s) = Ret tt ->
  outcome_of (has_notification_been_sent g c k
                (state_of (mark_notification_sent gid cid kind s)))
  = if (g =? gid) && String.eqb k kind && String.eqb c cid then Ret true
    else outcome_of (has_notification_been_sent g c k s).
Proof.
  intros Hret. rewrite mark_notification_sent_eq in Hret.
  destruct (lookup_kind s gid kind) as [[X|l]|] eqn:El; try discriminate.
  fold (marked gid cid kind s).
  rewrite !has_notification_been_sent_eq. unfold outcome_of; cbn [snd].
  rewrite (marked_lookup gid cid kind X s g k El).
  destruct (Z.eqb_spec g gid) as [->|Hg]; cbn [andb]; [|reflexivity].
  destruct (String.eqb_spec k kind) as [->|Hk]; cbn [andb]; [|reflexivity].
  rewrite El. cbn [contains].
  destruct (String.eqb_spec c cid) as [->|Hc].
  - f_equal. apply bool_decide_eq_true, elem_of_union_l, elem_of_singleton.
    reflexivity.
  - f_equal. apply bool_decide_ext. rewrite elem_of_union, elem_of_singleton.
    tauto.
Qed.

Lemma mark_notification_sent_then_has_witness :
  outcome_of (has_notification_been_sent 5 "HackCTF_1" "24h"
                (state_of (mark_notification_sent 5 "HackCTF_1" "24h" scenario)))
  = Ret true.
Proof.
  exact (mark_notification_sent_then_has 5 "HackCTF_1" "24h" scenario
           5 "HackCTF_1" "24h" eq_refl).
Defined.

(** X7.  For a guild that has no entry in the store, the four kinds
    ["24h"], ["1h"], ["channel_1h"] and ["archived"] are unsent and can be
    marked; any other kind makes both functions raise [KeyError], after the
    entry of the guild has been created. *)
Theorem fresh_guild_notifications (gid : Z) (cid kind : string) (s : CTFDataManager) :
  kget (Py.KInt gid) (sent_notifications s) = None ->
  (In kind ["24h"; "1h"; "channel_1h"; "archived"] ->
   outcome_of (has_notification_been_sent gid cid kind s) = Ret false /\
   outcome_of (mark_notification_sent gid cid kind s) = Ret tt) /\
  (~ In kind ["24h"; "1h"; "channel_1h"; "archived"] ->
   outcome_of (has_notification_been_sent gid cid kind s) = Raise KeyError /\
   outcome_of (mark_notification_sent gid cid kind s) = Raise KeyError /\
   kget (Py.KInt gid)
     (sent_notifications (state_of (has_notification_been_sent gid cid kind s)))
   = Some fresh_notifications).
Proof.
  intros Hnone.
  assert (Hl : lookup_kind s gid kind = sget kind fresh_notifications)
    by (unfold lookup_kind; rewrite Hnone; reflexivity).
  rewrite has_notification_been_sent_eq, mark_notification_sent_eq, Hl.
  unfold outcome_of, state_of; cbn [fst snd].
  split.
  - intros Hin. cbn [In] in Hin.
    destruct Hin as [E|[E|[E|[E|[]]]]]; subst kind; split; reflexivity.
  - intros Hout.
    assert (Hk : sget kind fresh_notifications = None).
    { unfold fresh_notifications. cbn [Py.get].
      destruct (String.eqb_spec kind "24h") as [->|_]; [exfalso; apply Hout; cbn; auto|].
      destruct (String.eqb_spec kind "1h") as [->|_]; [exfalso; apply Hout; cbn; auto|].
      destruct (String.eqb_spec kind "channel_1h") as [->|_];
        [exfalso; apply Hout; cbn; auto|].
      destruct (String.eqb_spec kind "archived") as [->|_];
        [exfalso; apply Hout; cbn; auto 6|].
      reflexivity. }
    rewrite Hk. split; [reflexivity|]. split; [reflexivity|].
    destruct (get_guild_notifications_eq gid s) as (e & He & Hget & _).
    unfold get_guild_notifications in He. rewrite Hnone in He.
    injection He as Hs He'. rewrite Hget. congruence.
Qed.

Lemma fresh_guild_notifications_witness :
  outcome_of (has_notification_been_sent 5 "HackCTF_1" "24h" scenario) = Ret false /\
  outcome_of (has_notification_been_sent 5 "HackCTF_1" "48h" scenario) = Raise KeyError.
Proof.
  split.
  - apply (fresh_guild_notifications 5 "HackCTF_1" "24h" scenario eq_refl).
    cbn; auto.
  - apply (fresh_guild_notifications 5 "HackCTF_1" "48h" scenario eq_refl).
    cbn. intros [H|[H|[H|[H|[]]]]]; discriminate.
Defined.

(** ** More on the trigger pass *)

Lemma sends_app (t1 t2 : list action) : sends (t1 ++ t2) = sends t1 ++ sends t2.
Proof.
  induction t1 as [|[ch g c k|g c k] r IH]; cbn [sends app].
  - reflexivity.
  - rewrite IH. reflexivity.
  - exact IH.
Qed.

Lemma In_sends (t : list action) (g : Z) (c k : string) :
  In (g, c, k) (sends t) <-> exists ch, In (Send ch g c k) t.
Proof.
  induction t as [|[ch' g' c' k'|g' c' k'] r IH]; cbn [sends In].
  - split; [tauto|]. intros [ch []].
  - rewrite IH. split.
    + intros [E|[ch H]]; [injection E as -> -> ->; eauto|eauto].
    + intros [ch [E|H]]; [injection E as _ -> -> ->; auto|eauto].
  - rewrite IH. split.
    + intros [ch H]; eauto.
    + intros [ch [E|H]]; [discriminate|eauto].
Qed.

(** The loop rule that tells a returned iteration from a raising one. *)
Lemma for_each_inv_ret {A : Type} (J : CTFDataManager -> list action -> Prop)
    (R : list action -> Prop) (body : A -> M unit) (l : list A) :
  (forall x s t, In x l -> J s t ->
     match outcome_of (body x s) with
     | Ret _ => J (state_of (body x s)) (t ++ trace_of (body x s))
     | Raise _ => R (t ++ trace_of (body x s))
     end) ->
  forall s t, J s t ->
     match outcome_of (for_each l body s) with
     | Ret _ => J (state_of (for_each l body s)) (t ++ trace_of (for_each l body s))
     | Raise _ => R (t ++ trace_of (for_each l body s))
     end.
Proof.
  induction l as [|x r IH]; intros Hb s t HJ.
  - cbn. rewrite app_nil_r. exact HJ.
  - cbn [for_each]. unfold bind.
    pose proof (Hb x s t (or_introl eq_refl) HJ) as Hx.
    destruct (body x s) as [[s1 t1] [[]|e]] eqn:Eb;
      unfold outcome_of, state_of, trace_of in *; cbn [fst snd] in *.
    + specialize (IH (fun y s t Hy => Hb y s t (or_intror Hy)) s1 (t ++ t1) Hx).
      destruct (for_each r body s1) as [[s2 t2] [[]|e2]]; cbn [fst snd] in *;
        rewrite app_assoc; exact IH.
    + exact Hx.
Qed.

Lemma tracked_touch (s0 s : CTFDataManager) (t : list action) (gid : Z) :
  tracked s0 s t -> tracked s0 (touch gid s) t.
Proof.
  intros (Hc & Hk & Hl & Hr). destruct (touch_fields gid s) as (E1 & E2 & _).
  split; [congruence|]. split; [congruence|]. split; [exact Hl|].
  intros g c k H. rewrite touch_recorded. auto.
Qed.

Lemma tracked_log_send (s0 s : CTFDataManager) (t : list action) (ch gid : Z)
    (cid k : string) :
  tracked s0 s t -> In gid (setup_guilds s0) -> recorded s gid cid k = false ->
  tracked_log s0 (t ++ [Send ch gid cid k]).
Proof.
  intros (_ & _ & (Hnd & Hset) & Hr) Hgid Hrec.
  unfold tracked_log. rewrite sends_app. cbn [sends]. split.
  - apply List.NoDup_app; [exact Hnd|repeat constructor; intros []|].
    intros x Hx [<-|[]]. apply Hr in Hx. congruence.
  - intros g c k' H. apply in_app_or in H. destruct H as [H|[E|[]]]; [eauto|].
    injection E as <- _ _. exact Hgid.
Qed.

Lemma check_event_tracked (bot : Bot) (now : Z) (s0 : CTFDataManager) (gid : Z)
    (cfg : guild_config) (cid : string) (event : event)
    (s : CTFDataManager) (t : list action) :
  zget gid (guild_configs s0) = Some cfg ->
  In gid (setup_guilds s0) ->
  tracked s0 s t ->
  match outcome_of (check_event bot now gid (cid, event) s) with
  | Ret _ => tracked s0 (state_of (check_event bot now gid (cid, event) s))
               (t ++ trace_of (check_event bot now gid (cid, event) s))
  | Raise _ => tracked_log s0 (t ++ trace_of (check_event bot now gid (cid, event) s))
  end.
Proof.
  intros Hcfg Hgid HJ.
  assert (Hcfg' : zget gid (guild_configs s) = Some cfg).
  { destruct HJ as (-> & _). exact Hcfg. }
  pose proof (check_event_shape bot now gid cid event cfg s Hcfg') as Hs.
  destruct Hs; unfold outcome_of, state_of, trace_of; cbn [fst snd]; rewrite ?app_nil_r.
  - apply HJ.
  - exact HJ.
  - apply tracked_touch; exact HJ.
  - apply tracked_touch; exact HJ.
  - apply HJ.
  - eapply tracked_log_send; eauto.
  - assert (Hrec : recorded s gid cid k = false).
    { unfold recorded. rewrite H0. exact H1. }
    pose proof (tracked_log_send s0 s t ch gid cid k HJ Hgid Hrec) as (Hnd & Hset).
    rewrite sends_app in Hnd, Hset. cbn [sends] in Hnd, Hset.
    destruct HJ as (Hc & Hk & Hl & Hr).
    destruct (marked_fields gid cid k s) as (E1 & E2 & _).
    split; [congruence|]. split; [congruence|].
    unfold tracked_log. rewrite sends_app. cbn [sends].
    split; [split; assumption|].
    intros g c k' Hin. rewrite (marked_recorded gid cid k X s g c k' H0).
    apply in_app_or in Hin. destruct Hin as [Hin|[E|[]]].
    + rewrite (Hr g c k' Hin). apply orb_true_r.
    + injection E as <- <- <-. rewrite Z.eqb_refl, !String.eqb_refl. reflexivity.
Qed.

Lemma check_guild_tracked (bot : Bot) (now : Z) (s0 : CTFDataManager) (gid : Z)
    (s : CTFDataManager) (t : list action) :
  In gid (setup_guilds s0) ->
  tracked s0 s t ->
  match outcome_of (check_guild bot now gid s) with
  | Ret _ => tracked s0 (state_of (check_guild bot now gid s))
               (t ++ trace_of (check_guild bot now gid s))
  | Raise _ => tracked_log s0 (t ++ trace_of (check_guild bot now gid s))
  end.
Proof.
  intros Hgid HJ. unfold check_guild.
  destruct (get_guild bot gid) eqn:Hg; cbn [negb].
  2:{ unfold outcome_of, state_of, trace_of, ret; cbn [fst snd].
      rewrite app_nil_r. exact HJ. }
  destruct (setup_guild_has_config _ _ Hgid) as [cfg Hcfg].
  unfold bind, gets.
  pose proof (for_each_inv_ret (tracked s0) (tracked_log s0) (check_event bot now gid)
                (ctf_cache s)
                ltac:(intros [c e] s' t' Hin HJ';
                      apply (check_event_tracked bot now s0 gid cfg); assumption)
                s t HJ) as Hloop.
  destruct (for_each (ctf_cache s) (check_event bot now gid) s) as [[s2 t2] r2].
  exact Hloop.
Qed.

Lemma check_notification_triggers_tracked (bot : Bot) (now : Z) (s0 : CTFDataManager) :
  match outcome_of (check_notification_triggers bot now s0) with
  | Ret _ => tracked s0 (state_of (check_notification_triggers bot now s0))
               (trace_of (check_notification_triggers bot now s0))
  | Raise _ => tracked_log s0 (trace_of (check_notification_triggers bot now s0))
  end.
Proof.
  rewrite check_notification_triggers_unfold. fold (setup_guilds s0).
  assert (H0 : tracked s0 s0 []).
  { split; [reflexivity|]. split; [reflexivity|]. split.
    - split; [constructor|intros g c k []].
    - intros g c k []. }
  exact (for_each_inv_ret (tracked s0) (tracked_log s0) (check_guild bot now)
           (setup_guilds s0)
           ltac:(intros g s t Hg HJ; apply check_guild_tracked; assumption)
           s0 [] H0).
Qed.

(** X8.  A pass never sends the same (guild, event, kind) notification
    twice, whatever the stores, the client and the outcome of the pass. *)
Theorem check_notification_triggers_no_repeat (bot : Bot) (now : Z)
    (s : CTFDataManager) :
  List.NoDup (sends (trace_of (check_notification_triggers bot now s))).
Proof.
  pose proof (check_notification_triggers_tracked bot now s) as H.
  destruct (outcome_of (check_notification_triggers bot now s)).
  - apply H.
  - apply H.
Qed.

(** X9.  When a pass returns, the tuples recorded as sent are exactly those
    that were recorded before and those sent during the pass. *)
Theorem check_notification_triggers_records_sends (bot : Bot) (now : Z)
    (s : CTFDataManager) (g : Z) (c k : string) :
  outcome_of (check_notification_triggers bot now s) = Ret tt ->
  (recorded (state_of (check_notification_triggers bot now s)) g c k = true <->
   recorded s g c k = true \/
   exists ch, In (Send ch g c k) (trace_of (check_notification_triggers bot now s))).
Proof.
  intros Hret.
  pose proof (check_notification_triggers_tracked bot now s) as Ht.
  rewrite Hret in Ht. destruct Ht as (_ & _ & _ & Hr).
  destruct (check_notification_triggers_inv bot now s) as (_ & Hkeep & Hnew & _).
  split.
  - apply Hnew.
  - intros [H|H]; [auto|]. apply Hr, In_sends. exact H.
Qed.

Lemma check_notification_triggers_records_sends_witness :
  recorded (state_of (check_notification_triggers online new_year scenario))
    5 "HackCTF_1" "24h" = true.
Proof.
  apply (check_notification_triggers_records_sends online new_year scenario
           5 "HackCTF_1" "24h"); [vm_compute; reflexivity|].
  right. exists 100. vm_compute. auto.
Defined.

(** X10.  Whatever its outcome, a pass leaves the event cache, the guild
    configurations and the participation records as they were, and every
    tuple recorded as sent before the pass is still recorded after it. *)
Theorem check_notification_triggers_frame (bot : Bot) (now : Z) (s : CTFDataManager) :
  let s' := state_of (check_notification_triggers bot now s) in
  ctf_cache s' = ctf_cache s /\
  guild_configs s' = guild_configs s /\
  guild_ctf_status s' = guild_ctf_status s /\
  forall g c k, recorded s g c k = true -> recorded s' g c k = true.
Proof.
  destruct (check_notification_triggers_inv bot now s)
    as ((H1 & H2 & H3) & Hkeep & _).
  cbv zeta. auto.
Qed.

Lemma usable_inv (bot : Bot) (channel : option Z) (ch : Z) :
  usable bot channel = Some ch ->
  channel = Some ch /\ ch <> 0 /\ get_channel bot ch = true.
Proof.
  unfold usable. destruct channel as [c|]; [|discriminate].
  destruct (Z.eqb_spec c 0) as [->|Hc]; cbn [orb]; [discriminate|].
  destruct (get_channel bot c) eqn:Hg; cbn [negb]; [|discriminate].
  intros E. injection E as <-. auto.
Qed.

Lemma due_kinds (now : Z) (status : participation) (cfg : guild_config)
    (event : event) (k : string) :
  due now status cfg event = Some k ->
  (exists ts, start_of event = Some ts) /\
  (k = "24h" /\ status = Untouched /\ truthy (setting_of cfg "notification_24h") = true \/
   k = "1h" /\ status = Untouched /\ truthy (setting_of cfg "notification_1h") = true \/
   k = "channel_1h" /\ status = Joined).
Proof.
  unfold due. destruct (start_of event) as [ts|]; [|discriminate].
  intros H. split; [eauto|].
  destruct status.
  - destruct (in_24h_window _); cbn [andb] in H.
    + destruct (truthy (setting_of cfg "notification_24h")) eqn:E24.
      * injection H as <-. auto.
      * destruct (in_1h_window _); cbn [andb] in H; [|discriminate].
        destruct (truthy (setting_of cfg "notification_1h")) eqn:E1; [|discriminate].
        injection H as <-. auto.
    + destruct (in_1h_window _); cbn [andb] in H; [|discriminate].
      destruct (truthy (setting_of cfg "notification_1h")) eqn:E1; [|discriminate].
      injection H as <-. auto.
  - destruct (in_1h_window _); [|discriminate]. injection H as <-. auto.
  - discriminate.
Qed.

(** X11.  Every message that a pass sends goes to a guild that
    [get_setup_guilds] lists and the client resolves, for an event of the
    cache whose start parses, on a channel id that is not zero and that the
    client resolves: the primary channel of the guild for the kinds ["24h"]
    and ["1h"], the channel registered for the event for ["channel_1h"].
    No other kind is ever sent. *)
Theorem check_notification_triggers_sends_justified (bot : Bot) (now : Z)
    (s : CTFDataManager) (ch g : Z) (c k : string) :
  In (Send ch g c k) (trace_of (check_notification_triggers bot now s)) ->
  (exists l, outcome_of (get_setup_guilds s) = Ret l /\ In g l) /\
  get_guild bot g = true /\
  ch <> 0 /\ get_channel bot ch = true /\
  (exists event ts, In (c, event) (ctf_cache s) /\ start_of event = Some ts) /\
  exists cfg,
    zget g (guild_configs s) = Some cfg /\
    (k = "24h" /\ channel_id cfg = Some ch \/
     k = "1h" /\ channel_id cfg = Some ch \/
     k = "channel_1h" /\ sget c (ctf_channels cfg) = Some ch).
Proof.
  intros Hin.
  assert (Hset : In g (setup_guilds s)).
  { pose proof (check_notification_triggers_tracked bot now s) as Ht.
    assert (Hl : tracked_log s (trace_of (check_notification_triggers bot now s))).
    { destruct (outcome_of (check_notification_triggers bot now s)); apply Ht. }
    destruct Hl as [_ Hl]. apply (Hl g c k), In_sends. eauto. }
  destruct (check_notification_triggers_inv bot now s) as (_ & _ & _ & Hj & _).
  destruct (Hj ch g c k Hin) as (_ & Hg & cfg & event & Hcfg & Hev & Hdue & Htgt).
  split; [exists (setup_guilds s); split; [reflexivity|exact Hset]|].
  split; [exact Hg|].
  apply due_kinds in Hdue. destruct Hdue as ([ts Hts] & Hk).
  unfold target in Htgt.
  assert (Hch : ch <> 0 /\ get_channel bot ch = true /\
                (k = "24h" /\ channel_id cfg = Some ch \/
                 k = "1h" /\ channel_id cfg = Some ch \/
                 k = "channel_1h" /\ sget c (ctf_channels cfg) = Some ch)).
  { destruct Hk as [(-> & _)|[(-> & _)|(-> & _)]]; cbn [String.eqb Ascii.eqb Bool.eqb] in Htgt;
      apply usable_inv in Htgt; destruct Htgt as (E & H0 & Hr);
      (split; [exact H0|]; split; [exact Hr|]).
    - left. split; [reflexivity|]. destruct (setup_complete cfg); [exact E|discriminate].
    - right; left. split; [reflexivity|].
      destruct (setup_complete cfg); [exact E|discriminate].
    - right; right. split; [reflexivity|exact E]. }
  destruct Hch as (H0 & Hr & Hkinds).
  split; [exact H0|]. split; [exact Hr|]. split; [eauto|]. eauto.
Qed.

Lemma check_notification_triggers_sends_justified_witness :
  get_guild online 5 = true /\ 100 <> 0.
Proof.
  assert (Hin : In (Send 100 5 "HackCTF_1" "24h")
                  (trace_of (check_notification_triggers online new_year scenario)))
    by (vm_compute; auto).
  destruct (check_notification_triggers_sends_justified online new_year scenario
              100 5 "HackCTF_1" "24h" Hin) as (_ & Hg & H0 & _).
  split; [exact Hg|exact H0].
Defined.

(** X12.  A pass does nothing at all (no message, no change of any store,
    no exception) when the cache is empty or when the client resolves none
    of the guilds that completed setup. *)
Theorem check_notification_triggers_nothing_to_do (bot : Bot) (now : Z)
    (s : CTFDataManager) :
  ctf_cache s = [] \/
  (forall l g, outcome_of (get_setup_guilds s) = Ret l -> In g l ->
               get_guild bot g = false) ->
  check_notification_triggers bot now s = (s, [], Ret tt).
Proof.
  intros H. rewrite check_notification_triggers_unfold.
  apply for_each_idle. intros g Hg. unfold check_guild.
  destruct (get_guild bot g) eqn:Eg; cbn [negb]; [|reflexivity].
  destruct H as [H|H].
  - unfold bind, gets. rewrite H. reflexivity.
  - rewrite (H _ g eq_refl Hg) in Eg. discriminate.
Qed.

Lemma check_notification_triggers_nothing_to_do_witness :
  check_notification_triggers no_guild new_year scenario = (scenario, [], Ret tt).
Proof.
  apply check_notification_triggers_nothing_to_do. right.
  intros l g E Hg. reflexivity.
Defined.

Lemma set_guild_setting_closed (gid : Z) (name : string) (v : setting_value)
    (s : CTFDataManager) :
  exists s', set_guild_setting gid name v s = (s', [], Ret tt) /\
             forall g name',
               setting_of (config_of s' g) name'
               = if (g =? gid) && String.eqb name' name then Some v
                 else setting_of (config_of s g) name'.
Proof.
  unfold set_guild_setting. set (f := fun c : guild_config => _).
  pose proof (update_config_of gid f s) as Hc.
  rewrite update_guild_config_closed in *. unfold state_of in Hc; cbn [fst] in Hc.
  eexists. split; [reflexivity|]. intros g name'. rewrite Hc.
  destruct (Z.eqb_spec g gid) as [->|Hne]; cbn [andb]; [|reflexivity].
  unfold setting_of, f; cbn [settings].
  destruct (String.eqb_spec name' name) as [->|Hn].
  - rewrite (get_set_same String.eqb String.eqb_eq). reflexivity.
  - rewrite (get_set_other String.eqb String.eqb_eq) by exact Hn. reflexivity.
Qed.

Lemma sent_kind_enabled (bot : Bot) (now : Z) (s : CTFDataManager) (ch g : Z)
    (c k : string) :
  In (Send ch g c k) (trace_of (check_notification_triggers bot now s)) ->
  (k = "24h" -> truthy (setting_of (config_of s g) "notification_24h") = true) /\
  (k = "1h" -> truthy (setting_of (config_of s g) "notification_1h") = true).
Proof.
  intros Hin.
  destruct (check_notification_triggers_inv bot now s) as (_ & _ & _ & Hj & _).
  destruct (Hj ch g c k Hin) as (_ & _ & cfg & event & Hcfg & _ & Hdue & _).
  unfold config_of. rewrite Hcfg.
  apply due_kinds in Hdue. destruct Hdue as (_ & [(-> & _ & H)|[(-> & _ & H)|(-> & _)]]);
    split; intros E; try discriminate; exact H.
Qed.

(** X13.  After [/bot_settings] has switched the 24-hour alert of a guild
    off, the next pass sends no ["24h"] alert to that guild, whatever the
    stores and the clock; likewise for the 1-hour alert. *)
Theorem slash_bot_settings_switches_off (bot : Bot) (now gid : Z)
    (n24h n1h : option bool) (s : CTFDataManager) :
  let s' := state_of (slash_bot_settings gid n24h n1h s) in
  (n24h = Some false ->
   forall ch c, ~ In (Send ch gid c "24h")
                     (trace_of (check_notification_triggers bot now s'))) /\
  (n1h = Some false ->
   forall ch c, ~ In (Send ch gid c "1h")
                     (trace_of (check_notification_triggers bot now s'))).
Proof.
  cbv zeta. unfold slash_bot_settings, bind.
  assert (H24 : exists s1,
    (match n24h with
     | Some b => set_guild_setting gid "notification_24h" (SBool b)
     | None => ret tt
     end) s = (s1, [], Ret tt) /\
    (n24h = Some false ->
     setting_of (config_of s1 gid) "notification_24h" = Some (SBool false))).
  { destruct n24h as [b|].
    - destruct (set_guild_setting_closed gid "notification_24h" (SBool b) s)
        as (s1 & E & Hs). exists s1. split; [exact E|].
      intros Hb. injection Hb as ->. rewrite Hs, Z.eqb_refl. reflexivity.
    - exists s. split; [reflexivity|discriminate]. }
  destruct H24 as (s1 & -> & H24).
  assert (H1 : exists s2,
    (match n1h with
     | Some b => set_guild_setting gid "notification_1h" (SBool b)
     | None => ret tt
     end) s1 = (s2, [], Ret tt) /\
    (n24h = Some false ->
     setting_of (config_of s2 gid) "notification_24h" = Some (SBool false)) /\
    (n1h = Some false ->
     setting_of (config_of s2 gid) "notification_1h" = Some (SBool false))).
  { destruct n1h as [b|].
    - destruct (set_guild_setting_closed gid "notification_1h" (SBool b) s1)
        as (s2 & E & Hs). exists s2. split; [exact E|]. split.
      + intros Hb. rewrite Hs, Z.eqb_refl. cbn. auto.
      + intros Hb. injection Hb as ->. rewrite Hs, Z.eqb_refl. reflexivity.
    - exists s1. split; [reflexivity|]. split; [exact H24|discriminate]. }
  destruct H1 as (s2 & -> & H24' & H1).
  unfold state_of; cbn [fst].
  split; intros Hb ch c Hin; apply sent_kind_enabled in Hin; destruct Hin as [Ha Hb'].
  - specialize (Ha eq_refl). rewrite (H24' Hb) in Ha. discriminate.
  - specialize (Hb' eq_refl). rewrite (H1 Hb) in Hb'. discriminate.
Qed.

Lemma slash_bot_settings_switches_off_witness :
  ~ In (Send 100 5 "HackCTF_1" "24h")
       (trace_of (check_notification_triggers online new_year
                    (state_of (slash_bot_settings 5 (Some false) None scenario)))).
Proof.
  destruct (slash_bot_settings_switches_off online new_year 5 (Some false) None scenario)
    as [H _].
  exact (H eq_refl 100 "HackCTF_1").
Defined.

(** A message about an event is only sent when the event has a title. *)
Lemma check_event_send_titled (bot : Bot) (now gid : Z) (cid : string) (event : event)
    (cfg : guild_config) (s : CTFDataManager) (ch g : Z) (c k : string) :
  zget gid (guild_configs s) = Some cfg ->
  In (Send ch g c k) (trace_of (check_event bot now gid (cid, event) s)) ->
  c = cid /\ ev_title event <> None.
Proof.
  intros Hcfg. rewrite (check_event_eq bot now gid cid event cfg s Hcfg).
  unfold check_event_cases.
  destruct (start_of event); [|intros []].
  destruct (negb (fromtimestamp_ok z)); [intros []|].
  destruct (due now _ cfg event) as [kind|]; [|intros []].
  destruct (lookup_kind s gid kind) as [cont|]; [|intros []].
  destruct (contains cid cont); [intros []|].
  destruct (target bot cfg cid kind) as [ch'|]; [|intros []].
  destruct (ev_title event) as [title|]; [|intros []].
  intros Hin. split; [|discriminate].
  destruct (delivers bot ch' cid kind); [destruct cont|];
    unfold trace_of in Hin; cbn [fst snd In] in Hin;
    repeat (destruct Hin as [Hin|Hin]; try discriminate; try contradiction);
    injection Hin as _ _ <- _; reflexivity.
Qed.

Lemma check_notification_triggers_sends_titled (bot : Bot) (now : Z)
    (s0 : CTFDataManager) (ch g : Z) (c k : string) :
  In (Send ch g c k) (trace_of (check_notification_triggers bot now s0)) ->
  exists event, In (c, event) (ctf_cache s0) /\ ev_title event <> None.
Proof.
  set (J := fun (s : CTFDataManager) (t : list action) =>
              guild_configs s = guild_configs s0 /\ ctf_cache s = ctf_cache s0 /\
              forall ch g c k, In (Send ch g c k) t ->
                exists event, In (c, event) (ctf_cache s0) /\ ev_title event <> None).
  assert (Hev : forall gid cfg item s t,
             zget gid (guild_configs s0) = Some cfg -> In item (ctf_cache s0) -> J s t ->
             J (state_of (check_event bot now gid item s))
               (t ++ trace_of (check_event bot now gid item s))).
  { intros gid cfg [cid event] s t Hcfg Hin (Hc & Hk & Hs).
    assert (Hcfg' : zget gid (guild_configs s) = Some cfg) by (rewrite Hc; exact Hcfg).
    destruct (check_event_grows bot now gid cfg cid event s Hcfg')
      as ((Hk' & Hc' & _) & _).
    split; [congruence|]. split; [congruence|].
    intros ch' g' c' k' H. apply in_app_or in H. destruct H as [H|H]; [eauto|].
    destruct (check_event_send_titled bot now gid cid event cfg s ch' g' c' k' Hcfg' H)
      as [-> Ht]. eauto. }
  assert (Hg : forall gid s t,
             In gid (setup_guilds s0) -> J s t ->
             J (state_of (check_guild bot now gid s))
               (t ++ trace_of (check_guild bot now gid s))).
  { intros gid s t Hgid HJ. unfold check_guild.
    destruct (get_guild bot gid); cbn [negb].
    2:{ unfold state_of, trace_of, ret; cbn [fst snd]. rewrite app_nil_r. exact HJ. }
    destruct (setup_guild_has_config _ _ Hgid) as [cfg Hcfg].
    unfold bind, gets.
    assert (Hcache : ctf_cache s = ctf_cache s0) by apply HJ.
    pose proof (for_each_inv J (check_event bot now gid) (ctf_cache s)
                  ltac:(intros item s' t' Hin HJ'; apply (Hev gid cfg); auto;
                        rewrite <- Hcache; exact Hin) s t HJ) as Hloop.
    destruct (for_each (ctf_cache s) (check_event bot now gid) s) as [[s2 t2] r2].
    exact Hloop. }
  rewrite check_notification_triggers_unfold. fold (setup_guilds s0).
  assert (H0 : J s0 []) by (split; [reflexivity|split; [reflexivity|intros ? ? ? ? []]]).
  pose proof (for_each_inv J (check_guild bot now) (setup_guilds s0)
                ltac:(intros g' s t Hg' HJ; apply Hg; assumption) s0 [] H0)
    as (_ & _ & H).
  intros Hin. apply (H ch g c k). exact Hin.
Qed.

(** X14.  A cached event without a title blocks the pass: when such an event
    is due for a guild that completed setup and has a channel to send to,
    the pass raises instead of returning, and the tuple is still not
    recorded afterwards, so that the next pass meets it again. *)
Theorem check_notification_triggers_untitled_event (bot : Bot) (now : Z)
    (s : CTFDataManager) (gid : Z) (cfg : guild_config) (cid : string) (event : event)
    (k : string) (ch : Z) :
  zget gid (guild_configs s) = Some cfg ->
  setup_complete cfg = true ->
  get_guild bot gid = true ->
  List.NoDup (map fst (ctf_cache s)) ->
  In (cid, event) (ctf_cache s) ->
  ev_title event = None ->
  due now (ctf_status s gid cid) cfg event = Some k ->
  target bot cfg cid k = Some ch ->
  recorded s gid cid k = false ->
  (exists e, outcome_of (check_notification_triggers bot now s) = Raise e) /\
  recorded (state_of (check_notification_triggers bot now s)) gid cid k = false.
Proof.
  intros Hcfg Hsetup Hg Hnd Hin Htitle Hdue Htgt Hrec.
  assert (Hno : forall ch', ~ In (Send ch' gid cid k)
                              (trace_of (check_notification_triggers bot now s))).
  { intros ch' H. apply check_notification_triggers_sends_titled in H.
    destruct H as (event' & Hin' & Ht).
    rewrite (In_cache_unique _ _ _ _ Hnd Hin' Hin) in Ht. contradiction. }
  split.
  - destruct (outcome_of (check_notification_triggers bot now s)) as [[]|e] eqn:Eo;
      [|eauto].
    exfalso. apply (Hno ch).
    apply (check_notification_triggers_fires bot now s gid cfg cid event k ch); auto.
  - destruct (check_notification_triggers_inv bot now s) as (_ & _ & Hnew & _).
    destruct (recorded (state_of (check_notification_triggers bot now s)) gid cid k)
      eqn:Er; [|reflexivity].
    exfalso. destruct (Hnew gid cid k Er) as [H|[ch' H]]; [congruence|].
    apply (Hno ch'). exact H.
Qed.

Lemma check_notification_triggers_untitled_event_witness :
  exists e,
    outcome_of (check_notification_triggers online new_year
                  (with_cache [("ctf_1", untitled_event)] scenario))
    = Raise e.
Proof.
  refine (proj1 (check_notification_triggers_untitled_event online new_year
                   (with_cache [("ctf_1", untitled_event)] scenario) 5 guild5 "ctf_1"
                   untitled_event "24h" 100
                   eq_refl eq_refl eq_refl _ (or_introl eq_refl) eq_refl _ _ _)).
  - repeat constructor. intros [].
  - vm_compute. reflexivity.
  - vm_compute. reflexivity.
  - vm_compute. reflexivity.
Defined.

(** ** More on the persistence *)



(** X15.  What was saved is loaded back: after [save_all] of stores whose
    guild keys are [int]s without repetition and whose notification
    containers are sets, [load_all] restores exactly these stores, whatever
    the data manager held and whatever was on the disk before. *)
Theorem save_all_load_all (dm dm' : CTFDataManager) (d : Disk) :
  loadable dm -> load_all (save_all dm d) dm' = Ret dm.
Proof.
  intros (Hc & Hs & Hst). unfold load_all, save_all.
  set (d1 := save_guild_configs dm d).
  set (d2 := save_sent_notifications dm d1).
  set (d3 := save_guild_ctf_status dm d2).
  set (d4 := save_ctf_cache dm d3).
  assert (E1 : load_guild_configs d4 dm' = load_guild_configs d1 dm') by reflexivity.
  rewrite E1. unfold d1. rewrite (save_load_guild_configs dm dm' d Hc).
  cbn [and_then].
  set (dm1 := with_configs (guild_configs dm) dm').
  assert (E2 : load_sent_notifications d4 dm1 = load_sent_notifications d2 dm1)
    by reflexivity.
  rewrite E2. unfold d2. rewrite (save_load_sent_notifications dm dm1 _ Hs).
  cbn [and_then].
  set (dm2 := with_sent (sent_notifications dm) dm1).
  assert (E3 : load_guild_ctf_status d4 dm2 = load_guild_ctf_status d3 dm2)
    by reflexivity.
  rewrite E3. unfold d3. rewrite (save_load_guild_ctf_status dm dm2 _ Hst).
  cbn [and_then].
  unfold d4. rewrite save_load_ctf_cache.
  destruct dm; reflexivity.
Qed.

Lemma save_all_load_all_witness : load_all (save_all scenario no_files) init = Ret scenario.
Proof.
  apply save_all_load_all. split; [|split].
  - repeat constructor. intros [].
  - exists []. split; [reflexivity|]. split; constructor.
  - constructor.
Defined.


(** *** The stores stay loadable *)

Lemma keyed_iff (d : pydict Py.key (pydict string container)) :
  keyed d <-> int_keyed_sets d.
Proof.
  unfold keyed, int_keyed_sets, set_entry. split.
  - intros [Hnd Hall].
    exists (map (fun p => (match fst p with Py.KInt z => z | Py.KStr _ => 0 end, snd p)) d).
    assert (Hd : d = map (fun p => (Py.KInt (fst p), snd p))
                       (map (fun p => (match fst p with
                                       | Py.KInt z => z
                                       | Py.KStr _ => 0
                                       end, snd p)) d)).
    { rewrite map_map. cbn [fst snd]. clear Hnd.
      induction Hall as [|[k e] r [[z Hz] _] _ IH]; cbn [map]; [reflexivity|].
      cbn [fst snd] in *. subst k. rewrite <- IH. reflexivity. }
    split; [exact Hd|]. split.
    + rewrite Hd, map_map in Hnd. cbn [fst] in Hnd.
      rewrite <- (map_map fst Py.KInt) in Hnd.
      apply NoDup_map_inv in Hnd. exact Hnd.
    + rewrite List.Forall_map. eapply List.Forall_impl; [|exact Hall].
      intros [k e] [_ H]. exact H.
  - intros (l & -> & Hnd & Hall). split.
    + rewrite map_map. cbn [fst]. rewrite <- (map_map fst Py.KInt).
      apply Stdlib.Lists.Finite.Injective_map_NoDup; [congruence|exact Hnd].
    + rewrite List.Forall_map. eapply List.Forall_impl; [|exact Hall].
      intros [z e] H. cbn [fst snd] in *. split; [eauto|exact H].
Qed.

Lemma set_entry_fresh : set_entry fresh_notifications.
Proof.
  split.
  - unfold fresh_notifications. cbn [map fst].
    repeat (constructor; [cbn [In]; intuition discriminate|]). constructor.
  - unfold fresh_notifications. repeat (constructor; [cbn; eauto|]). constructor.
Qed.

Lemma set_entry_set (e : pydict string container) (k : string) (X : gset string) :
  set_entry e -> set_entry (sset k (PySet X) e).
Proof.
  intros [Hnd Hall]. split.
  - apply (set_nodup String.eqb String.eqb_eq). exact Hnd.
  - apply List.Forall_forall. intros [k' v'] Hin.
    apply (set_In String.eqb String.eqb_eq) in Hin. destruct Hin as [[_ ->]|Hin].
    + cbn. eauto.
    + rewrite List.Forall_forall in Hall. apply (Hall _ Hin).
Qed.

Lemma keyed_set (d : pydict Py.key (pydict string container)) (g : Z)
    (e : pydict string container) :
  keyed d -> set_entry e -> keyed (kset (Py.KInt g) e d).
Proof.
  intros [Hnd Hall] He. split.
  - apply (set_nodup Py.key_eqb key_eqb_eq). exact Hnd.
  - apply List.Forall_forall. intros [k' v'] Hin.
    apply (set_In Py.key_eqb key_eqb_eq) in Hin. destruct Hin as [[-> ->]|Hin].
    + cbn. split; [eauto|exact He].
    + rewrite List.Forall_forall in Hall. apply (Hall _ Hin).
Qed.

Lemma keyed_get (d : pydict Py.key (pydict string container)) (k : Py.key)
    (e : pydict string container) :
  keyed d -> kget k d = Some e -> set_entry e.
Proof.
  intros [_ Hall] Hget. apply (get_Some_In Py.key_eqb key_eqb_eq) in Hget.
  rewrite List.Forall_forall in Hall. apply (Hall _ Hget).
Qed.

Lemma keyed_touch (gid : Z) (s : CTFDataManager) :
  keyed (sent_notifications s) -> keyed (sent_notifications (touch gid s)).
Proof.
  intros H. unfold touch, get_guild_notifications, state_of.
  destruct (kget (Py.KInt gid) (sent_notifications s)); cbn [fst]; [exact H|].
  cbn [with_sent sent_notifications]. apply keyed_set; [exact H|apply set_entry_fresh].
Qed.

Lemma keyed_mark (gid : Z) (cid kind : string) (s : CTFDataManager) :
  keyed (sent_notifications s) ->
  keyed (sent_notifications (state_of (mark_notification_sent gid cid kind s))).
Proof.
  intros H. pose proof (keyed_touch gid s H) as Ht.
  unfold state_of, mark_notification_sent, bind.
  destruct (get_guild_notifications_eq gid s) as (e & -> & Hget & He).
  destruct (sget kind e) as [[X|l]|]; cbn [fst snd modify log raise]; try exact Ht.
  cbn [with_sent sent_notifications]. apply keyed_set; [exact Ht|].
  apply set_entry_set. exact (keyed_get _ _ _ Ht Hget).
Qed.

Lemma loadable_configs (s : CTFDataManager) (gid : Z) (c : guild_config) :
  loadable s -> loadable (with_configs (zset gid c (guild_configs s)) s).
Proof.
  intros (H1 & H2 & H3). split; [|split; assumption].
  cbn [with_configs guild_configs]. apply (set_nodup Z.eqb Z.eqb_eq). exact H1.
Qed.

Lemma loadable_get_guild_config (s : CTFDataManager) (gid : Z) :
  loadable s -> loadable (state_of (get_guild_config gid s)).
Proof.
  intros H. unfold get_guild_config, state_of.
  destruct (zget gid (guild_configs s)); cbn [fst]; [exact H|].
  apply loadable_configs. exact H.
Qed.

Lemma loadable_update (s : CTFDataManager) (gid : Z) (f : guild_config -> guild_config) :
  loadable s -> loadable (state_of (update_guild_config gid f s)).
Proof.
  intros H. rewrite update_guild_config_closed. apply loadable_configs. exact H.
Qed.

Lemma loadable_sent (s s' : CTFDataManager) :
  loadable s ->
  guild_configs s' = guild_configs s -> guild_ctf_status s' = guild_ctf_status s ->
  keyed (sent_notifications s') -> loadable s'.
Proof.
  intros (H1 & _ & H3) Hc Hs Hk. split; [rewrite Hc; exact H1|].
  split; [apply keyed_iff; exact Hk|rewrite Hs; exact H3].
Qed.

Lemma loadable_pass (bot : Bot) (now : Z) (s0 : CTFDataManager) :
  loadable s0 -> loadable (state_of (check_notification_triggers bot now s0)).
Proof.
  intros H0.
  destruct (check_notification_triggers_inv bot now s0) as ((_ & Hc & Hst) & _).
  apply (loadable_sent s0); [exact H0|exact Hc|exact Hst|].
  set (J := fun (s : CTFDataManager) (t : list action) =>
              guild_configs s = guild_configs s0 /\ keyed (sent_notifications s)).
  assert (Hev : forall gid cfg item s t,
             zget gid (guild_configs s0) = Some cfg -> J s t ->
             J (state_of (check_event bot now gid item s))
               (t ++ trace_of (check_event bot now gid item s))).
  { intros gid cfg [cid event] s t Hcfg [Hcs Hk].
    assert (Hcfg' : zget gid (guild_configs s) = Some cfg) by (rewrite Hcs; exact Hcfg).
    pose proof (check_event_shape bot now gid cid event cfg s Hcfg') as Hs.
    pose proof (keyed_touch gid s Hk) as Ht.
    pose proof (keyed_mark gid cid) as Hm.
    destruct (touch_fields gid s) as (_ & Etc & _).
    destruct Hs; unfold state_of; cbn [fst]; split;
      try exact Hk; try exact Hcs; try exact Ht; try congruence.
    - destruct (marked_fields gid cid k s) as (_ & E & _). congruence.
    - apply Hm. exact Hk. }
  assert (Hg : forall gid s t,
             In gid (setup_guilds s0) -> J s t ->
             J (state_of (check_guild bot now gid s))
               (t ++ trace_of (check_guild bot now gid s))).
  { intros gid s t Hgid HJ. unfold check_guild.
    destruct (get_guild bot gid); cbn [negb].
    2:{ unfold state_of, trace_of, ret; cbn [fst snd]. exact HJ. }
    destruct (setup_guild_has_config _ _ Hgid) as [cfg Hcfg].
    unfold bind, gets.
    pose proof (for_each_inv J (check_event bot now gid) (ctf_cache s)
                  ltac:(intros item s' t' Hin HJ'; apply (Hev gid cfg); auto)
                  s t HJ) as Hloop.
    destruct (for_each (ctf_cache s) (check_event bot now gid) s) as [[s2 t2] r2].
    exact Hloop. }
  rewrite check_notification_triggers_unfold. fold (setup_guilds s0).
  assert (HJ0 : J s0 []).
  { split; [reflexivity|]. apply keyed_iff. apply H0. }
  apply (for_each_inv J (check_guild bot now) (setup_guilds s0)
           ltac:(intros g' s t Hg' HJ; apply Hg; assumption) s0 [] HJ0).
Qed.

(** X17.  The stores stay in the form that survives a restart (guild keys
    that are [int]s without repetition, notification kinds without
    repetition that map to sets).  The empty data manager has it, and the
    readers and setters of the guild configuration, the notification
    tracker, the trigger pass and the cache refresh keep it. *)
Theorem stores_stay_loadable :
  loadable init /\
  (forall s gid, loadable s -> loadable (state_of (get_guild_config gid s))) /\
  (forall s gid ch, loadable s -> loadable (state_of (set_guild_channel_id gid ch s))) /\
  (forall s gid name v,
      loadable s -> loadable (state_of (set_guild_setting gid name v s))) /\
  (forall s gid c, loadable s -> loadable (state_of (set_guild_credentials gid c s))) /\
  (forall s gid cid ch,
      loadable s -> loadable (state_of (register_ctf_channel gid cid ch s))) /\
  (forall s gid cid kind,
      loadable s -> loadable (state_of (has_notification_been_sent gid cid kind s))) /\
  (forall s gid cid kind,
      loadable s -> loadable (state_of (mark_notification_sent gid cid kind s))) /\
  (forall bot now s,
      loadable s -> loadable (state_of (check_notification_triggers bot now s))) /\
  (forall r s d, loadable s -> loadable (fst (fst (fetch_and_cache_ctfs r s d)))).
Proof.
  split.
  { split; [constructor|]. split; [|constructor].
    exists []. split; [reflexivity|]. split; constructor. }
  split; [intros; apply loadable_get_guild_config; assumption|].
  split; [intros; apply loadable_update; assumption|].
  split; [intros; apply loadable_update; assumption|].
  split; [intros; apply loadable_update; assumption|].
  split; [intros; apply loadable_update; assumption|].
  split.
  { intros s gid cid kind H. rewrite has_notification_been_sent_eq.
    unfold state_of; cbn [fst]. destruct (touch_fields gid s) as (_ & Hc & Hs).
    apply (loadable_sent s); auto. apply keyed_touch, keyed_iff, H. }
  split.
  { intros s gid cid kind H.
    assert (Hf : guild_configs (state_of (mark_notification_sent gid cid kind s))
                 = guild_configs s /\
                 guild_ctf_status (state_of (mark_notification_sent gid cid kind s))
                 = guild_ctf_status s).
    { rewrite mark_notification_sent_eq.
      destruct (touch_fields gid s) as (_ & Hc & Hs).
      destruct (marked_fields gid cid kind s) as (_ & Hc' & Hs').
      destruct (lookup_kind s gid kind) as [[X|l]|]; unfold state_of; cbn [fst]; auto. }
    destruct Hf as [Hc Hs].
    apply (loadable_sent s); auto. apply keyed_mark, keyed_iff, H. }
  split; [intros; apply loadable_pass; assumption|].
  intros r s d H. unfold fetch_and_cache_ctfs.
  destruct r as [|code body]; [exact H|].
  destruct (code =? 200); [|exact H].
  destruct body as [evs|]; [|exact H].
  destruct (keyed_events evs); exact H.
Qed.

(** ** More on the cache refresh *)

Lemma keyed_events_objects (events : list event) :
  keyed_events (map Some events) = Some (map (fun e => (get_ctf_id e, e)) events).
Proof.
  induction events as [|e r IH]; cbn [map keyed_events]; [reflexivity|].
  rewrite IH. reflexivity.
Qed.

Lemma keyed_events_Some (evs : list (option event)) (items : list (string * event)) :
  keyed_events evs = Some items -> evs = map Some (map snd items).
Proof.
  revert items. induction evs as [|[e|] r IH]; intros items H; cbn [keyed_events] in H.
  - injection H as <-. reflexivity.
  - destruct (keyed_events r) as [r'|]; [|discriminate].
    injection H as <-. cbn [map snd]. rewrite <- (IH r' eq_refl). reflexivity.
  - discriminate.
Qed.

Lemma sget_app {V : Type} (k : string) (l1 l2 : list (string * V)) :
  sget k (l1 ++ l2) = match sget k l1 with Some v => Some v | None => sget k l2 end.
Proof.
  induction l1 as [|[k' v'] r IH]; cbn [app Py.get]; [reflexivity|].
  destruct (String.eqb k k'); [reflexivity|exact IH].
Qed.

Lemma sget_fold_set {V : Type} (l acc : list (string * V)) (k : string) :
  sget k (fold_left (fun acc kv => sset (fst kv) (snd kv) acc) l acc)
  = match sget k (rev l) with Some v => Some v | None => sget k acc end.
Proof.
  revert acc. induction l as [|[k' v'] r IH]; intros acc; cbn [fold_left rev fst snd].
  - reflexivity.
  - rewrite IH, sget_app. destruct (sget k (rev r)); [reflexivity|].
    cbn [Py.get]. destruct (String.eqb_spec k k') as [->|Hne].
    + apply (get_set_same String.eqb String.eqb_eq).
    + apply (get_set_other String.eqb String.eqb_eq). exact Hne.
Qed.

Lemma sget_keyed (k : string) (events : list event) :
  sget k (map (fun e => (get_ctf_id e, e)) events)
  = List.find (fun e => String.eqb (get_ctf_id e) k) events.
Proof.
  induction events as [|e r IH]; cbn [map Py.get List.find]; [reflexivity|].
  rewrite String.eqb_sym. destruct (String.eqb (get_ctf_id e) k); [reflexivity|exact IH].
Qed.

(** X18.  A refresh succeeds exactly on a reply with status 200 whose body
    is a list of objects; then a key maps to the last event of the reply
    that has this key, and when the keys of the reply are all different the
    cache lists the events in the order of the reply. *)
Theorem fetch_and_cache_ctfs_last_wins (r : response) (dm : CTFDataManager) (d : Disk) :
  (snd (fetch_and_cache_ctfs r dm d) = true <-> exists events, r = ok_response events) /\
  forall events,
    r = ok_response events ->
    let dm' := fst (fst (fetch_and_cache_ctfs r dm d)) in
    (forall k, sget k (ctf_cache dm') = last_with_key k events) /\
    (List.NoDup (map get_ctf_id events) ->
     ctf_cache dm' = map (fun e => (get_ctf_id e, e)) events).
Proof.
  split.
  - split.
    + unfold fetch_and_cache_ctfs. destruct r as [|code body]; [discriminate|].
      destruct (Z.eqb_spec code 200) as [->|Hc]; [|discriminate].
      destruct body as [evs|]; [|discriminate].
      destruct (keyed_events evs) as [items|] eqn:Ek; [|discriminate].
      intros _. exists (map snd items). unfold ok_response.
      rewrite (keyed_events_Some evs items Ek). reflexivity.
    + intros [events ->]. unfold ok_response, fetch_and_cache_ctfs.
      cbn [Z.eqb Pos.eqb]. rewrite keyed_events_objects. reflexivity.
  - intros events ->. unfold ok_response, fetch_and_cache_ctfs.
    cbn [Z.eqb Pos.eqb]. rewrite keyed_events_objects.
    cbn [fst with_cache ctf_cache]. split.
    + intros k. unfold Py.of_items, last_with_key.
      rewrite sget_fold_set. cbn [Py.get]. rewrite <- map_rev, sget_keyed.
      destruct (List.find _ (rev events)); reflexivity.
    + intros Hnd. apply (of_items_nodup String.eqb String.eqb_eq).
      rewrite map_map. cbn [fst]. exact Hnd.
Qed.

Lemma fetch_and_cache_ctfs_last_wins_witness :
  sget "HackCTF_1"
    (ctf_cache (fst (fst (fetch_and_cache_ctfs (ok_response [other_event; hack_event])
                            init no_files))))
  = Some hack_event.
Proof.
  destruct (fetch_and_cache_ctfs_last_wins (ok_response [other_event; hack_event])
              init no_files) as [_ H].
  destruct (H [other_event; hack_event] eq_refl) as [Hk _].
  rewrite Hk. reflexivity.
Defined.



(** *** Event keys *)

Lemma occurs_uint (c : ascii) (d : Decimal.uint) :
  digit c = None -> occurs c (NilEmpty.string_of_uint d) = false.
Proof.
  intros H.
  induction d; cbn [NilEmpty.string_of_uint occurs]; try reflexivity;
    rewrite IHd, orb_false_r;
    match goal with
    | |- Ascii.eqb ?x c = false =>
        destruct (Ascii.eqb_spec x c) as [E|_]; [|reflexivity];
        subst c; vm_compute in H; discriminate
    end.
Qed.

Lemma occurs_str_of_int (c : ascii) (z : Z) :
  digit c = None -> c <> "-"%char -> occurs c (Py.str_of_int z) = false.
Proof.
  intros H Hm. unfold Py.str_of_int, NilZero.string_of_int.
  assert (Hu : forall d, occurs c (NilZero.string_of_uint d) = false).
  { intros d. unfold NilZero.string_of_uint.
    destruct d; try apply (occurs_uint c _ H).
    cbn [occurs]. rewrite orb_false_r.
    destruct (Ascii.eqb_spec "0"%char c) as [E|_]; [|reflexivity].
    subst c. vm_compute in H. discriminate. }
  destruct (Z.to_int z) as [d|d]; [apply Hu|].
  cbn [occurs]. rewrite Hu, orb_false_r.
  destruct (Ascii.eqb_spec "-"%char c) as [E|_]; [|reflexivity].
  subst c. contradiction.
Qed.

Lemma occurs_app (c : ascii) (a b : string) :
  occurs c (a ++ b) = occurs c a || occurs c b.
Proof.
  induction a as [|x r IH]; simpl; [reflexivity|].
  rewrite IH, orb_assoc. reflexivity.
Qed.

Lemma append_cons (c : ascii) (a s : string) :
  (String c a ++ s)%string = String c (a ++ s)%string.
Proof. reflexivity. Qed.

Lemma append_nil (s : string) : (EmptyString ++ s)%string = s.
Proof. reflexivity. Qed.

(** A string is cut in one way only at its last underscore. *)
Lemma split_last_underscore (a b x y : string) :
  occurs "_" x = false -> occurs "_" y = false ->
  (a ++ "_" ++ x = b ++ "_" ++ y)%string -> a = b /\ x = y.
Proof.
  intros Hx Hy. revert b.
  induction a as [|c a IH]; intros [|c' b] E;
    rewrite ?append_cons, ?append_nil in E.
  - injection E as ->. auto.
  - injection E as <- ->. rewrite occurs_app in Hx.
    cbn [occurs] in Hx. rewrite Ascii.eqb_refl, orb_true_r in Hx. discriminate.
  - injection E as -> <-. rewrite occurs_app in Hy.
    cbn [occurs] in Hy. rewrite Ascii.eqb_refl, orb_true_r in Hy. discriminate.
  - injection E as -> E. destruct (IH b E) as [-> ->]. auto.
Qed.

Lemma get_ctf_id_parts (e1 e2 : event) :
  get_ctf_id e1 = get_ctf_id e2 ->
  title_or_default e1 = title_or_default e2 /\ ev_id e1 = ev_id e2.
Proof.
  unfold get_ctf_id, title_or_default. intros E.
  apply split_last_underscore in E.
  - destruct E as [Et Ei]. split; [exact Et|].
    destruct (ev_id e1) as [i1|], (ev_id e2) as [i2|].
    + f_equal. apply str_of_int_inj. exact Ei.
    + pose proof (occurs_str_of_int "u" i1 eq_refl ltac:(discriminate)) as H.
      rewrite Ei in H. discriminate.
    + pose proof (occurs_str_of_int "u" i2 eq_refl ltac:(discriminate)) as H.
      rewrite <- Ei in H. discriminate.
    + reflexivity.
  - destruct (ev_id e1); [apply occurs_str_of_int; [reflexivity|discriminate]|reflexivity].
  - destruct (ev_id e2); [apply occurs_str_of_int; [reflexivity|discriminate]|reflexivity].
Qed.

(** X20.  Two events have the same key only if they have the same id (or
    both none) and the same title, an absent title counting as ["ctf"];
    hence events with pairwise different ids have pairwise different keys,
    whatever their titles. *)
Theorem get_ctf_id_injective :
  (forall e1 e2, get_ctf_id e1 = get_ctf_id e2 ->
                 ev_id e1 = ev_id e2 /\ title_or_default e1 = title_or_default e2) /\
  (forall events, List.NoDup (map ev_id events) ->
                  List.NoDup (map get_ctf_id events)).
Proof.
  split.
  - intros e1 e2 E. apply get_ctf_id_parts in E. tauto.
  - induction events as [|e r IH]; cbn [map]; intros H; [constructor|].
    inversion H as [|x l Hnot Hnd]; subst. constructor; [|auto].
    intros Hin. apply Hnot. apply in_map_iff in Hin. destruct Hin as (e' & E & He').
    apply get_ctf_id_parts in E. destruct E as [_ E]. rewrite <- E.
    apply in_map. exact He'.
Qed.

(** ** Channel names *)

Ltac each_ascii c := destruct c as [[] [] [] [] [] [] [] []].

Lemma kept_lower_name_char (c : ascii) :
  kept c = true -> isspace c = false -> name_char (py_lower c) = true.
Proof. each_ascii c; vm_compute; intros; congruence. Qed.

Lemma name_char_fixed (c : ascii) :
  name_char c = true -> kept c = true /\ isspace c = false /\ py_lower c = c.
Proof. each_ascii c; vm_compute; intros; try discriminate; auto. Qed.

Lemma filter_all {A : Type} (p : A -> bool) (l : list A) :
  Forall (fun x => p x = true) l -> List.filter p l = l.
Proof.
  induction 1 as [|x r Hx _ IH]; cbn [List.filter]; [reflexivity|].
  rewrite Hx, IH. reflexivity.
Qed.

Lemma lstrip_Forall (P : ascii -> Prop) (l : list ascii) :
  Forall P l -> Forall P (lstrip l).
Proof.
  induction 1 as [|c r Hc Hr IH]; cbn [lstrip]; [constructor|].
  destruct (isspace c); [exact IH|constructor; assumption].
Qed.

Lemma strip_Forall (P : ascii -> Prop) (l : list ascii) :
  Forall P l -> Forall P (strip l).
Proof.
  intros H. unfold strip. apply Forall_rev, lstrip_Forall, Forall_rev, lstrip_Forall, H.
Qed.

Lemma lstrip_no_space (l : list ascii) :
  Forall (fun c => isspace c = false) l -> lstrip l = l.
Proof. destruct 1 as [|c r Hc _]; cbn [lstrip]; [reflexivity|]. rewrite Hc. reflexivity. Qed.

Lemma strip_no_space (l : list ascii) :
  Forall (fun c => isspace c = false) l -> strip l = l.
Proof.
  intros H. unfold strip. rewrite (lstrip_no_space l H).
  rewrite (lstrip_no_space (rev l)) by (apply Forall_rev, H).
  apply rev_involutive.
Qed.

Lemma sub_spaces_Forall (b : bool) (l : list ascii) :
  Forall (fun c => kept c = true) l ->
  Forall (fun c => kept c = true /\ isspace c = false) (sub_spaces b l).
Proof.
  intros H. revert b. induction H as [|c r Hc _ IH]; intros b; cbn [sub_spaces].
  - constructor.
  - destruct (isspace c) eqn:Es.
    + destruct b; [apply IH|]. constructor; [split; reflexivity|apply IH].
    + constructor; [auto|apply IH].
Qed.

Lemma sub_spaces_no_space (l : list ascii) :
  Forall (fun c => isspace c = false) l -> sub_spaces false l = l.
Proof.
  induction 1 as [|c r Hc _ IH]; cbn [sub_spaces]; [reflexivity|].
  rewrite Hc, IH. reflexivity.
Qed.

Lemma map_fixed {A : Type} (f : A -> A) (l : list A) :
  Forall (fun x => f x = x) l -> map f l = l.
Proof.
  induction 1 as [|x r Hx _ IH]; cbn [map]; [reflexivity|]. rewrite Hx, IH. reflexivity.
Qed.

(** What a sanitized name is. *)
Lemma sanitize_chars_valid (name : list ascii) :
  (1 <= length (sanitize_chars name) <= 100)%nat /\
  Forall (fun c => name_char c = true) (sanitize_chars name) /\
  exists c rest, sanitize_chars name = c :: rest /\ isalnum c = true.
Proof.
  unfold sanitize_chars.
  set (l := map py_lower (sub_spaces false (strip (List.filter kept name)))).
  assert (Hl : Forall (fun c => name_char c = true) l).
  { unfold l. rewrite List.Forall_map.
    eapply List.Forall_impl; [|apply sub_spaces_Forall, strip_Forall].
    - intros c [Hk Hs]. apply kept_lower_name_char; assumption.
    - apply List.Forall_forall. intros c Hc. apply filter_In in Hc. apply Hc. }
  clearbody l.
  set (l' := match l with
             | c :: _ => if negb (isalnum c) then list_ascii_of_string "ctf-" ++ l else l
             | [] => l
             end).
  assert (Hl' : Forall (fun c => name_char c = true) l' /\
                (l' = [] \/ exists c rest, l' = c :: rest /\ isalnum c = true)).
  { unfold l'. destruct l as [|c r]; [auto|].
    destruct (isalnum c) eqn:Ea; cbn [negb].
    - split; [exact Hl|right; eauto].
    - split; [|right; cbn; eauto].
      cbn [list_ascii_of_string app]. repeat (constructor; [reflexivity|]). exact Hl. }
  clearbody l'. destruct Hl' as [Hf [->|(c & rest & -> & Ha)]].
  - split; [cbn; lia|]. split; [|cbn; eauto].
    cbn [list_ascii_of_string]. repeat (constructor; [reflexivity|]). constructor.
  - split; [|split].
    + rewrite length_firstn. cbn [length]. lia.
    + apply List.Forall_forall. intros x Hx.
      rewrite List.Forall_forall in Hf. apply Hf.
      rewrite <- (firstn_skipn 100 (c :: rest)). apply in_or_app. left. exact Hx.
    + cbn [firstn]. eauto.
Qed.

(** A name of that form is left as it is. *)
Lemma sanitize_chars_fixed (l : list ascii) :
  (1 <= length l <= 100)%nat ->
  Forall (fun c => name_char c = true) l ->
  (exists c rest, l = c :: rest /\ isalnum c = true) ->
  sanitize_chars l = l.
Proof.
  intros Hlen Hf (c & rest & E & Ha). unfold sanitize_chars.
  assert (Hk : Forall (fun c => kept c = true) l)
    by (eapply List.Forall_impl; [|exact Hf]; intros x Hx; apply name_char_fixed, Hx).
  assert (Hs : Forall (fun c => isspace c = false) l)
    by (eapply List.Forall_impl; [|exact Hf]; intros x Hx; apply name_char_fixed, Hx).
  assert (Hp : Forall (fun c => py_lower c = c) l)
    by (eapply List.Forall_impl; [|exact Hf]; intros x Hx; apply name_char_fixed, Hx).
  rewrite (filter_all kept l Hk), (strip_no_space l Hs), (sub_spaces_no_space l Hs),
    (map_fixed py_lower l Hp).
  subst l. rewrite Ha. cbn [negb]. apply firstn_all2. lia.
Qed.

(** X21.  A sanitized channel name has between 1 and 100 characters, all of
    them lower-case ASCII letters, digits, hyphens or underscores, the first
    one a letter or a digit; sanitizing it again gives the same name. *)
Theorem sanitize_channel_name_valid (name : string) :
  let r := list_ascii_of_string (sanitize_channel_name name) in
  (1 <= length r <= 100)%nat /\
  Forall (fun c => name_char c = true) r /\
  (exists c rest, r = c :: rest /\ isalnum c = true /\ name_char c = true) /\
  sanitize_channel_name (sanitize_channel_name name) = sanitize_channel_name name.
Proof.
  cbv zeta. unfold sanitize_channel_name.
  rewrite !list_ascii_of_string_of_list_ascii.
  destruct (sanitize_chars_valid (list_ascii_of_string name))
    as (Hlen & Hf & c & rest & E & Ha).
  split; [exact Hlen|]. split; [exact Hf|]. split.
  - exists c, rest. split; [exact E|]. split; [exact Ha|].
    rewrite E in Hf. inversion Hf; assumption.
  - f_equal. apply sanitize_chars_fixed; eauto.
Qed.

(** ** Passwords *)

Lemma randbelow_lt (n : nat) (tape : list nat) :
  (0 < n)%nat -> (fst (randbelow n tape) < n)%nat.
Proof.
  intros Hn. destruct tape as [|x r]; cbn [randbelow fst]; [exact Hn|].
  apply Nat.mod_upper_bound. lia.
Qed.

Lemma choice_In (seq : list ascii) (tape : list nat) :
  seq <> [] -> In (fst (choice seq tape)) seq.
Proof.
  intros Hne. unfold choice.
  pose proof (randbelow_lt (length seq) tape) as Hlt.
  destruct (randbelow (length seq) tape) as [i tape']. cbn [fst] in *.
  apply nth_In. apply Hlt. destruct seq; [contradiction|cbn; lia].
Qed.

Lemma choices_spec (n : nat) (seq : list ascii) (tape : list nat) :
  seq <> [] ->
  length (fst (choices n seq tape)) = n /\
  Forall (fun c => In c seq) (fst (choices n seq tape)).
Proof.
  intros Hne. revert tape. induction n as [|k IH]; intros tape; cbn [choices].
  - split; [reflexivity|constructor].
  - pose proof (choice_In seq tape Hne) as Hc.
    destruct (choice seq tape) as [c t1]. cbn [fst] in Hc.
    specialize (IH t1). destruct (choices k seq t1) as [r t2]. cbn [fst] in *.
    destruct IH as [Hl Hf]. split; [cbn; lia|constructor; assumption].
Qed.

Lemma insert_head_perm (r : list ascii) (j : nat) (b c : ascii) :
  r !! j = Some b -> Permutation (b :: <[j := c]> r) (c :: r).
Proof.
  revert j. induction r as [|d r IH]; intros [|j] H; try discriminate.
  - injection H as ->. apply perm_swap.
  - cbn. etransitivity; [apply perm_swap|].
    etransitivity; [apply perm_skip, (IH j H)|]. apply perm_swap.
Qed.

Lemma swap_perm (i j : nat) (x : list ascii) : Permutation (swap i j x) x.
Proof.
  unfold swap.
  destruct (x !! i) as [a|] eqn:Ei; [|reflexivity].
  destruct (x !! j) as [b|] eqn:Ej; [|reflexivity].
  revert i j Ei Ej. induction x as [|c r IH]; intros [|i] [|j] Ei Ej; try discriminate.
  - injection Ei as ->. injection Ej as ->. reflexivity.
  - injection Ei as ->. cbn in Ej |- *. apply insert_head_perm. exact Ej.
  - injection Ej as ->. cbn in Ei |- *. apply insert_head_perm. exact Ei.
  - cbn in Ei, Ej |- *. apply perm_skip. apply IH; assumption.
Qed.

Lemma shuffle_from_perm (i : nat) (x : list ascii) (tape : list nat) :
  Permutation (fst (shuffle_from i x tape)) x.
Proof.
  revert x tape. induction i as [|k IH]; intros x tape; cbn [shuffle_from].
  - reflexivity.
  - destruct (randbelow (S k + 1) tape) as [j t1].
    etransitivity; [apply IH|apply swap_perm].
Qed.

(** The password is a rearrangement of one character of each class followed
    by characters of all classes. *)
Lemma generate_random_password_perm (len : Z) (include_symbols : bool)
    (tape : list nat) :
  exists c1 c2 c3 c4 rest,
    In c1 lowercase /\ In c2 uppercase /\ In c3 digits /\ In c4 all_symbols /\
    Forall (fun c => In c (lowercase ++ uppercase ++ digits ++
                           if include_symbols then all_symbols else [])) rest /\
    length rest
    = Z.to_nat (len - Z.of_nat (length ([c1; c2; c3] ++
                                       if include_symbols then [c4] else []))) /\
    Permutation
      (list_ascii_of_string (fst (generate_random_password len include_symbols tape)))
      ([c1; c2; c3] ++ (if include_symbols then [c4] else []) ++ rest).
Proof.
  unfold generate_random_password.
  pose proof (choice_In lowercase tape ltac:(discriminate)) as H1.
  destruct (choice lowercase tape) as [c1 t1]. cbn [fst] in H1.
  pose proof (choice_In uppercase t1 ltac:(discriminate)) as H2.
  destruct (choice uppercase t1) as [c2 t2]. cbn [fst] in H2.
  pose proof (choice_In digits t2 ltac:(discriminate)) as H3.
  destruct (choice digits t2) as [c3 t3]. cbn [fst] in H3.
  destruct include_symbols.
  - pose proof (choice_In all_symbols t3 ltac:(discriminate)) as H4.
    destruct (choice all_symbols t3) as [c4 t4]. cbn [fst] in H4.
    pose proof (choices_spec (Z.to_nat (len - Z.of_nat (length ([c1; c2; c3] ++ [c4]))))
                  (lowercase ++ uppercase ++ digits ++ all_symbols) t4
                  ltac:(discriminate)) as [Hl Hf].
    destruct (choices _ _ t4) as [rest t5]. cbn [fst] in Hl, Hf.
    pose proof (shuffle_from_perm (length (([c1; c2; c3] ++ [c4]) ++ rest) - 1)
                  (([c1; c2; c3] ++ [c4]) ++ rest) t5) as Hp.
    unfold shuffle. destruct (shuffle_from _ _ t5) as [pw t6]. cbn [fst] in Hp |- *.
    exists c1, c2, c3, c4, rest. rewrite list_ascii_of_string_of_list_ascii.
    repeat (split; [assumption|]). rewrite <- app_assoc in Hp. exact Hp.
  - pose proof (choices_spec (Z.to_nat (len - Z.of_nat (length [c1; c2; c3])))
                  (lowercase ++ uppercase ++ digits ++ []) t3
                  ltac:(discriminate)) as [Hl Hf].
    destruct (choices _ _ t3) as [rest t5]. cbn [fst] in Hl, Hf.
    pose proof (shuffle_from_perm (length ([c1; c2; c3] ++ rest) - 1)
                  ([c1; c2; c3] ++ rest) t5) as Hp.
    unfold shuffle. destruct (shuffle_from _ _ t5) as [pw t6]. cbn [fst] in Hp |- *.
    exists c1, c2, c3, "!"%char, rest. rewrite list_ascii_of_string_of_list_ascii.
    split; [assumption|]. split; [assumption|]. split; [assumption|].
    split; [cbn; auto|]. split; [assumption|]. split; [assumption|exact Hp].
Qed.

(** X22.  A generated password has [max(length, 4)] characters when symbols
    are included and [max(length, 3)] otherwise, whatever the random
    numbers: at least one lower-case letter, one upper-case letter and one
    digit, one symbol when they are included, and nothing outside these
    classes. *)
Theorem generate_random_password_classes (len : Z) (include_symbols : bool)
    (tape : list nat) :
  let pw := list_ascii_of_string
              (fst (generate_random_password len include_symbols tape)) in
  Z.of_nat (length pw) = Z.max len (if include_symbols then 4 else 3) /\
  (exists c, In c pw /\ In c lowercase) /\
  (exists c, In c pw /\ In c uppercase) /\
  (exists c, In c pw /\ In c digits) /\
  (include_symbols = true -> exists c, In c pw /\ In c all_symbols) /\
  Forall (fun c => In c (lowercase ++ uppercase ++ digits ++
                         if include_symbols then all_symbols else [])) pw.
Proof.
  cbv zeta.
  destruct (generate_random_password_perm len include_symbols tape)
    as (c1 & c2 & c3 & c4 & rest & H1 & H2 & H3 & H4 & Hf & Hl & Hp).
  set (pw := list_ascii_of_string _) in *. clearbody pw.
  assert (Hin : forall c, In c ([c1; c2; c3] ++
                                (if include_symbols then [c4] else []) ++ rest) ->
                          In c pw).
  { intros c Hc. eapply Permutation_in; [symmetry; exact Hp|exact Hc]. }
  split.
  { rewrite (Permutation_length Hp), !length_app, Hl, length_app.
    destruct include_symbols; cbn [length]; lia. }
  split; [exists c1; split; [apply Hin; cbn; auto|exact H1]|].
  split; [exists c2; split; [apply Hin; cbn; auto|exact H2]|].
  split; [exists c3; split; [apply Hin; cbn; auto|exact H3]|].
  split.
  { intros ->. exists c4. split; [apply Hin; cbn; auto|exact H4]. }
  apply List.Forall_forall. intros c Hc.
  apply (Permutation_in _ Hp) in Hc. cbn [app] in Hc.
  destruct Hc as [<-|[<-|[<-|Hc]]].
  - apply in_or_app. left. exact H1.
  - apply in_or_app. right. apply in_or_app. left. exact H2.
  - apply in_or_app. right. apply in_or_app. right. apply in_or_app. left. exact H3.
  - apply in_app_or in Hc. destruct Hc as [Hc|Hc].
    + destruct include_symbols; [|destruct Hc]. destruct Hc as [<-|[]].
      apply in_or_app. right. apply in_or_app. right. apply in_or_app. right. exact H4.
    + rewrite List.Forall_forall in Hf. apply Hf. exact Hc.
Qed.

(** X23.  The password of [/generate_password] has exactly
    [max(8, min(length, 50))] characters, so between 8 and 50 whatever
    length is asked for, and it contains a symbol. *)
Theorem slash_generate_password_length (len : Z) (tape : list nat) :
  let pw := list_ascii_of_string (fst (slash_generate_password len tape)) in
  Z.of_nat (length pw) = Z.max 8 (Z.min len 50) /\
  8 <= Z.of_nat (length pw) <= 50 /\
  exists c, In c pw /\ In c all_symbols.
Proof.
  cbv zeta. unfold slash_generate_password.
  destruct (generate_random_password_perm (Z.max 8 (Z.min len 50)) true tape)
    as (c1 & c2 & c3 & c4 & rest & _ & _ & _ & H4 & _ & Hl & Hp).
  set (pw := list_ascii_of_string _) in *. clearbody pw.
  assert (Hlen : Z.of_nat (length pw) = Z.max 8 (Z.min len 50)).
  { rewrite (Permutation_length Hp), !length_app, Hl. cbn [length app]. lia. }
  split; [exact Hlen|]. split; [lia|].
  exists c4. split; [|exact H4].
  eapply Permutation_in; [symmetry; exact Hp|]. cbn. auto.
Qed.

(** ** Permissions *)

Lemma existsb_Zeqb (r : Z) (l : list Z) : existsb (Z.eqb r) l = true <-> In r l.
Proof.
  induction l as [|x l IH]; cbn [existsb In]; [split; [discriminate|tauto]|].
  rewrite orb_true_iff, Z.eqb_eq, IH. split; intros [H|H]; auto.
Qed.

(** X24.  [user_has_ctf_permissions] grants exactly the administrators and
    the members that have one of the roles listed in the [admin_roles]
    setting of the guild; with the default settings, and so for a guild the
    bot has not seen before, it grants the administrators only. *)
Theorem user_has_ctf_permissions_grants (user : Member) (gid : Z) (s : CTFDataManager) :
  (outcome_of (user_has_ctf_permissions user gid s) = Ret (Some true) <->
   administrator user = true \/
   exists l role, setting_of (config_of s gid) "admin_roles" = Some (SRoles l) /\
                  In role (roles user) /\ In role l) /\
  (settings (config_of s gid) = DEFAULT_CONFIG ->
   outcome_of (user_has_ctf_permissions user gid s) = Ret (Some (administrator user))).
Proof.
  unfold user_has_ctf_permissions.
  destruct (administrator user) eqn:Ea.
  { split; [split; auto|reflexivity]. }
  unfold bind.
  pose proof (get_guild_setting_outcome gid "admin_roles" s) as Hs.
  destruct (get_guild_setting gid "admin_roles" s) as [[s1 t1] r1].
  unfold outcome_of in Hs; cbn [snd] in Hs. subst r1.
  set (v := setting_of (config_of s gid) "admin_roles").
  assert (Hv : v = setting_of (config_of s gid) "admin_roles") by reflexivity.
  clearbody v. split.
  - split.
    + intros H. right.
      destruct v as [[b|n|l]|]; cbn [truthy] in H.
      * destruct b; cbn [negb ret outcome_of snd] in H; [|discriminate].
        destruct (roles user); discriminate.
      * destruct (n =? 0); cbn [negb ret outcome_of snd] in H; [discriminate|].
        destruct (roles user); discriminate.
      * destruct l as [|x l]; cbn [negb ret outcome_of snd] in H; [discriminate|].
        injection H as H. apply existsb_exists in H. destruct H as (role & Hr & H).
        apply (proj1 (existsb_Zeqb role (x :: l))) in H. exists (x :: l), role. auto.
      * discriminate.
    + intros [H|(l & role & E & Hr & Hl)]; [discriminate|].
      rewrite E. cbn [truthy].
      destruct l as [|x l]; [destruct Hl|]. cbn [negb ret outcome_of snd].
      do 2 f_equal. apply existsb_exists. exists role. split; [exact Hr|].
      apply existsb_Zeqb. exact Hl.
  - intros Hd. unfold setting_of in Hv. rewrite Hd in Hv. cbn in Hv. subst v.
    reflexivity.
Qed.

Lemma user_has_ctf_permissions_grants_witness :
  outcome_of (user_has_ctf_permissions {| administrator := false; roles := [1; 2] |}
                5 scenario) = Ret (Some false).
Proof.
  apply (user_has_ctf_permissions_grants {| administrator := false; roles := [1; 2] |}
           5 scenario).
  reflexivity.
Defined.

(** ** Offsets in [parse_ctf_time_to_timestamp] *)

Lemma list_ascii_of_string_app (a b : string) :
  list_ascii_of_string (a ++ b) = list_ascii_of_string a ++ list_ascii_of_string b.
Proof.
  induction a as [|c a IH]; [reflexivity|].
  change (String c a ++ b)%string with (String c (a ++ b)).
  cbn [list_ascii_of_string app]. rewrite IH. reflexivity.
Qed.

(** The numeric directives read the same digits when the text goes on with
    a character that is not a digit. *)
Lemma two_or_one_extend (p2 : Z -> Z -> bool) (p1 : Z -> bool) (s : list ascii)
    (c : ascii) (z : list ascii) (v : Z) (r : list ascii) :
  digit c = None ->
  two_or_one p2 p1 s = Some (v, r) ->
  two_or_one p2 p1 (s ++ c :: z) = Some (v, r ++ c :: z).
Proof.
  intros Hc. unfold two_or_one. destruct s as [|c1 [|c2 r2]]; cbn [app].
  - discriminate.
  - destruct (digit c1) as [d1|]; [|discriminate]. rewrite Hc.
    destruct (p1 d1); [|discriminate]. intros H. injection H as <- <-. reflexivity.
  - destruct (digit c1) as [d1|]; [|discriminate].
    destruct (digit c2) as [d2|].
    + destruct (p2 d1 d2).
      * intros H. injection H as <- <-. reflexivity.
      * destruct (p1 d1); [|discriminate]. intros H. injection H as <- <-. reflexivity.
    + destruct (p1 d1); [|discriminate]. intros H. injection H as <- <-. reflexivity.
Qed.

Lemma two_or_one_none_extend (p2 : Z -> Z -> bool) (p1 : Z -> bool) (s : list ascii)
    (c : ascii) (z : list ascii) :
  digit c = None -> s <> [] ->
  two_or_one p2 p1 s = None ->
  two_or_one p2 p1 (s ++ c :: z) = None.
Proof.
  intros Hc Hs. unfold two_or_one. destruct s as [|c1 [|c2 r2]]; cbn [app].
  - contradiction.
  - destruct (digit c1) as [d1|]; [|reflexivity]. rewrite Hc.
    destruct (p1 d1); [discriminate|reflexivity].
  - destruct (digit c1) as [d1|]; [|reflexivity].
    destruct (digit c2) as [d2|]; [destruct (p2 d1 d2); [discriminate|]|];
      (destruct (p1 d1); [discriminate|reflexivity]).
Qed.

Lemma step_extend (it : item) (f f' : fields) (s s' : list ascii) (c : ascii)
    (z : list ascii) :
  digit c = None -> it <> Df -> it <> Dz ->
  step it (f, s) = Some (f', s') ->
  step it (f, s ++ c :: z) = Some (f', s' ++ c :: z).
Proof.
  intros Hc Hf Hz. destruct it; try contradiction; cbn [step].
  - destruct s as [|x r]; [discriminate|]. cbn [app].
    destruct (Ascii.eqb (lower x) (lower c0)); [|discriminate].
    intros H. injection H as <- <-. reflexivity.
  - unfold year4. destruct s as [|a [|b [|c' [|d r]]]]; try discriminate. cbn [app].
    destruct (digit a), (digit b), (digit c'), (digit d); try discriminate.
    intros H. injection H as <- <-. reflexivity.
  - destruct (month s) as [[v r]|] eqn:E; [|discriminate].
    unfold month in *. rewrite (two_or_one_extend _ _ s c z v r Hc E).
    intros H. injection H as <- <-. reflexivity.
  - destruct (day s) as [[v r]|] eqn:E; [|discriminate].
    intros H. injection H as <- <-.
    assert (E' : day (s ++ c :: z) = Some (v, r ++ c :: z)); [|rewrite E'; reflexivity].
    unfold day in *.
    destruct (two_or_one _ _ s) as [[v0 r0]|] eqn:Et.
    + injection E as -> ->. rewrite (two_or_one_extend _ _ s c z v r Hc Et). reflexivity.
    + destruct s as [|c1 [|c2 r2]]; try discriminate.
      rewrite (two_or_one_none_extend _ _ (c1 :: c2 :: r2) c z Hc ltac:(discriminate) Et).
      cbn [app]. destruct (Ascii.eqb c1 " "); [|discriminate].
      destruct (digit c2) as [d|]; [|discriminate].
      destruct (1 <=? d); [|discriminate]. injection E as <- <-. reflexivity.
  - destruct (hour s) as [[v r]|] eqn:E; [|discriminate].
    unfold hour in *. rewrite (two_or_one_extend _ _ s c z v r Hc E).
    intros H. injection H as <- <-. reflexivity.
  - destruct (minute s) as [[v r]|] eqn:E; [|discriminate].
    unfold minute in *. rewrite (two_or_one_extend _ _ s c z v r Hc E).
    intros H. injection H as <- <-. reflexivity.
  - destruct (second s) as [[v r]|] eqn:E; [|discriminate].
    unfold second in *. rewrite (two_or_one_extend _ _ s c z v r Hc E).
    intros H. injection H as <- <-. reflexivity.
Qed.

Lemma run_extend (fmt : list item) (c : ascii) (z : list ascii) :
  digit c = None ->
  Forall (fun it => it <> Df /\ it <> Dz) fmt ->
  forall f s f' s',
    run fmt (f, s) = Some (f', s') ->
    run fmt (f, s ++ c :: z) = Some (f', s' ++ c :: z).
Proof.
  intros Hc. induction 1 as [|it fmt [Hf Hz] _ IH]; intros f s f' s' H; cbn [run] in *.
  - injection H as <- <-. reflexivity.
  - destruct (step it (f, s)) as [[f1 s1]|] eqn:E; [|discriminate].
    rewrite (step_extend it f f1 s s1 c z Hc Hf Hz E). apply IH. exact H.
Qed.

Lemma step_keeps_ff (it : item) (f f' : fields) (s s' : list ascii) :
  it <> Df -> step it (f, s) = Some (f', s') -> ff f' = ff f.
Proof.
  intros Hz H. destruct it; simpl in H; try congruence;
    repeat match type of H with
    | match ?x with _ => _ end = _ => destruct x eqn:?; try discriminate
    end; inversion H; subst; reflexivity.
Qed.

Lemma run_keeps_ff (fmt : list item) :
  Forall (fun it => it <> Df /\ it <> Dz) fmt ->
  forall f s f' s', run fmt (f, s) = Some (f', s') -> ff f' = ff f.
Proof.
  induction 1 as [|it fmt [Hit _] _ IH]; intros f s f' s' H; cbn [run] in H.
  - inversion H; reflexivity.
  - destruct (step it (f, s)) as [[f1 s1]|] eqn:E; [|discriminate].
    rewrite (IH _ _ _ _ H). eapply step_keeps_ff; eauto.
Qed.

Lemma fmt_plain_numeric : Forall (fun it => it <> Df /\ it <> Dz) fmt_plain.
Proof. unfold fmt_plain. repeat constructor; discriminate. Qed.

Lemma zone_head (lz : list ascii) (o : Z) (r : list ascii) :
  zone lz = Some (o, r) -> exists c z, lz = c :: z /\ digit c = None.
Proof.
  destruct lz as [|c z]; [discriminate|]. intros H. exists c, z. split; [reflexivity|].
  unfold zone in H.
  destruct (Ascii.eqb_spec c "Z") as [->|_]; [reflexivity|].
  destruct (Ascii.eqb_spec c "+") as [->|_]; [reflexivity|].
  destruct (Ascii.eqb_spec c "-") as [->|_]; [reflexivity|discriminate].
Qed.

(** A naive time followed by an offset parses with the first format. *)
Lemma strptime_with_zone (s z : string) (dt : datetime) (o : Z) :
  strptime s fmt_plain = Some dt ->
  zone (list_ascii_of_string z) = Some (o, []) ->
  - day_us < o < day_us ->
  microsecond dt = 0 /\
  strptime (s ++ z) (fmt_plain ++ [Dz])
  = Some {| year := year dt; mon := mon dt; mday := mday dt; hh := hh dt; mi := mi dt;
            ss := ss dt; microsecond := microsecond dt; tzinfo := Some o |}.
Proof.
  unfold strptime. intros Hs Hz Ho.
  destruct (run fmt_plain (no_fields, list_ascii_of_string s)) as [[f [|x r]]|] eqn:E;
    try discriminate.
  destruct (zone_head _ _ _ Hz) as (c & lz & Elz & Hc).
  pose proof (run_keeps_ff fmt_plain fmt_plain_numeric _ _ _ _ E) as Hff.
  pose proof (run_keeps_fz fmt_plain fmt_plain_no_zone _ _ _ _ E) as Hfz.
  cbn [ff fz no_fields] in Hff, Hfz.
  rewrite list_ascii_of_string_app, Elz, run_app.
  rewrite (run_extend fmt_plain c lz Hc fmt_plain_numeric _ _ _ _ E).
  cbn [app run step]. rewrite <- Elz, Hz.
  unfold build in *. cbn [fY fm fd fH fM fS ff fz].
  rewrite Hfz in Hs.
  destruct ((1 <=? fY f) && (fd f <=? days_in_month (fY f) (fm f)) && (fS f <=? 59));
    [|discriminate].
  cbn [andb] in Hs |- *. injection Hs as <-. cbn [microsecond year mon mday hh mi ss].
  split; [exact Hff|].
  replace ((- day_us <? o) && (o <? day_us)) with true; [reflexivity|].
  symmetry. apply andb_true_iff. split; apply Z.ltb_lt; lia.
Qed.

Lemma append_not_empty (s z : string) : z <> EmptyString -> (s ++ z)%string <> EmptyString.
Proof.
  intros Hz H. apply (f_equal list_ascii_of_string) in H.
  rewrite list_ascii_of_string_app in H. cbn in H.
  apply app_eq_nil in H. destruct H as [_ H]. apply Hz.
  destruct z; [reflexivity|discriminate].
Qed.

(** X25.  A time that parses without an offset, followed by a UTC offset of
    whole seconds ([Z], [+HH:MM], [-HHMM], ...), gives the timestamp of the
    naive time read as UTC minus the offset. *)
Theorem parse_ctf_time_honours_offset (s z : string) (dt : datetime) (secs : Z) :
  strptime s fmt_plain = Some dt ->
  zone (list_ascii_of_string z) = Some (secs * 1000000, []) ->
  -86400 < secs < 86400 ->
  parse_ctf_time_to_timestamp s = Some (utc_seconds dt) /\
  parse_ctf_time_to_timestamp (s ++ z) = Some (utc_seconds dt - secs).
Proof.
  intros Hs Hz Hsecs. split.
  - unfold parse_ctf_time_to_timestamp.
    destruct (String.eqb_spec s EmptyString) as [->|_].
    { rewrite (strptime_empty fmt_plain (or_introl eq_refl)) in Hs. discriminate. }
    destruct (strptime_plain_others s dt Hs) as [H1 H2].
    unfold time_formats. cbn [try_formats]. rewrite H1, H2, Hs.
    rewrite (strptime_naive fmt_plain s dt fmt_plain_no_zone Hs).
    rewrite int_timestamp_replace_utc. reflexivity.
  - destruct (strptime_with_zone s z dt (secs * 1000000) Hs Hz
                ltac:(unfold day_us; lia)) as [Hus Hp].
    unfold parse_ctf_time_to_timestamp.
    destruct (String.eqb_spec (s ++ z) EmptyString) as [E|_].
    { exfalso. apply (append_not_empty s z); [|exact E].
      intros ->. discriminate. }
    unfold time_formats. cbn [try_formats]. rewrite Hp. cbn [tzinfo].
    f_equal. unfold int_timestamp, utc_seconds, wall_us.
    cbn [year mon mday hh mi ss microsecond tzinfo]. rewrite Hus, Z.add_0_r.
    set (k := (ymd2ord (year dt) (mon dt) (mday dt) - 719163) * 86400
              + hh dt * 3600 + mi dt * 60 + ss dt).
    replace (k * 1000000 - secs * 1000000) with ((k - secs) * 1000000) by lia.
    rewrite !Z.quot_mul by lia. reflexivity.
Qed.

Lemma parse_ctf_time_honours_offset_witness :
  parse_ctf_time_to_timestamp "2024-01-02T00:00:00+02:00" = Some (1704153600 - 7200).
Proof.
  assert (Hs : strptime "2024-01-02T00:00:00" fmt_plain
               = Some {| year := 2024; mon := 1; mday := 2; hh := 0; mi := 0; ss := 0;
                         microsecond := 0; tzinfo := None |}) by (vm_compute; reflexivity).
  destruct (parse_ctf_time_honours_offset "2024-01-02T00:00:00" "+02:00" _ 7200 Hs
              ltac:(vm_compute; reflexivity) ltac:(lia)) as [_ H].
  exact H.
Defined.

(** ** [/bot_setup] *)





(** ** Invite links *)

Lemma prefix_append (p u : string) : String.prefix p (p ++ u) = true.
Proof.
  induction p as [|a p IH]; [destruct u; reflexivity|].
  rewrite append_cons. cbn [String.prefix].
  destruct (ascii_dec a a) as [_|Hne]; [exact IH|contradiction].
Qed.

Lemma starts_with_ci_split (prefix s m rest : list ascii) :
  starts_with_ci prefix s = Some (m, rest) -> s = m ++ rest.
Proof.
  revert s m rest. induction prefix as [|p ps IH]; intros s m rest H.
  - destruct s; injection H as <- <-; reflexivity.
  - destruct s as [|c r]; [discriminate|]. cbn [starts_with_ci] in H.
    destruct (Ascii.eqb (lower c) (lower p)); [|discriminate].
    destruct (starts_with_ci ps r) as [[m' rest']|] eqn:E; [|discriminate].
    injection H as <- <-. rewrite (IH r m' rest' E). reflexivity.
Qed.

Lemma take_alnum_split (s : list ascii) : exists post, s = take_alnum s ++ post.
Proof.
  induction s as [|c r [post IH]]; [exists []; reflexivity|].
  cbn [take_alnum]. destruct (ascii_letter c || ascii_digit c).
  - exists post. cbn [app]. rewrite <- IH. reflexivity.
  - exists (c :: r). reflexivity.
Qed.

Lemma match_here_split (prefix s m : list ascii) :
  match_here prefix s = Some m -> exists post, s = m ++ post.
Proof.
  unfold match_here.
  destruct (starts_with_ci prefix s) as [[m0 rest]|] eqn:E; [|discriminate].
  apply starts_with_ci_split in E. subst s.
  destruct (take_alnum_split rest) as [post Hp].
  destruct (take_alnum rest) as [|c run]; [discriminate|].
  intros H. injection H as <-. exists post. rewrite <- app_assoc, <- Hp. reflexivity.
Qed.

Lemma search_split (prefix s m : list ascii) :
  search prefix s = Some m -> exists pre post, s = pre ++ m ++ post.
Proof.
  induction s as [|c r IH]; cbn [search]; intros H.
  - apply match_here_split in H. destruct H as [post H]. exists [], post. exact H.
  - destruct (match_here prefix (c :: r)) as [m'|] eqn:E.
    + injection H as <-. apply match_here_split in E. destruct E as [post E].
      exists [], post. exact E.
    + destruct (IH H) as (pre & post & E'). exists (c :: pre), post.
      cbn [app]. rewrite E'. reflexivity.
Qed.

Lemma first_link_spec (patterns : list string) (description url : string) :
  first_link patterns description = Some url ->
  String.prefix "https://" url = true /\
  exists pre m post,
    description = (pre ++ m ++ post)%string /\ (url = m \/ url = ("https://" ++ m)%string).
Proof.
  induction patterns as [|p rest IH]; cbn [first_link]; [discriminate|].
  destruct (search _ _) as [m|] eqn:E; [|exact IH].
  intros H. injection H as <-.
  apply search_split in E. destruct E as (pre & post & E).
  assert (Hd : description
               = (string_of_list_ascii pre ++ string_of_list_ascii m
                  ++ string_of_list_ascii post)%string).
  { rewrite <- (string_of_list_ascii_of_string description), E.
    apply (f_equal string_of_list_ascii) in E.
    clear. rewrite <- (string_of_list_ascii_of_string (_ ++ _ ++ _)%string).
    rewrite !list_ascii_of_string_app, !list_ascii_of_string_of_list_ascii.
    reflexivity. }
  destruct (String.prefix "https://" (string_of_list_ascii m)) eqn:Ep.
  - split; [exact Ep|]. eauto 6.
  - split; [apply prefix_append|]. eauto 6.
Qed.

(** X27.  A link extracted from a description always starts with
    ["https://"]: it is a piece of the description as it is written there,
    or that piece with ["https://"] put in front of it (also when the piece
    starts with a scheme written in capitals). *)
Theorem extract_discord_link_from_description_https (event : event) (url : string) :
  extract_discord_link_from_description event = Some url ->
  String.prefix "https://" url = true /\
  exists description pre m post,
    ev_description event = Some description /\
    description = (pre ++ m ++ post)%string /\
    (url = m \/ url = ("https://" ++ m)%string).
Proof.
  unfold extract_discord_link_from_description.
  destruct (ev_description event) as [description|]; [|discriminate].
  destruct (String.eqb description EmptyString); [discriminate|].
  intros H. apply first_link_spec in H. destruct H as (Hp & pre & m & post & Hd & Hu).
  split; [exact Hp|]. exists description, pre, m, post. auto.
Qed.

Lemma extract_discord_link_from_description_https_witness :
  String.prefix "https://"
    "https://HTTPS://discord.gg/abc" = true.
Proof.
  apply (extract_discord_link_from_description_https
           {| ev_title := None; ev_id := None; ev_start := None; ev_finish := None;
              ev_description := Some "Join HTTPS://discord.gg/abc now";
              ev_url := None |}).
  vm_compute. reflexivity.
Defined.
